(** * nats_scan: a shallow embedding of [src/nats_scan.cpp]

    The table function [nats_scan] of the DuckDB extension reads a NATS
    JetStream stream by sequence number.  This development embeds its
    callbacks ([NatsScanBind], [NatsScanInitGlobal], [NatsScanInitLocal],
    [NatsScanExecute]), their helpers, the error collector of the
    schema import and the registration of the function
    ([Register], and the entry point of [src/nats_js_extension.cpp])
    as Rocq functions, and proves properties of them.

    Conventions of the embedding:
    - [uint64_t] and [int64_t] values are integers of [Z]; every
      arithmetic operation of the source that can leave the range is
      followed by its wrap-around ([wrap_u64], [wrap_i64]);
    - a C++ exception is the outcome [Throws]; the two [while] loops
      take a [fuel] argument and answer [OutOfFuel] when it runs out
      (the fuel each loop needs is bounded below);
    - the broker client, the protobuf library, the JSON parser, the
      C++ standard library and the engine are collaborators outside
      the repository: their operations are the fields of [Broker],
      [ProtobufLib], [JsonLib], [StdLib] and [Engine], and the
      engine's [Value] constructors are total;
    - the engine's [DataChunk] is a finite map from (column, row) to
      [Value], written by [SetValue].

    The file has the model first (the source, function by function,
    then the notions the properties are stated with and concrete
    collaborators and scenarios to run the model on), then the
    properties, then the scenarios run. *)

From Stdlib Require Import ZArith String Ascii List Bool Lia Sorted.
From stdpp Require Import base option list gmap strings pretty.

Set Warnings "-register-all".

Local Open Scope string_scope.
Local Open Scope Z_scope.

(** ** Machine integers *)

Definition UINT64_MAX : Z := 2 ^ 64 - 1.

(** Arithmetic on [uint64_t] is modulo 2^64. *)
Definition wrap_u64 (z : Z) : Z := z mod 2 ^ 64.

(** [int64_t]: two's complement wrap-around of an out-of-range result. *)
Definition wrap_i64 (z : Z) : Z := (z + 2 ^ 63) mod 2 ^ 64 - 2 ^ 63.

(** ** The broker (nats.h), as far as the scan consults it *)

(** [natsStatus]: the scan tells [NATS_OK] and [NATS_NOT_FOUND] from
    every other status, kept here by its numeric code. *)
Inductive natsStatus : Type :=
| NATS_OK
| NATS_NOT_FOUND
| NATS_ERR (code : Z).

(** A message as the accessors [natsMsg_GetSubject], [natsMsg_GetTime],
    [natsMsg_GetData] / [natsMsg_GetDataLength] show it. *)
Record natsMsg : Type := {
  natsMsg_GetSubject : string;
  natsMsg_GetTime : Z;
  natsMsg_GetData : string
}.

(** [jsStreamInfo::State]. *)
Record jsStreamInfo : Type := {
  FirstSeq : Z;
  LastSeq : Z
}.

(** What [js_DirectGetMsg] hands back: a message with [NATS_OK], the
    status [NATS_NOT_FOUND], or another status. *)
Variant DirectGet : Type :=
| DirectGet_OK (msg : natsMsg)
| DirectGet_NOT_FOUND
| DirectGet_ERR (s : natsStatus).

Record Broker : Type := {
  natsOptions_Create : natsStatus;
  natsOptions_SetTimeout : Z -> natsStatus;
  natsOptions_SetURL : string -> natsStatus;
  natsConnection_Connect : string -> natsStatus;
  natsConnection_JetStream : natsStatus;
  js_GetStreamInfo : string -> jsStreamInfo + natsStatus;
  js_DirectGetMsg : string -> Z -> DirectGet
}.

(** ** Exceptions and outcomes *)

(** One constructor per [throw std::runtime_error] of the source, with
    the data its message is built from.  [NullPointer] is no C++
    exception: it marks the places where the source would dereference
    a null pointer ([stream_info], [proto_descriptor]); a query that
    starts from the initial state is shown below never to reach them. *)
Inductive Exception : Type :=
| MissingStreamName
| MixedSequenceAndTime
| BothJsonAndProto
| ProtoFileRequired
| ProtoMessageRequired
| ImportFailed (proto_file : string) (errors : list string)
| MessageTypeNotFound (proto_message proto_file : string)
| FieldNotFound (part message_name field_path : string)
| NotAMessageType (part next field_path : string)
| OptionsCreateFailed (s : natsStatus)
| SetTimeoutFailed (s : natsStatus)
| SetURLFailed (s : natsStatus)
| ConnectFailed (s : natsStatus)
| JetStreamFailed (s : natsStatus)
| StreamInfoFailed (s : natsStatus)
| FetchFailed (seq : Z) (s : natsStatus)
| ResolveFetchFailed (seq : Z) (s : natsStatus)
| NullPointer.

Inductive outcome (A : Type) : Type :=
| Returns (a : A)
| Throws (e : Exception)
| OutOfFuel.

Arguments Returns {A} a.
Arguments Throws {A} e.
Arguments OutOfFuel {A}.

(** Sequencing: the first exception (or the exhausted fuel) ends the
    computation.  The instances give stdpp's [x ← m; k] notation. *)
#[global]
Instance outcome_bind : MBind outcome := fun A B k m =>
  match m with
  | Returns a => k a
  | Throws e => Throws e
  | OutOfFuel => OutOfFuel
  end.

#[global]
Instance outcome_ret : MRet outcome := fun A a => Returns a.

(** [if (s != NATS_OK) throw ...]. *)
Definition expect_ok (s : natsStatus) (e : natsStatus -> Exception) : outcome unit :=
  match s with
  | NATS_OK => Returns tt
  | _ => Throws (e s)
  end.

(** ** ResolveTimestampToSequence (nats_scan.cpp, lines 547-594) *)

(** The [while (left <= right)] loop; [result_seq] starts at
    [UINT64_MAX]. *)
Fixpoint ResolveTimestampToSequence_loop (fuel : nat) (br : Broker)
    (stream_name : string) (timestamp_ns left right result_seq : Z) : outcome Z :=
  if left <=? right then
    match fuel with
    | O => OutOfFuel
    | S fuel' =>
        let mid := wrap_u64 (left + wrap_u64 (right - left) / 2) in
        match js_DirectGetMsg br stream_name mid with
        | DirectGet_NOT_FOUND =>
            ResolveTimestampToSequence_loop fuel' br stream_name timestamp_ns
              (wrap_u64 (mid + 1)) right result_seq
        | DirectGet_ERR s => Throws (ResolveFetchFailed mid s)
        | DirectGet_OK msg =>
            let msg_time_ns := natsMsg_GetTime msg in
            if msg_time_ns >=? timestamp_ns then
              ResolveTimestampToSequence_loop fuel' br stream_name timestamp_ns
                left (wrap_u64 (mid - 1)) mid
            else
              ResolveTimestampToSequence_loop fuel' br stream_name timestamp_ns
                (wrap_u64 (mid + 1)) right result_seq
        end
    end
  else Returns result_seq.

Definition ResolveTimestampToSequence (fuel : nat) (br : Broker)
    (stream_name : string) (timestamp_ns first_seq last_seq : Z) : outcome Z :=
  ResolveTimestampToSequence_loop fuel br stream_name timestamp_ns
    first_seq last_seq UINT64_MAX.

(** ** Engine values and types (duckdb) *)

(** IEEE-754 values are carried by their bit patterns: the scan never
    computes with them, it only moves them from a reader to a [Value]
    or to [std::to_string]. *)
Definition float_bits : Type := Z.
Definition double_bits : Type := Z.

Inductive LogicalTypeId : Type :=
| VARCHAR | BLOB | INTEGER | BIGINT | UINTEGER | UBIGINT
| FLOAT | DOUBLE | BOOLEAN | TIMESTAMP.

(** [Value]: [Value_NULL] is [Value()], [Value_VARCHAR s] is
    [Value(s)], the others are the named constructors [Value::BLOB],
    [Value::INTEGER], ...  A named parameter of list type arrives as
    [Value_LIST]. *)
Inductive Value : Type :=
| Value_NULL
| Value_VARCHAR (s : string)
| Value_BLOB (bytes : string)
| Value_INTEGER (i : Z)
| Value_BIGINT (i : Z)
| Value_UINTEGER (u : Z)
| Value_UBIGINT (u : Z)
| Value_FLOAT (f : float_bits)
| Value_DOUBLE (d : double_bits)
| Value_BOOLEAN (b : bool)
| Value_TIMESTAMP (micros : Z)
| Value_LIST (children : list Value).

(** The typed readers of a [Value].  The engine casts every argument
    to the type [Register] declares for it before bind is called, so
    the last case of each reader is not reached from a query. *)
Definition StringValue_Get (v : Value) : string :=
  match v with Value_VARCHAR s => s | _ => "" end.

Definition UBigIntValue_Get (v : Value) : Z :=
  match v with Value_UBIGINT u => u | _ => 0 end.

Definition TimestampValue_Get (v : Value) : Z :=
  match v with Value_TIMESTAMP t => t | _ => 0 end.

Definition ListValue_GetChildren (v : Value) : list Value :=
  match v with Value_LIST l => l | _ => [] end.

(** [DataChunk]: the cells written so far and the cardinality. *)
Record DataChunk : Type := {
  cells : gmap (nat * nat) Value;
  cardinality : nat
}.

Definition SetValue (col row : nat) (v : Value) (output : DataChunk) : DataChunk :=
  {| cells := <[(col, row) := v]> (cells output);
     cardinality := cardinality output |}.

Definition SetCardinality (count : nat) (output : DataChunk) : DataChunk :=
  {| cells := cells output; cardinality := count |}.

Definition GetValue (col row : nat) (output : DataChunk) : option Value :=
  cells output !! (col, row).

(** The engine's batch capacity. *)
Class Engine : Type := {
  STANDARD_VECTOR_SIZE : nat
}.

(** ** The protobuf library (descriptor.h, importer.h, message.h) *)

(** [FieldDescriptor::Type]. *)
Inductive FieldType : Type :=
| TYPE_DOUBLE | TYPE_FLOAT | TYPE_INT64 | TYPE_UINT64 | TYPE_INT32
| TYPE_FIXED64 | TYPE_FIXED32 | TYPE_BOOL | TYPE_STRING | TYPE_GROUP
| TYPE_MESSAGE | TYPE_BYTES | TYPE_UINT32 | TYPE_ENUM | TYPE_SFIXED32
| TYPE_SFIXED64 | TYPE_SINT32 | TYPE_SINT64.

#[global]
Instance FieldType_eq_dec : EqDecision FieldType.
Proof. solve_decision. Defined.

(** Descriptors (which may refer to each other in cycles) and messages
    are the library's own objects; the scan reaches them through the
    operations below.  [Import dir file] is an [Importer] over a
    [DiskSourceTree] that maps the empty virtual path to [dir]: it
    answers a file descriptor, or the errors the collector recorded.
    [message_type] is consulted on [TYPE_MESSAGE] fields only.
    [ParseFromArray d bytes] is [prototype->New()] for the message type
    [d] followed by [ParseFromArray]. *)
Class ProtobufLib : Type := {
  Descriptor : Type;
  FieldDescriptor : Type;
  FileDescriptor : Type;
  Message : Type;
  Descriptor_name : Descriptor -> string;
  FindFieldByName : Descriptor -> string -> option FieldDescriptor;
  FieldDescriptor_type : FieldDescriptor -> FieldType;
  message_type : FieldDescriptor -> Descriptor;
  Import : string -> string -> FileDescriptor + list string;
  FindMessageTypeByName : FileDescriptor -> string -> option Descriptor;
  ParseFromArray : Descriptor -> string -> option Message;
  HasField : Message -> FieldDescriptor -> bool;
  GetMessage : Message -> FieldDescriptor -> Message;
  GetString : Message -> FieldDescriptor -> string;
  GetInt32 : Message -> FieldDescriptor -> Z;
  GetInt64 : Message -> FieldDescriptor -> Z;
  GetUInt32 : Message -> FieldDescriptor -> Z;
  GetUInt64 : Message -> FieldDescriptor -> Z;
  GetFloat : Message -> FieldDescriptor -> float_bits;
  GetDouble : Message -> FieldDescriptor -> double_bits;
  GetBool : Message -> FieldDescriptor -> bool;
  GetEnum_name : Message -> FieldDescriptor -> string
}.

(** ** The JSON parser (yyjson) and the C++ standard library *)

(** A parsed value.  [yy_num] holds the number as [yyjson_get_num]
    reads it (a double); an object keeps its members in document
    order, duplicates included. *)
Inductive yyjson_val : Type :=
| yy_null
| yy_bool (b : bool)
| yy_num (d : double_bits)
| yy_str (s : string)
| yy_arr (elems : list yyjson_val)
| yy_obj (members : list (string * yyjson_val)).

(** [yyjson_read data len 0] followed by [yyjson_doc_get_root], and
    [yyjson_val_write val 0 nullptr]. *)
Class JsonLib : Type := {
  yyjson_read : string -> option yyjson_val;
  yyjson_val_write : yyjson_val -> option string
}.

(** [std::to_string(double)] and the two [std::filesystem::path]
    accessors bind uses. *)
Class StdLib : Type := {
  to_string_double : double_bits -> string;
  parent_path : string -> string;
  filename : string -> string
}.

(** [yyjson_obj_get]: the first member with that key; null when the
    value is not an object. *)
Fixpoint members_get (members : list (string * yyjson_val)) (key : string)
    : option yyjson_val :=
  match members with
  | [] => None
  | (k, v) :: rest => if String.eqb k key then Some v else members_get rest key
  end.

Definition yyjson_obj_get (root : yyjson_val) (key : string) : option yyjson_val :=
  match root with
  | yy_obj members => members_get members key
  | _ => None
  end.

(** ** Dotted field paths *)

(** The [find('.')] / [substr] loop that fills [path_parts] (lines
    96-105, and again 333-342 and 457-466).  [end_] is [None] for
    [string::npos].  Every turn of the loop passes one dot, so the
    length of the path bounds the number of turns. *)
Fixpoint path_parts_loop (turns : nat) (field_path : string) (start : nat)
    (end_ : option nat) (path_parts : list string) : list string :=
  match end_, turns with
  | Some e, S turns' =>
      path_parts_loop turns' field_path (e + 1)
        (index (e + 1) "." field_path)
        (path_parts ++ [substring start (e - start) field_path])
  | _, _ =>
      path_parts ++ [substring start (String.length field_path - start) field_path]
  end.

Definition split_field_path (field_path : string) : list string :=
  path_parts_loop (String.length field_path) field_path 0
    (index 0 "." field_path) [].

(** [std::replace(column_name.begin(), column_name.end(), '.', '_')]. *)
Fixpoint replace_dots (column_name : string) : string :=
  match column_name with
  | EmptyString => EmptyString
  | String c rest =>
      String (if Ascii.eqb c "."%char then "_"%char else c) (replace_dots rest)
  end.

(** ** ProtobufTypeToDuckDBType (lines 130-166) *)

Definition type_to_LogicalTypeId (t : FieldType) : LogicalTypeId :=
  match t with
  | TYPE_STRING => VARCHAR
  | TYPE_BYTES => BLOB
  | TYPE_INT32 | TYPE_SINT32 | TYPE_SFIXED32 => INTEGER
  | TYPE_INT64 | TYPE_SINT64 | TYPE_SFIXED64 => BIGINT
  | TYPE_UINT32 | TYPE_FIXED32 => UINTEGER
  | TYPE_UINT64 | TYPE_FIXED64 => UBIGINT
  | TYPE_FLOAT => FLOAT
  | TYPE_DOUBLE => DOUBLE
  | TYPE_BOOL => BOOLEAN
  | TYPE_ENUM => VARCHAR
  | TYPE_MESSAGE => VARCHAR
  | _ => VARCHAR
  end.


(** [r] is the smallest sequence of [[first, last]] that holds a
    message with a timestamp at or after [target]. *)
Definition first_at_or_after (br : Broker) (stream : string)
    (target first last r : Z) : Prop :=
  first <= r <= last
  /\ (exists msg, js_DirectGetMsg br stream r = DirectGet_OK msg
                  /\ target <= natsMsg_GetTime msg)
  /\ forall s msg, first <= s < r ->
       js_DirectGetMsg br stream s = DirectGet_OK msg ->
       natsMsg_GetTime msg < target.

(** No message of [[first, last]] has a timestamp at or after
    [target]. *)
Definition none_at_or_after (br : Broker) (stream : string)
    (target first last : Z) : Prop :=
  forall s msg, first <= s <= last ->
    js_DirectGetMsg br stream s = DirectGet_OK msg ->
    natsMsg_GetTime msg < target.

(** Every sequence of [[first, last]] holds a message. *)
Definition dense (br : Broker) (stream : string) (first last : Z) : Prop :=
  forall s, first <= s <= last ->
    exists msg, js_DirectGetMsg br stream s = DirectGet_OK msg.

(** Timestamps do not decrease along the present sequences. *)
Definition monotone_times (br : Broker) (stream : string) (first last : Z) : Prop :=
  forall s s' msg msg', first <= s <= s' -> s' <= last ->
    js_DirectGetMsg br stream s = DirectGet_OK msg ->
    js_DirectGetMsg br stream s' = DirectGet_OK msg' ->
    natsMsg_GetTime msg <= natsMsg_GetTime msg'.

(** [needle] occurs in [hay] as a contiguous substring. *)
Definition contains (needle hay : string) : Prop :=
  exists n, substring n (String.length needle) hay = needle.


(** ** Notions for dotted paths *)

(** The components of a dotted path, read off the string: a new
    component starts after every dot. *)
Fixpoint components (field_path : string) : list string :=
  match field_path with
  | EmptyString => [EmptyString]
  | String c rest =>
      if Ascii.eqb c "."%char then EmptyString :: components rest
      else
        match components rest with
        | part :: parts => String c part :: parts
        | [] => [String c EmptyString]
        end
  end.

(** No character of the string is a dot. *)
Fixpoint dot_free (s : string) : bool :=
  match s with
  | EmptyString => true
  | String c rest => negb (Ascii.eqb c "."%char) && dot_free rest
  end.

(** The value is null or of the engine type [t]. *)
Definition conforms (v : Value) (t : LogicalTypeId) : bool :=
  match v, t with
  | Value_NULL, _ => true
  | Value_VARCHAR _, VARCHAR => true
  | Value_BLOB _, BLOB => true
  | Value_INTEGER _, INTEGER => true
  | Value_BIGINT _, BIGINT => true
  | Value_UINTEGER _, UINTEGER => true
  | Value_UBIGINT _, UBIGINT => true
  | Value_FLOAT _, FLOAT => true
  | Value_DOUBLE _, DOUBLE => true
  | Value_BOOLEAN _, BOOLEAN => true
  | Value_TIMESTAMP _, TIMESTAMP => true
  | _, _ => false
  end.


Section Scan.

Context {PL : ProtobufLib} {JL : JsonLib} {SL : StdLib} {EN : Engine}.

Definition ProtobufTypeToDuckDBType (field : FieldDescriptor) : LogicalTypeId :=
  type_to_LogicalTypeId (FieldDescriptor_type field).

(** ** GetFieldDescriptorForPath (lines 94-127) *)

(** The [for] loop over [path_parts]: [rest = []] is the test
    [i < path_parts.size() - 1] failing.  [field] is the local of that
    name, returned when the loop ends. *)
Fixpoint GetFieldDescriptorForPath_loop (current_desc : Descriptor)
    (path_parts : list string) (field : option FieldDescriptor)
    : option FieldDescriptor :=
  match path_parts with
  | [] => field
  | part :: rest =>
      match FindFieldByName current_desc part with
      | None => None
      | Some f =>
          match rest with
          | [] => Some f
          | _ :: _ =>
              if decide (FieldDescriptor_type f = TYPE_MESSAGE)
              then GetFieldDescriptorForPath_loop (message_type f) rest (Some f)
              else None
          end
      end
  end.

Definition GetFieldDescriptorForPath (message_desc : Descriptor)
    (field_path : string) : option FieldDescriptor :=
  GetFieldDescriptorForPath_loop message_desc (split_field_path field_path) None.

(** ** NatsScanBindData (lines 57-91) *)

(** The shared pointers to the source tree, the error collector and
    the importer keep [proto_descriptor] alive and carry no data of
    their own; [proto_descriptor = None] is the null pointer. *)
Record NatsScanBindData : Type := {
  stream_name : string;
  subject_filter : string;
  nats_url : string;
  start_seq : Z;
  end_seq : Z;
  start_time : Z;
  end_time : Z;
  json_fields : list string;
  proto_file : string;
  proto_message : string;
  proto_fields : list string;
  proto_descriptor : option Descriptor
}.

(** ** NatsScanBind (lines 207-422) *)

Record TableFunctionBindInput : Type := {
  inputs : list Value;
  named_parameters : list (string * Value)
}.

(** The locals of [NatsScanBind] that the named parameters set, with
    their defaults (lines 217-226). *)
Record BindLocals : Type := {
  l_subject_filter : string;
  l_nats_url : string;
  l_start_seq : Z;
  l_end_seq : Z;
  l_start_time : Z;
  l_end_time : Z;
  l_json_fields : list string;
  l_proto_file : string;
  l_proto_message : string;
  l_proto_fields : list string
}.

Definition default_locals : BindLocals :=
  {| l_subject_filter := "";
     l_nats_url := "nats://localhost:4222";
     l_start_seq := 0;
     l_end_seq := UINT64_MAX;
     l_start_time := 0;
     l_end_time := 0;
     l_json_fields := [];
     l_proto_file := "";
     l_proto_message := "";
     l_proto_fields := [] |}.

(** One turn of [for (auto &kv : input.named_parameters)] (lines
    229-265). *)
Definition bind_named_parameter (l : BindLocals) (kv : string * Value) : BindLocals :=
  let '(name, v) := kv in
  let 'Build_BindLocals subject url sseq eseq stime etime jf pf pm pfs := l in
  if String.eqb name "subject" then
    Build_BindLocals (StringValue_Get v) url sseq eseq stime etime jf pf pm pfs
  else if String.eqb name "url" then
    Build_BindLocals subject (StringValue_Get v) sseq eseq stime etime jf pf pm pfs
  else if String.eqb name "start_seq" then
    Build_BindLocals subject url (UBigIntValue_Get v) eseq stime etime jf pf pm pfs
  else if String.eqb name "end_seq" then
    Build_BindLocals subject url sseq (UBigIntValue_Get v) stime etime jf pf pm pfs
  else if String.eqb name "start_time" then
    Build_BindLocals subject url sseq eseq
      (wrap_i64 (TimestampValue_Get v * 1000)) etime jf pf pm pfs
  else if String.eqb name "end_time" then
    Build_BindLocals subject url sseq eseq stime
      (wrap_i64 (TimestampValue_Get v * 1000)) jf pf pm pfs
  else if String.eqb name "json_extract" then
    Build_BindLocals subject url sseq eseq stime etime
      (jf ++ map StringValue_Get (ListValue_GetChildren v)) pf pm pfs
  else if String.eqb name "proto_file" then
    Build_BindLocals subject url sseq eseq stime etime jf (StringValue_Get v) pm pfs
  else if String.eqb name "proto_message" then
    Build_BindLocals subject url sseq eseq stime etime jf pf (StringValue_Get v) pfs
  else if String.eqb name "proto_extract" then
    Build_BindLocals subject url sseq eseq stime etime jf pf pm
      (pfs ++ map StringValue_Get (ListValue_GetChildren v))
  else l.

Definition bind_named_parameters (params : list (string * Value)) : BindLocals :=
  fold_left bind_named_parameter params default_locals.

(** [vector::empty()]. *)
Definition vector_empty {A : Type} (v : list A) : bool :=
  match v with [] => true | _ :: _ => false end.

(** [vector::emplace_back]. *)
Definition emplace_back {A : Type} (v : list A) (x : A) : list A := v ++ [x].

(** [Value::GetValue<string>()] of the positional argument: the text
    of a varchar, and the text NULL for the null value. *)
Definition GetValue_string (v : Value) : string :=
  match v with
  | Value_VARCHAR s => s
  | Value_NULL => "NULL"
  | _ => ""
  end.

(** Validation of one path against the schema (lines 344-361): the
    same walk as [GetFieldDescriptorForPath_loop], throwing where that
    one returns null. *)
Fixpoint validate_path_loop (current_desc : Descriptor) (path_parts : list string)
    (field_path : string) : outcome unit :=
  match path_parts with
  | [] => Returns tt
  | part :: rest =>
      match FindFieldByName current_desc part with
      | None =>
          Throws (FieldNotFound part (Descriptor_name current_desc) field_path)
      | Some field =>
          match rest with
          | [] => Returns tt
          | next :: _ =>
              if decide (FieldDescriptor_type field = TYPE_MESSAGE)
              then validate_path_loop (message_type field) rest field_path
              else Throws (NotAMessageType part next field_path)
          end
      end
  end.

(** [for (const auto &field_path : proto_fields)] (lines 331-362). *)
Fixpoint validate_proto_fields (descriptor : Descriptor) (fields : list string)
    : outcome unit :=
  match fields with
  | [] => Returns tt
  | field_path :: rest =>
      _ ← validate_path_loop descriptor (split_field_path field_path) field_path;
      validate_proto_fields descriptor rest
  end.

(** Lines 287-363: the schema is parsed only when [proto_fields] is
    not empty; otherwise [descriptor] stays null. *)
Definition parse_proto_schema (l : BindLocals) : outcome (option Descriptor) :=
  if negb (vector_empty (l_proto_fields l)) then
    let proto_dir := parent_path (l_proto_file l) in
    let proto_filename := filename (l_proto_file l) in
    let proto_dir := if String.eqb proto_dir "" then "." else proto_dir in
    match Import proto_dir proto_filename with
    | inr errors => Throws (ImportFailed (l_proto_file l) errors)
    | inl file_desc =>
        match FindMessageTypeByName file_desc (l_proto_message l) with
        | None =>
            Throws (MessageTypeNotFound (l_proto_message l) (l_proto_file l))
        | Some descriptor =>
            _ ← validate_proto_fields descriptor (l_proto_fields l);
            Returns (Some descriptor)
        end
    end
  else Returns None.

(** The two output vectors of bind, [names] and [return_types]. *)
Record Schema : Type := {
  names : list string;
  return_types : list LogicalTypeId
}.

Definition add_column (s : Schema) (name : string) (type : LogicalTypeId) : Schema :=
  {| names := emplace_back (names s) name;
     return_types := emplace_back (return_types s) type |}.

(** One turn of the loop over [json_fields] (lines 387-390). *)
Definition add_json_column (s : Schema) (field : string) : Schema :=
  add_column s field VARCHAR.

(** One turn of the loop over [proto_fields] (lines 395-408).  The
    loop runs only when [proto_fields] is not empty, and then
    [descriptor] is not null. *)
Definition add_proto_column (descriptor : option Descriptor) (s : Schema)
    (field_path : string) : Schema :=
  let column_name := replace_dots field_path in
  let field_desc :=
    match descriptor with
    | Some d => GetFieldDescriptorForPath d field_path
    | None => None
    end in
  match field_desc with
  | Some fd => add_column s column_name (ProtobufTypeToDuckDBType fd)
  | None => add_column s column_name VARCHAR
  end.

(** Lines 365-408, on the vectors the engine hands to bind. *)
Definition define_return_schema (l : BindLocals) (descriptor : option Descriptor)
    (s : Schema) : Schema :=
  let s := add_column s "stream" VARCHAR in
  let s := add_column s "subject" VARCHAR in
  let s := add_column s "seq" UBIGINT in
  let s := add_column s "ts_nats" TIMESTAMP in
  let s := add_column s "payload"
             (if negb (vector_empty (l_proto_fields l)) then BLOB else VARCHAR) in
  let s := fold_left add_json_column (l_json_fields l) s in
  fold_left (add_proto_column descriptor) (l_proto_fields l) s.

Record BindResult : Type := {
  bind_data : NatsScanBindData;
  schema : Schema
}.

(** Lines 277-285. *)
Definition validate_protobuf_parameters (l : BindLocals) : outcome unit :=
  if negb (vector_empty (l_proto_fields l)) then
    if String.eqb (l_proto_file l) "" then Throws ProtoFileRequired
    else if String.eqb (l_proto_message l) "" then Throws ProtoMessageRequired
    else Returns tt
  else Returns tt.

(** The engine calls bind with empty [return_types] and [names]. *)
Definition NatsScanBind (input : TableFunctionBindInput) : outcome BindResult :=
  match inputs input with
  | [] => Throws MissingStreamName
  | arg0 :: _ =>
      let stream := GetValue_string arg0 in
      let l := bind_named_parameters (named_parameters input) in
      if ((0 <? l_start_seq l) || negb (l_end_seq l =? UINT64_MAX))
         && ((0 <? l_start_time l) || (0 <? l_end_time l))
      then Throws MixedSequenceAndTime
      else if negb (vector_empty (l_json_fields l)) && negb (vector_empty (l_proto_fields l))
      then Throws BothJsonAndProto
      else
        _ ← validate_protobuf_parameters l;
        descriptor ← parse_proto_schema l;
        let s := define_return_schema l descriptor
                   {| names := []; return_types := [] |} in
        Returns {|
          bind_data := {|
            stream_name := stream;
            subject_filter := l_subject_filter l;
            nats_url := l_nats_url l;
            start_seq := l_start_seq l;
            end_seq := l_end_seq l;
            start_time := l_start_time l;
            end_time := l_end_time l;
            json_fields := l_json_fields l;
            proto_file := l_proto_file l;
            proto_message := l_proto_message l;
            proto_fields := l_proto_fields l;
            proto_descriptor :=
              if negb (vector_empty (l_proto_fields l)) then descriptor else None |};
          schema := s |}
  end.

(** ** NatsScanGlobalState and NatsScanInitGlobal (lines 169-200, 425-445) *)

(** [conn] and [js] say whether the pointer is set; [stream_info] is
    the snapshot behind the pointer.  [effective_end_seq] is the member
    [end_seq] of the source (the bind data has a member of that name
    too).  [proto_prototype] is the prototype of the factory, given by
    the message type it was made for. *)
Record NatsScanGlobalState : Type := {
  conn : bool;
  js : bool;
  stream_info : option jsStreamInfo;
  current_seq : Z;
  effective_end_seq : Z;
  done : bool;
  timestamps_resolved : bool;
  proto_prototype : option Descriptor
}.

Definition NatsScanInitGlobal (bind : NatsScanBindData) : NatsScanGlobalState :=
  {| conn := false;
     js := false;
     stream_info := None;
     current_seq := if 0 <? start_seq bind then start_seq bind else 1;
     effective_end_seq := end_seq bind;
     done := false;
     timestamps_resolved := false;
     proto_prototype :=
       if negb (vector_empty (proto_fields bind)) then proto_descriptor bind
       else None |}.

(** ** ExtractProtobufValue (lines 455-543) *)

(** The value of the last path component (lines 495-538). *)
Definition extract_leaf (current_message : Message) (field : FieldDescriptor) : Value :=
  if negb (HasField current_message field)
     && bool_decide (FieldDescriptor_type field = TYPE_MESSAGE)
  then Value_NULL
  else
    match FieldDescriptor_type field with
    | TYPE_STRING => Value_VARCHAR (GetString current_message field)
    | TYPE_BYTES => Value_BLOB (GetString current_message field)
    | TYPE_INT32 | TYPE_SINT32 | TYPE_SFIXED32 =>
        Value_INTEGER (GetInt32 current_message field)
    | TYPE_INT64 | TYPE_SINT64 | TYPE_SFIXED64 =>
        Value_BIGINT (GetInt64 current_message field)
    | TYPE_UINT32 | TYPE_FIXED32 =>
        Value_UINTEGER (GetUInt32 current_message field)
    | TYPE_UINT64 | TYPE_FIXED64 =>
        Value_UBIGINT (GetUInt64 current_message field)
    | TYPE_FLOAT => Value_FLOAT (GetFloat current_message field)
    | TYPE_DOUBLE => Value_DOUBLE (GetDouble current_message field)
    | TYPE_BOOL => Value_BOOLEAN (GetBool current_message field)
    | TYPE_ENUM => Value_VARCHAR (GetEnum_name current_message field)
    | TYPE_MESSAGE => Value_NULL
    | _ => Value_NULL
    end.

Fixpoint ExtractProtobufValue_loop (current_message : Message)
    (current_desc : Descriptor) (path_parts : list string) : Value :=
  match path_parts with
  | [] => Value_NULL
  | part :: rest =>
      match FindFieldByName current_desc part with
      | None => Value_NULL
      | Some field =>
          match rest with
          | _ :: _ =>
              if decide (FieldDescriptor_type field = TYPE_MESSAGE) then
                if HasField current_message field then
                  ExtractProtobufValue_loop (GetMessage current_message field)
                    (message_type field) rest
                else Value_NULL
              else Value_NULL
          | [] => extract_leaf current_message field
          end
      end
  end.

Definition ExtractProtobufValue (message : Message) (field_path : string)
    (root_descriptor : Descriptor) : Value :=
  ExtractProtobufValue_loop message root_descriptor (split_field_path field_path).

(** ** NatsScanExecute (lines 597-875) *)

Definition set_done (st : NatsScanGlobalState) : NatsScanGlobalState :=
  {| conn := conn st; js := js st; stream_info := stream_info st;
     current_seq := current_seq st; effective_end_seq := effective_end_seq st;
     done := true; timestamps_resolved := timestamps_resolved st;
     proto_prototype := proto_prototype st |}.

Definition set_timestamps_resolved (st : NatsScanGlobalState) : NatsScanGlobalState :=
  {| conn := conn st; js := js st; stream_info := stream_info st;
     current_seq := current_seq st; effective_end_seq := effective_end_seq st;
     done := done st; timestamps_resolved := true;
     proto_prototype := proto_prototype st |}.

Definition set_current_seq (seq : Z) (st : NatsScanGlobalState) : NatsScanGlobalState :=
  {| conn := conn st; js := js st; stream_info := stream_info st;
     current_seq := seq; effective_end_seq := effective_end_seq st;
     done := done st; timestamps_resolved := timestamps_resolved st;
     proto_prototype := proto_prototype st |}.

Definition set_end_seq (seq : Z) (st : NatsScanGlobalState) : NatsScanGlobalState :=
  {| conn := conn st; js := js st; stream_info := stream_info st;
     current_seq := current_seq st; effective_end_seq := seq;
     done := done st; timestamps_resolved := timestamps_resolved st;
     proto_prototype := proto_prototype st |}.

(** Lines 608-635: the connection is made on the first call. *)
Definition create_connection (br : Broker) (bind : NatsScanBindData)
    (st : NatsScanGlobalState) : outcome NatsScanGlobalState :=
  if conn st then Returns st
  else
    _ ← expect_ok (natsOptions_Create br) OptionsCreateFailed;
    _ ← expect_ok (natsOptions_SetTimeout br 5000) SetTimeoutFailed;
    _ ← expect_ok (natsOptions_SetURL br (nats_url bind)) SetURLFailed;
    _ ← expect_ok (natsConnection_Connect br (nats_url bind)) ConnectFailed;
    Returns
      {| conn := true; js := js st; stream_info := stream_info st;
         current_seq := current_seq st; effective_end_seq := effective_end_seq st;
         done := done st; timestamps_resolved := timestamps_resolved st;
         proto_prototype := proto_prototype st |}.

(** Lines 637-658: the JetStream context, the stream info and the
    replacement of an unspecified [end_seq] by [LastSeq]. *)
Definition create_jetstream (br : Broker) (bind : NatsScanBindData)
    (st : NatsScanGlobalState) : outcome NatsScanGlobalState :=
  if js st then Returns st
  else
    _ ← expect_ok (natsConnection_JetStream br) JetStreamFailed;
    info ← match stream_info st with
           | Some info => Returns info
           | None =>
               match js_GetStreamInfo br (stream_name bind) with
               | inl info => Returns info
               | inr s => Throws (StreamInfoFailed s)
               end
           end;
    Returns
      {| conn := conn st; js := true; stream_info := Some info;
         current_seq := current_seq st;
         effective_end_seq :=
           if effective_end_seq st =? UINT64_MAX then LastSeq info
           else effective_end_seq st;
         done := done st; timestamps_resolved := timestamps_resolved st;
         proto_prototype := proto_prototype st |}.

(** How the part of [NatsScanExecute] before the fetch loop ends:
    [Finished] is the early [return] with an empty chunk. *)
Variant Prepared : Type :=
| Ready (st : NatsScanGlobalState)
| Finished (st : NatsScanGlobalState).

(** Lines 660-700: both time bounds are resolved over
    [[FirstSeq, LastSeq]], once. *)
Definition resolve_timestamps (fuel : nat) (br : Broker) (bind : NatsScanBindData)
    (st : NatsScanGlobalState) : outcome Prepared :=
  if negb (timestamps_resolved st)
     && ((0 <? start_time bind) || (0 <? end_time bind))
  then
    match stream_info st with
    | None => Throws NullPointer
    | Some info =>
        r ← (if 0 <? start_time bind then
               resolved_seq ← ResolveTimestampToSequence fuel br (stream_name bind)
                                (start_time bind) (FirstSeq info) (LastSeq info);
               if resolved_seq =? UINT64_MAX
               then Returns (Finished (set_timestamps_resolved (set_done st)))
               else Returns (Ready (set_current_seq resolved_seq st))
             else Returns (Ready st));
        match r with
        | Finished st => Returns (Finished st)
        | Ready st =>
            st ← (if 0 <? end_time bind then
                    resolved_seq ← ResolveTimestampToSequence fuel br (stream_name bind)
                                     (end_time bind) (FirstSeq info) (LastSeq info);
                    if negb (resolved_seq =? UINT64_MAX)
                    then Returns (set_end_seq resolved_seq st)
                    else Returns st
                  else Returns st);
            Returns (Ready (set_timestamps_resolved st))
        end
    end
  else Returns (Ready st).

(** Lines 602-706 after the [done] test: everything before the fetch
    loop. *)
Definition prepare_scan (fuel : nat) (br : Broker) (bind : NatsScanBindData)
    (st : NatsScanGlobalState) : outcome Prepared :=
  st ← create_connection br bind st;
  st ← create_jetstream br bind st;
  r ← resolve_timestamps fuel br bind st;
  match r with
  | Finished st => Returns (Finished st)
  | Ready st =>
      if effective_end_seq st <? current_seq st
      then Returns (Finished (set_done st))
      else Returns (Ready st)
  end.


(** The column loops of lines 783-818, 823-826, 840-849 and 852-855:
    [for (i = 0; i < fields.size(); i++)], writing column [5 + i] of
    row [count] with the value found for [fields[i]]. *)
Fixpoint set_extraction_columns (value_of : string -> Value) (fields : list string)
    (i : nat) (count : nat) (output : DataChunk) : DataChunk :=
  match fields with
  | [] => output
  | field :: rest =>
      set_extraction_columns value_of rest (S i) count
        (SetValue (5 + i) count (value_of field) output)
  end.

(** Lines 785-817: the value of one requested JSON field. *)
Definition json_field_value (root : yyjson_val) (field_name : string) : Value :=
  match yyjson_obj_get root field_name with
  | Some field_val =>
      match field_val with
      | yy_str str_val => Value_VARCHAR str_val
      | yy_num num_val => Value_VARCHAR (to_string_double num_val)
      | yy_bool bool_val => Value_VARCHAR (if bool_val then "true" else "false")
      | yy_null => Value_NULL
      | _ =>
          match yyjson_val_write field_val with
          | Some json_str => Value_VARCHAR json_str
          | None => Value_NULL
          end
      end
  | None => Value_NULL
  end.

(** Lines 774-828. *)
Definition extract_json_fields (bind : NatsScanBindData) (data : string)
    (count : nat) (output : DataChunk) : DataChunk :=
  if negb (vector_empty (json_fields bind)) then
    match yyjson_read data with
    | Some root =>
        set_extraction_columns (json_field_value root) (json_fields bind) 0 count output
    | None =>
        set_extraction_columns (fun _ => Value_NULL) (json_fields bind) 0 count output
    end
  else output.

(** Lines 830-860.  [ExtractProtobufValue] is handed
    [bind_data.proto_descriptor]. *)
Definition extract_proto_fields (bind : NatsScanBindData) (st : NatsScanGlobalState)
    (data : string) (count : nat) (output : DataChunk) : outcome DataChunk :=
  if negb (vector_empty (proto_fields bind)) then
    match proto_prototype st with
    | None => Returns output
    | Some prototype =>
        match ParseFromArray prototype data with
        | Some proto_message =>
            match proto_descriptor bind with
            | None => Throws NullPointer
            | Some root =>
                Returns (set_extraction_columns
                           (fun field_path =>
                              ExtractProtobufValue proto_message field_path root)
                           (proto_fields bind) 0 count output)
            end
        | None =>
            Returns (set_extraction_columns (fun _ => Value_NULL)
                       (proto_fields bind) 0 count output)
        end
    end
  else Returns output.

(** Lines 747-772: the five fixed columns of row [count]. *)
Definition set_fixed_columns (bind : NatsScanBindData) (seq : Z) (msg : natsMsg)
    (count : nat) (output : DataChunk) : DataChunk :=
  let timestamp_us := Z.quot (natsMsg_GetTime msg) 1000 in
  let output := SetValue 0 count (Value_VARCHAR (stream_name bind)) output in
  let output := SetValue 1 count (Value_VARCHAR (natsMsg_GetSubject msg)) output in
  let output := SetValue 2 count (Value_UBIGINT seq) output in
  let output := SetValue 3 count (Value_TIMESTAMP timestamp_us) output in
  if negb (vector_empty (proto_fields bind))
  then SetValue 4 count (Value_BLOB (natsMsg_GetData msg)) output
  else SetValue 4 count (Value_VARCHAR (natsMsg_GetData msg)) output.

(** Lines 747-860: one fetched message that passed the subject filter
    becomes row [count]. *)
Definition emit_row (bind : NatsScanBindData) (st : NatsScanGlobalState)
    (msg : natsMsg) (count : nat) (output : DataChunk) : outcome DataChunk :=
  let output := set_fixed_columns bind (current_seq st) msg count output in
  let output := extract_json_fields bind (natsMsg_GetData msg) count output in
  extract_proto_fields bind st (natsMsg_GetData msg) count output.

(** Lines 740-741: a filter is set and is no substring of the
    subject. *)
Definition subject_rejected (bind : NatsScanBindData) (msg : natsMsg) : bool :=
  negb (String.eqb (subject_filter bind) "")
  && match index 0 (subject_filter bind) (natsMsg_GetSubject msg) with
     | None => true
     | Some _ => false
     end.

(** [global_state.current_seq++]. *)
Definition advance (st : NatsScanGlobalState) : NatsScanGlobalState :=
  set_current_seq (wrap_u64 (current_seq st + 1)) st.

(** Lines 712-867: the loop
    [while (count < max_rows && current_seq <= end_seq)]. *)
Fixpoint fetch_loop (fuel : nat) (br : Broker) (bind : NatsScanBindData)
    (st : NatsScanGlobalState) (count : nat) (output : DataChunk)
    : outcome (NatsScanGlobalState * nat * DataChunk) :=
  if (count <? STANDARD_VECTOR_SIZE)%nat
     && (current_seq st <=? effective_end_seq st)
  then
    match fuel with
    | O => OutOfFuel
    | S fuel' =>
        match js_DirectGetMsg br (stream_name bind) (current_seq st) with
        | DirectGet_NOT_FOUND => fetch_loop fuel' br bind (advance st) count output
        | DirectGet_ERR s => Throws (FetchFailed (current_seq st) s)
        | DirectGet_OK msg =>
            if subject_rejected bind msg
            then fetch_loop fuel' br bind (advance st) count output
            else
              output ← emit_row bind st msg count output;
              fetch_loop fuel' br bind (advance st) (S count) output
        end
    end
  else Returns (st, count, output).

(** Lines 708-874: the loop from [count = 0], the [done] mark when the
    cursor has passed the end, and the cardinality of the chunk. *)
Definition fill_chunk (fuel : nat) (br : Broker) (bind : NatsScanBindData)
    (st : NatsScanGlobalState) (output : DataChunk)
    : outcome (NatsScanGlobalState * DataChunk) :=
  '(st, count, output) ← fetch_loop fuel br bind st 0 output;
  let st := if effective_end_seq st <? current_seq st then set_done st else st in
  Returns (st, SetCardinality count output).

(** The whole callback: the new global state and the chunk handed
    back to the engine. *)
Definition NatsScanExecute (fuel : nat) (br : Broker) (bind : NatsScanBindData)
    (st : NatsScanGlobalState) (output : DataChunk)
    : outcome (NatsScanGlobalState * DataChunk) :=
  if done st then Returns (st, SetCardinality 0 output)
  else
    r ← prepare_scan fuel br bind st;
    match r with
    | Finished st => Returns (st, SetCardinality 0 output)
    | Ready st => fill_chunk fuel br bind st output
    end.


(** ** NatsScanLocalState and NatsScanInitLocal (lines 203-204, 448-452) *)

Record NatsScanLocalState : Type := Build_NatsScanLocalState {}.

Definition NatsScanInitLocal : NatsScanLocalState := Build_NatsScanLocalState.

(** ** ProtobufErrorCollector (lines 24-54) *)

(** The member [errors]; the importer calls [AddError] (or
    [RecordError], which builds the same text) once for every error it
    finds.  [pretty] on integers is [std::to_string]: the decimal
    digits, with a minus sign for a negative number. *)
Record ProtobufErrorCollector : Type := {
  errors : list string
}.

Definition newline : string := String (ascii_of_nat 10) EmptyString.

Definition AddError (filename : string) (line column : Z) (message : string)
    (c : ProtobufErrorCollector) : ProtobufErrorCollector :=
  {| errors :=
       emplace_back (errors c)
         (filename +:+ ":" +:+ pretty line +:+ ":" +:+ pretty column +:+ ": "
          +:+ message) |}.

Definition GetErrors (c : ProtobufErrorCollector) : string :=
  fold_left (fun result err => result +:+ (err +:+ newline)) (errors c) "".

Definition HasErrors (c : ProtobufErrorCollector) : bool :=
  negb (vector_empty (errors c)).

(** ** Register (lines 877-897) and the extension (nats_js_extension.cpp) *)

(** [LogicalType(id)] and [LogicalType::LIST(child)]. *)
Inductive LogicalType : Type :=
| LogicalType_of (id : LogicalTypeId)
| LogicalType_LIST (child : LogicalType).

(** A table function: its name, the types of its positional
    arguments, its four callbacks and the types of its named
    parameters. *)
Record TableFunction : Type := {
  tf_name : string;
  tf_arguments : list LogicalType;
  tf_function : nat -> Broker -> NatsScanBindData -> NatsScanGlobalState ->
                DataChunk -> outcome (NatsScanGlobalState * DataChunk);
  tf_bind : TableFunctionBindInput -> outcome BindResult;
  tf_init_global : NatsScanBindData -> NatsScanGlobalState;
  tf_init_local : NatsScanLocalState;
  tf_named_parameters : gmap string LogicalType
}.

(** [f.named_parameters[name] = type]. *)
Definition set_named_parameter (name : string) (type : LogicalType)
    (f : TableFunction) : TableFunction :=
  {| tf_name := tf_name f; tf_arguments := tf_arguments f;
     tf_function := tf_function f; tf_bind := tf_bind f;
     tf_init_global := tf_init_global f; tf_init_local := tf_init_local f;
     tf_named_parameters := <[name := type]> (tf_named_parameters f) |}.

(** The loader, by the functions registered with it so far. *)
Definition ExtensionLoader : Type := list TableFunction.

Definition RegisterFunction (loader : ExtensionLoader) (f : TableFunction)
    : ExtensionLoader :=
  (loader ++ [f])%list.

Definition Register (loader : ExtensionLoader) : ExtensionLoader :=
  let nats_scan :=
    {| tf_name := "nats_scan";
       tf_arguments := [LogicalType_of VARCHAR];
       tf_function := NatsScanExecute;
       tf_bind := NatsScanBind;
       tf_init_global := NatsScanInitGlobal;
       tf_init_local := NatsScanInitLocal;
       tf_named_parameters := ∅ |} in
  let nats_scan := set_named_parameter "subject" (LogicalType_of VARCHAR) nats_scan in
  let nats_scan := set_named_parameter "url" (LogicalType_of VARCHAR) nats_scan in
  let nats_scan := set_named_parameter "start_seq" (LogicalType_of UBIGINT) nats_scan in
  let nats_scan := set_named_parameter "end_seq" (LogicalType_of UBIGINT) nats_scan in
  let nats_scan :=
    set_named_parameter "start_time" (LogicalType_of TIMESTAMP) nats_scan in
  let nats_scan := set_named_parameter "end_time" (LogicalType_of TIMESTAMP) nats_scan in
  let nats_scan :=
    set_named_parameter "json_extract"
      (LogicalType_LIST (LogicalType_of VARCHAR)) nats_scan in
  let nats_scan := set_named_parameter "proto_file" (LogicalType_of VARCHAR) nats_scan in
  let nats_scan :=
    set_named_parameter "proto_message" (LogicalType_of VARCHAR) nats_scan in
  let nats_scan :=
    set_named_parameter "proto_extract"
      (LogicalType_LIST (LogicalType_of VARCHAR)) nats_scan in
  RegisterFunction loader nats_scan.

(** [NatsJsExtension::Load], [Name] and [Version], and the entry point
    [nats_js_duckdb_cpp_init]. *)
Definition NatsJsExtension_Load (loader : ExtensionLoader) : ExtensionLoader :=
  Register loader.

Definition NatsJsExtension_Name : string := "nats_js".

Definition NatsJsExtension_Version : string := "0.1.0".

Definition nats_js_duckdb_cpp_init (loader : ExtensionLoader) : ExtensionLoader :=
  NatsJsExtension_Load loader.


(** ** The engine's side of a query *)

(** The chunk the engine hands to each call: reset, no cell set. *)
Definition reset_chunk : DataChunk := {| cells := ∅; cardinality := 0 |}.

(** The engine pulls: [calls] successive calls of [NatsScanExecute] on
    the same global state, each on a reset chunk.  The answer is the
    list of chunks handed back, in order. *)
Fixpoint run_query (calls : nat) (fuel : nat) (br : Broker) (bind : NatsScanBindData)
    (st : NatsScanGlobalState) : outcome (list DataChunk * NatsScanGlobalState) :=
  match calls with
  | O => Returns ([], st)
  | S calls' =>
      '(st, chunk) ← NatsScanExecute fuel br bind st reset_chunk;
      '(chunks, st) ← run_query calls' fuel br bind st;
      Returns (chunk :: chunks, st)
  end.

(** The values of one column of a chunk, row by row. *)
Definition chunk_column (col : nat) (chunk : DataChunk) : list (option Value) :=
  map (fun row => GetValue col row chunk) (seq 0 (cardinality chunk)).

(** The [seq] values of all rows of a list of chunks, in emission
    order. *)
Definition emitted_seqs (chunks : list DataChunk) : list (option Value) :=
  concat (map (chunk_column 2) chunks).

(** ** Notions of the specification *)

(** A dotted path resolves to a leaf: every component exists, and
    every component but the last is a message-typed field, in whose
    message type the walk goes on. *)
Inductive resolves : Descriptor -> list string -> FieldDescriptor -> Prop :=
| resolves_leaf (d : Descriptor) (part : string) (f : FieldDescriptor) :
    FindFieldByName d part = Some f ->
    resolves d [part] f
| resolves_step (d : Descriptor) (part : string) (f : FieldDescriptor)
    (rest : list string) (leaf : FieldDescriptor) :
    FindFieldByName d part = Some f ->
    FieldDescriptor_type f = TYPE_MESSAGE ->
    rest <> [] ->
    resolves (message_type f) rest leaf ->
    resolves d (part :: rest) leaf.

(** A named parameter was supplied in the call. *)
Definition supplied (name : string) (input : TableFunctionBindInput) : Prop :=
  exists v, In (name, v) (named_parameters input).

(** The outcome is an exception. *)
Definition aborts {A : Type} (o : outcome A) : Prop := exists e, o = Throws e.


(** The number of extraction columns of a query. *)
Definition extraction_columns (bind : NatsScanBindData) : nat :=
  (length (json_fields bind) + length (proto_fields bind))%nat.


(** The payload cell of a row: a blob when protobuf fields are
    extracted, a varchar otherwise; the broker's bytes in both. *)
Definition payload_value (bind : NatsScanBindData) (msg : natsMsg) : Value :=
  if negb (vector_empty (proto_fields bind))
  then Value_BLOB (natsMsg_GetData msg)
  else Value_VARCHAR (natsMsg_GetData msg).

(** At most one of the two extractions is active. *)
Definition single_mode (bind : NatsScanBindData) : Prop :=
  json_fields bind = [] \/ proto_fields bind = [].


(** The field names given under the list parameter [name], in the
    order given. *)
Definition requested_fields (name : string) (input : TableFunctionBindInput)
    : list string :=
  flat_map (fun kv : string * Value =>
              if String.eqb (fst kv) name
              then map StringValue_Get (ListValue_GetChildren (snd kv))
              else [])
           (named_parameters input).

(** The values bind reads from the named parameters. *)
Definition bind_locals (input : TableFunctionBindInput) : BindLocals :=
  bind_named_parameters (named_parameters input).

(** The schema file of the call does not give a schema for the
    requested paths: the import fails, or the message type is not in
    the file, or a requested path does not resolve in it. *)
Definition schema_error (l : BindLocals) : Prop :=
  let proto_dir := parent_path (l_proto_file l) in
  let proto_dir := if String.eqb proto_dir "" then "." else proto_dir in
  match Import proto_dir (filename (l_proto_file l)) with
  | inr _ => True
  | inl file_desc =>
      match FindMessageTypeByName file_desc (l_proto_message l) with
      | None => True
      | Some descriptor =>
          Exists (fun field_path =>
                    ~ exists leaf, resolves descriptor (split_field_path field_path) leaf)
                 (l_proto_fields l)
      end
  end.


(** The failure conditions of bind, on the values it reads: no
    positional argument; a sequence window together with a time window;
    both extraction lists; protobuf paths without a schema file or a
    message type; protobuf paths with a schema error. *)
Definition bind_abort_condition (input : TableFunctionBindInput) : Prop :=
  let l := bind_locals input in
  inputs input = []
  \/ ((0 < l_start_seq l \/ l_end_seq l <> UINT64_MAX)
      /\ (0 < l_start_time l \/ 0 < l_end_time l))
  \/ (l_json_fields l <> [] /\ l_proto_fields l <> [])
  \/ (l_proto_fields l <> [] /\ (l_proto_file l = "" \/ l_proto_message l = ""))
  \/ (l_proto_fields l <> [] /\ schema_error l).

(** The three conditions of the specification, read on the call: a
    sequence window ([start_seq > 0], or [end_seq] given) together
    with a time window ([start_time] or [end_time] given); both
    extraction lists not empty; protobuf paths while [proto_file] or
    [proto_message] is missing. *)
Definition stated_abort_condition (input : TableFunctionBindInput) : Prop :=
  let l := bind_locals input in
  ((0 < l_start_seq l \/ supplied "end_seq" input)
   /\ (supplied "start_time" input \/ supplied "end_time" input))
  \/ (l_json_fields l <> [] /\ l_proto_fields l <> [])
  \/ (l_proto_fields l <> [] /\ (l_proto_file l = "" \/ l_proto_message l = "")).


(** The state a [Prepared] answer carries. *)
Definition prepared_state (r : Prepared) : NatsScanGlobalState :=
  match r with Ready st => st | Finished st => st end.

(** The state of a query whose connection, JetStream context and time
    bounds are settled: what every call after the first starts from. *)
Definition settled (bind : NatsScanBindData) (st : NatsScanGlobalState) : Prop :=
  conn st = true /\ js st = true
  /\ (timestamps_resolved st = true
      \/ (0 <? start_time bind) || (0 <? end_time bind) = false).

(** What a sequence number emitted by the loop satisfies: it lies
    between the cursor before and the cursor after, within the end of
    the window, and the broker served a message there that the subject
    filter let through. *)
Definition emitted_at (br : Broker) (bind : NatsScanBindData) (lo hi last : Z)
    (s : Z) : Prop :=
  lo <= s < hi /\ s <= last
  /\ exists msg, js_DirectGetMsg br (stream_name bind) s = DirectGet_OK msg
                 /\ subject_rejected bind msg = false.

(** The type bind gives the column of one protobuf path. *)
Definition proto_column_type (descriptor : option Descriptor) (field_path : string)
    : LogicalTypeId :=
  match descriptor with
  | Some d =>
      match GetFieldDescriptorForPath d field_path with
      | Some fd => ProtobufTypeToDuckDBType fd
      | None => VARCHAR
      end
  | None => VARCHAR
  end.

(** A state in which no null pointer is dereferenced: the stream info
    is there once the JetStream context is, and a prototype is there
    only together with the descriptor of the bind data. *)
Definition state_ok (bind : NatsScanBindData) (st : NatsScanGlobalState) : Prop :=
  (js st = true -> is_Some (stream_info st))
  /\ (is_Some (proto_prototype st) -> is_Some (proto_descriptor bind)).

(** ** The named parameters as a map *)

(** The engine holds the named parameters of a call in a map;
    [named_parameters] lists its entries in the order in which bind
    iterates over it. *)
Definition parameter_map (params : list (string * Value)) : gmap string Value :=
  list_to_map params.

(** The options as read off that map: under each name the value
    given, the default of lines 217-226 when none is. *)
Definition options_of (m : gmap string Value) : BindLocals :=
  let text := fun name default => from_option StringValue_Get default (m !! name) in
  let number := fun name default => from_option UBigIntValue_Get default (m !! name) in
  let time := fun name =>
    from_option (fun v => wrap_i64 (TimestampValue_Get v * 1000)) 0 (m !! name) in
  let texts := fun name =>
    from_option (fun v => map StringValue_Get (ListValue_GetChildren v)) [] (m !! name) in
  {| l_subject_filter := text "subject" "";
     l_nats_url := text "url" "nats://localhost:4222";
     l_start_seq := number "start_seq" 0;
     l_end_seq := number "end_seq" UINT64_MAX;
     l_start_time := time "start_time";
     l_end_time := time "end_time";
     l_json_fields := texts "json_extract";
     l_proto_file := text "proto_file" "";
     l_proto_message := text "proto_message" "";
     l_proto_fields := texts "proto_extract" |}.

(** ** Notions for whole queries *)

(** The scan lets the sequence through: the broker serves a message
    there, and the subject filter accepts it. *)
Definition passes (br : Broker) (bind : NatsScanBindData) (s : Z) : bool :=
  match js_DirectGetMsg br (stream_name bind) s with
  | DirectGet_OK msg => negb (subject_rejected bind msg)
  | _ => false
  end.

(** The sequences from [lo] to [hi], in increasing order. *)
Definition window (lo hi : Z) : list Z := seqZ lo (hi + 1 - lo).

(** What the calls that took the query from the state [st] to the
    state [st'] have done: the cursor went forward, not beyond the
    sequence after the end of the window; the end stayed; the broker
    reported no error at a sequence passed; and the [seq] cells of the
    rows handed back, [emitted], are the sequences passed that the
    scan lets through, in increasing order. *)
Definition scanned (br : Broker) (bind : NatsScanBindData)
    (st st' : NatsScanGlobalState) (emitted : list (option Value)) : Prop :=
  current_seq st <= current_seq st'
  /\ current_seq st' <= Z.max (current_seq st) (effective_end_seq st + 1)
  /\ effective_end_seq st' = effective_end_seq st
  /\ (forall s e, current_seq st <= s < current_seq st' ->
        js_DirectGetMsg br (stream_name bind) s <> DirectGet_ERR e)
  /\ emitted
     = map (fun s => Some (Value_UBIGINT s))
         (List.filter (passes br bind)
            (seqZ (current_seq st) (current_seq st' - current_seq st))).




(** The walk from a message type down a list of components, each the
    name of a message-typed field of the type reached so far. *)
Inductive descends : Descriptor -> list string -> Descriptor -> Prop :=
| descends_here (d : Descriptor) : descends d [] d
| descends_into (d : Descriptor) (part : string) (f : FieldDescriptor)
    (rest : list string) (d' : Descriptor) :
    FindFieldByName d part = Some f ->
    FieldDescriptor_type f = TYPE_MESSAGE ->
    descends (message_type f) rest d' ->
    descends d (part :: rest) d'.

(** What the exception bind throws for a path says, read against the
    schema: [FieldNotFound part name path] names a component of the
    path that is no field of the message type (called [name]) which
    the components before it lead to; [NotAMessageType part next path]
    names a component that is a field, but not a message, although the
    path goes on with [next]. *)
Definition path_error (root : Descriptor) (e : Exception) : Prop :=
  match e with
  | FieldNotFound part message_name field_path =>
      exists before rest d,
        split_field_path field_path = (before ++ part :: rest)%list
        /\ descends root before d
        /\ FindFieldByName d part = None
        /\ message_name = Descriptor_name d
  | NotAMessageType part next field_path =>
      exists before rest d f,
        split_field_path field_path = (before ++ part :: next :: rest)%list
        /\ descends root before d
        /\ FindFieldByName d part = Some f
        /\ FieldDescriptor_type f <> TYPE_MESSAGE
  | _ => False
  end.


End Scan.

(** ** Concrete collaborators, for running the model *)

(** A broker that accepts every connection step and serves a stream
    given as a finite map from sequence number to message. *)
Definition stream_broker (info : jsStreamInfo) (messages : gmap Z natsMsg) : Broker :=
  {| natsOptions_Create := NATS_OK;
     natsOptions_SetTimeout := fun _ => NATS_OK;
     natsOptions_SetURL := fun _ => NATS_OK;
     natsConnection_Connect := fun _ => NATS_OK;
     natsConnection_JetStream := NATS_OK;
     js_GetStreamInfo := fun _ => inl info;
     js_DirectGetMsg := fun _ seq =>
       match messages !! seq with
       | Some msg => DirectGet_OK msg
       | None => DirectGet_NOT_FOUND
       end |}.

(** A message of subject [s], timestamp [t] (ns) and payload [d]. *)
Definition message (s : string) (t : Z) (d : string) : natsMsg :=
  {| natsMsg_GetSubject := s; natsMsg_GetTime := t; natsMsg_GetData := d |}.

(** The engine's vectors hold 2048 rows. *)
Definition duckdb_engine : Engine := {| STANDARD_VECTOR_SIZE := 2048 |}.

(** A protobuf library that knows one schema file,
    [telemetry.proto], with the messages
    [Telemetry { int64 id; Loc location; }] and [Loc { string zone; }],
    and parses one payload: the two bytes 08 07, the encoding of
    [id = 7]. *)
Variant TelemetryDescriptor : Type := Telemetry | Loc.
Variant TelemetryField : Type := Telemetry_id | Telemetry_location | Loc_zone.
Variant TelemetryMessage : Type :=
| TelemetryMsg (id : Z) (location : option string)
| LocMsg (zone : string).

Definition telemetry_id_7 : string :=
  String (ascii_of_nat 8) (String (ascii_of_nat 7) EmptyString).

Definition telemetry_lib : ProtobufLib :=
  {| Descriptor := TelemetryDescriptor;
     FieldDescriptor := TelemetryField;
     FileDescriptor := unit;
     Message := TelemetryMessage;
     Descriptor_name := fun d =>
       match d with Telemetry => "Telemetry" | Loc => "Loc" end;
     FindFieldByName := fun d name =>
       match d with
       | Telemetry =>
           if String.eqb name "id" then Some Telemetry_id
           else if String.eqb name "location" then Some Telemetry_location
           else None
       | Loc => if String.eqb name "zone" then Some Loc_zone else None
       end;
     FieldDescriptor_type := fun f =>
       match f with
       | Telemetry_id => TYPE_INT64
       | Telemetry_location => TYPE_MESSAGE
       | Loc_zone => TYPE_STRING
       end;
     message_type := fun _ => Loc;
     Import := fun _ file =>
       if String.eqb file "telemetry.proto" then inl tt
       else inr ["File not found."];
     FindMessageTypeByName := fun _ name =>
       if String.eqb name "Telemetry" then Some Telemetry
       else if String.eqb name "Loc" then Some Loc
       else None;
     ParseFromArray := fun d data =>
       match d with
       | Telemetry =>
           if String.eqb data telemetry_id_7 then Some (TelemetryMsg 7 None)
           else None
       | Loc => None
       end;
     HasField := fun m f =>
       match m, f with
       | TelemetryMsg _ (Some _), Telemetry_location => true
       | _, _ => false
       end;
     GetMessage := fun m _ =>
       match m with
       | TelemetryMsg _ (Some zone) => LocMsg zone
       | _ => LocMsg ""
       end;
     GetString := fun m _ => match m with LocMsg zone => zone | _ => "" end;
     GetInt32 := fun _ _ => 0;
     GetInt64 := fun m _ => match m with TelemetryMsg id _ => id | _ => 0 end;
     GetUInt32 := fun _ _ => 0;
     GetUInt64 := fun _ _ => 0;
     GetFloat := fun _ _ => 0;
     GetDouble := fun _ _ => 0;
     GetBool := fun _ _ => false;
     GetEnum_name := fun _ _ => "" |}.

(** A double quote, and a quoted string, for JSON text. *)
Definition dquote : string := String (ascii_of_nat 34) EmptyString.
Definition quoted (s : string) : string := dquote +:+ s +:+ dquote.

(** The payload of the JSON example:
    an object with the members a (the string hi), b (42), c (true),
    d (null) and e (an object with the member x = 1). *)
Definition example_payload : string :=
  "{" +:+ quoted "a" +:+ ":" +:+ quoted "hi" +:+ "," +:+ quoted "b" +:+ ":42,"
  +:+ quoted "c" +:+ ":true," +:+ quoted "d" +:+ ":null," +:+ quoted "e"
  +:+ ":{" +:+ quoted "x" +:+ ":1}}".

(** The IEEE-754 binary64 patterns of 42.0 and 1.0. *)
Definition double_42 : double_bits := 0x4045000000000000.
Definition double_1 : double_bits := 0x3FF0000000000000.

Definition example_document : yyjson_val :=
  yy_obj [("a", yy_str "hi"); ("b", yy_num double_42); ("c", yy_bool true);
          ("d", yy_null); ("e", yy_obj [("x", yy_num double_1)])].

(** A JSON library that parses the example payload and writes its
    inner object back; every other text is a parse error. *)
Definition example_json : JsonLib :=
  {| yyjson_read := fun data =>
       if String.eqb data example_payload then Some example_document else None;
     yyjson_val_write := fun v =>
       match v with
       | yy_obj [(k, yy_num d)] =>
           if String.eqb k "x" && (d =? double_1)
           then Some ("{" +:+ quoted "x" +:+ ":1}")
           else None
       | _ => None
       end |}.

(** [std::to_string] on the two doubles of the example, and paths
    without a directory part. *)
Definition example_std : StdLib :=
  {| to_string_double := fun d =>
       if d =? double_42 then "42.000000"
       else if d =? double_1 then "1.000000"
       else "";
     parent_path := fun _ => "";
     filename := fun p => p |}.


(** ** Scenarios *)

Section Scenarios.

#[local] Existing Instance telemetry_lib.
#[local] Existing Instance example_json.
#[local] Existing Instance example_std.
#[local] Existing Instance duckdb_engine.

(** The result of a computation that returned, [otherwise] if it did
    not. *)
Definition result_of {A : Type} (o : outcome A) (otherwise : A) : A :=
  match o with Returns a => a | _ => otherwise end.

(** The computation returned. *)
Definition returned {A : Type} (o : outcome A) : bool :=
  match o with Returns _ => true | _ => false end.

(** Bind data with every option at its default but the two time
    bounds (in nanoseconds). *)
Definition time_window_bind (start_ns end_ns : Z) : NatsScanBindData :=
  {| stream_name := "EVENTS"; subject_filter := "";
     nats_url := "nats://localhost:4222";
     start_seq := 0; end_seq := UINT64_MAX;
     start_time := start_ns; end_time := end_ns;
     json_fields := []; proto_file := ""; proto_message := "";
     proto_fields := []; proto_descriptor := None |}.

(** A stream with the sequences 1 to 3 of which 2 was deleted;
    timestamps 100 and 200. *)
Definition gap_broker : Broker :=
  stream_broker {| FirstSeq := 1; LastSeq := 3 |}
    {[ 1 := message "events.a" 100 "first"; 3 := message "events.a" 200 "third" ]}.

(** A stream whose only message is at sequence 1, the sequences 2 and
    3 having been deleted. *)
Definition tail_gap_broker : Broker :=
  stream_broker {| FirstSeq := 1; LastSeq := 3 |}
    {[ 1 := message "events.a" 100 "first" ]}.

(** Three messages at the timestamps 1000, 2000 and 3000 ns. *)
Definition three_broker : Broker :=
  stream_broker {| FirstSeq := 1; LastSeq := 3 |}
    {[ 1 := message "events.a" 1000 "one";
       2 := message "events.a" 2000 "two";
       3 := message "events.a" 3000 "three" ]}.

(** The same three messages on the microsecond grid of the engine's
    timestamps: 1, 2 and 3 ms. *)
Definition three_ms_broker : Broker :=
  stream_broker {| FirstSeq := 1; LastSeq := 3 |}
    {[ 1 := message "events.a" 1000000 "one";
       2 := message "events.a" 2000000 "two";
       3 := message "events.a" 3000000 "three" ]}.

(** [nats_scan('EVENTS', start_time := 1500 us, end_time := 2500 us)]. *)
Definition time_window_input : TableFunctionBindInput :=
  {| inputs := [Value_VARCHAR "EVENTS"];
     named_parameters :=
       [("start_time", Value_TIMESTAMP 1500); ("end_time", Value_TIMESTAMP 2500)] |}.

(** [nats_scan('EVENTS', json_extract := ['a','b','c','d','e','f'])]. *)
Definition json_input : TableFunctionBindInput :=
  {| inputs := [Value_VARCHAR "EVENTS"];
     named_parameters :=
       [("json_extract",
         Value_LIST (map Value_VARCHAR ["a"; "b"; "c"; "d"; "e"; "f"]))] |}.

Definition json_bind : NatsScanBindData :=
  {| stream_name := "EVENTS"; subject_filter := "";
     nats_url := "nats://localhost:4222";
     start_seq := 0; end_seq := UINT64_MAX; start_time := 0; end_time := 0;
     json_fields := ["a"; "b"; "c"; "d"; "e"; "f"];
     proto_file := ""; proto_message := "";
     proto_fields := []; proto_descriptor := None |}.

(** The example payload at sequence 1, a text that is no JSON at
    sequence 2 (with a timestamp before the epoch). *)
Definition json_broker : Broker :=
  stream_broker {| FirstSeq := 1; LastSeq := 2 |}
    {[ 1 := message "events.a" 1999 example_payload;
       2 := message "events.b" (-1999) "not json" ]}.

(** [nats_scan('EVENTS', proto_file := 'telemetry.proto',
    proto_message := 'Telemetry', proto_extract := ['id','location.zone'])]. *)
Definition proto_input : TableFunctionBindInput :=
  {| inputs := [Value_VARCHAR "EVENTS"];
     named_parameters :=
       [("proto_file", Value_VARCHAR "telemetry.proto");
        ("proto_message", Value_VARCHAR "Telemetry");
        ("proto_extract",
         Value_LIST (map Value_VARCHAR ["id"; "location.zone"]))] |}.

Definition proto_bind : NatsScanBindData :=
  {| stream_name := "EVENTS"; subject_filter := "";
     nats_url := "nats://localhost:4222";
     start_seq := 0; end_seq := UINT64_MAX; start_time := 0; end_time := 0;
     json_fields := [];
     proto_file := "telemetry.proto"; proto_message := "Telemetry";
     proto_fields := ["id"; "location.zone"];
     proto_descriptor := Some Telemetry |}.

(** The encoding of [id = 7] at sequence 1, bytes that do not parse at
    sequence 2. *)
Definition proto_broker : Broker :=
  stream_broker {| FirstSeq := 1; LastSeq := 2 |}
    {[ 1 := message "events.a" 1999 telemetry_id_7;
       2 := message "events.b" 2999 "not protobuf" ]}.

(** [nats_scan('EVENTS', proto_file := 'missing.proto',
    proto_message := 'Nothing')]: the two protobuf options without
    [proto_extract], naming a file the library does not know. *)
Definition proto_options_input : TableFunctionBindInput :=
  {| inputs := [Value_VARCHAR "EVENTS"];
     named_parameters :=
       [("proto_file", Value_VARCHAR "missing.proto");
        ("proto_message", Value_VARCHAR "Nothing")] |}.

(** [nats_scan()], [nats_scan('')] and
    [nats_scan('EVENTS', start_seq := 5, start_time := epoch)]. *)
Definition no_argument_input : TableFunctionBindInput :=
  {| inputs := []; named_parameters := [] |}.

Definition empty_name_input : TableFunctionBindInput :=
  {| inputs := [Value_VARCHAR ""]; named_parameters := [] |}.

Definition epoch_start_input : TableFunctionBindInput :=
  {| inputs := [Value_VARCHAR "EVENTS"];
     named_parameters :=
       [("start_seq", Value_UBIGINT 5); ("start_time", Value_TIMESTAMP 0)] |}.




(** Two calls of a query without bounds on the stream with a gap. *)
Definition gap_query : outcome (list DataChunk * NatsScanGlobalState) :=
  run_query 2 64 gap_broker (time_window_bind 0 0)
    (NatsScanInitGlobal (time_window_bind 0 0)).

(** What bind answers for the protobuf call. *)
Definition proto_bind_result : BindResult :=
  {| bind_data := proto_bind;
     schema :=
       {| names := ["stream"; "subject"; "seq"; "ts_nats"; "payload";
                    "id"; "location_zone"];
          return_types := [VARCHAR; VARCHAR; UBIGINT; TIMESTAMP; BLOB;
                           BIGINT; VARCHAR] |} |}.

(** [nats_scan('EVENTS', subject := 'events.b')]. *)
Definition filtered_bind : NatsScanBindData :=
  {| stream_name := "EVENTS"; subject_filter := "events.b";
     nats_url := "nats://localhost:4222";
     start_seq := 0; end_seq := UINT64_MAX; start_time := 0; end_time := 0;
     json_fields := []; proto_file := ""; proto_message := "";
     proto_fields := []; proto_descriptor := None |}.


(** A broker that serves the messages of [json_broker] but refuses
    every connection step. *)
Definition unreachable_json_broker : Broker :=
  {| natsOptions_Create := NATS_ERR 1;
     natsOptions_SetTimeout := fun _ => NATS_ERR 1;
     natsOptions_SetURL := fun _ => NATS_ERR 1;
     natsConnection_Connect := fun _ => NATS_ERR 1;
     natsConnection_JetStream := NATS_ERR 1;
     js_GetStreamInfo := fun _ => inr (NATS_ERR 1);
     js_DirectGetMsg := js_DirectGetMsg json_broker |}.


(** [nats_scan('EVENTS', proto_file := 'telemetry.proto',
    proto_message := 'Telemetry', proto_extract := ['location.nope'])]. *)
Definition bad_path_input : TableFunctionBindInput :=
  {| inputs := [Value_VARCHAR "EVENTS"];
     named_parameters :=
       [("proto_file", Value_VARCHAR "telemetry.proto");
        ("proto_message", Value_VARCHAR "Telemetry");
        ("proto_extract", Value_LIST [Value_VARCHAR "location.nope"])] |}.


(** [nats_scan('EVENTS', start_seq := 18446744073709551615)]: the
    rows from the sequence 2^64-1 on. *)
Definition last_sequence_input : TableFunctionBindInput :=
  {| inputs := [Value_VARCHAR "EVENTS"];
     named_parameters := [("start_seq", Value_UBIGINT UINT64_MAX)] |}.

(** A stream that has used up the sequence numbers: it holds a
    message at every sequence from 1 to 2^64-1, its last. *)
Definition exhausted_broker : Broker :=
  {| natsOptions_Create := NATS_OK;
     natsOptions_SetTimeout := fun _ => NATS_OK;
     natsOptions_SetURL := fun _ => NATS_OK;
     natsConnection_Connect := fun _ => NATS_OK;
     natsConnection_JetStream := NATS_OK;
     js_GetStreamInfo := fun _ => inl {| FirstSeq := 1; LastSeq := UINT64_MAX |};
     js_DirectGetMsg := fun _ seq =>
       if (1 <=? seq) && (seq <=? UINT64_MAX)
       then DirectGet_OK (message "events.a" seq "x")
       else DirectGet_NOT_FOUND |}.

End Scenarios.

(** The kind-to-type table of the Type Mapper, row by row; a kind the
    table does not list is mapped to varchar. *)
Definition type_mapper_table : list (FieldType * LogicalTypeId) :=
  [ (TYPE_STRING, VARCHAR);
    (TYPE_BYTES, BLOB);
    (TYPE_INT32, INTEGER); (TYPE_SINT32, INTEGER); (TYPE_SFIXED32, INTEGER);
    (TYPE_INT64, BIGINT); (TYPE_SINT64, BIGINT); (TYPE_SFIXED64, BIGINT);
    (TYPE_UINT32, UINTEGER); (TYPE_FIXED32, UINTEGER);
    (TYPE_UINT64, UBIGINT); (TYPE_FIXED64, UBIGINT);
    (TYPE_FLOAT, FLOAT);
    (TYPE_DOUBLE, DOUBLE);
    (TYPE_BOOL, BOOLEAN);
    (TYPE_ENUM, VARCHAR);
    (TYPE_MESSAGE, VARCHAR) ].

Fixpoint table_lookup (kind : FieldType) (table : list (FieldType * LogicalTypeId))
    : option LogicalTypeId :=
  match table with
  | [] => None
  | (k, t) :: rest => if decide (k = kind) then Some t else table_lookup kind rest
  end.

Definition type_mapper (kind : FieldType) : LogicalTypeId :=
  default VARCHAR (table_lookup kind type_mapper_table).

(** * Properties *)

Section ScanProofs.

Context {PL : ProtobufLib} {JL : JsonLib} {SL : StdLib} {EN : Engine}.

(** ** Outcomes *)

Lemma bind_Returns {A B : Type} (m : outcome A) (k : A -> outcome B) (b : B) :
  (m ≫= k) = Returns b -> exists a, m = Returns a /\ k a = Returns b.
Proof.
  destruct m as [a| |]; cbn; intros H; try discriminate.
  exists a. split; [reflexivity | exact H].
Qed.

Lemma expect_ok_Returns (s : natsStatus) (e : natsStatus -> Exception) (u : unit) :
  expect_ok s e = Returns u -> s = NATS_OK.
Proof. destruct s; cbn; intros H; try discriminate; reflexivity. Qed.

(** Inverts a hypothesis [(x ← m; k) = Returns b]. *)
Ltac invert_bind H :=
  let a := fresh "a" in
  let Ha := fresh "Hrun" in
  apply bind_Returns in H; destruct H as [a [Ha H]].

(** ** Cells of a chunk *)

Lemma GetValue_SetValue_eq (col row : nat) (v : Value) (output : DataChunk) :
  GetValue col row (SetValue col row v output) = Some v.
Proof. unfold GetValue, SetValue; cbn. apply lookup_insert_eq. Qed.

Lemma GetValue_SetValue_ne (col row col' row' : nat) (v : Value) (output : DataChunk) :
  (col, row) <> (col', row') ->
  GetValue col' row' (SetValue col row v output) = GetValue col' row' output.
Proof. intros Hne. unfold GetValue, SetValue; cbn. by apply lookup_insert_ne. Qed.

Lemma GetValue_SetCardinality (col row count : nat) (output : DataChunk) :
  GetValue col row (SetCardinality count output) = GetValue col row output.
Proof. reflexivity. Qed.

(** The column loops write row [count] only, and only columns from
    [5 + i] on. *)
Lemma set_extraction_columns_other_row (value_of : string -> Value)
    (fields : list string) (i count : nat) (output : DataChunk) (col row : nat) :
  row <> count ->
  GetValue col row (set_extraction_columns value_of fields i count output)
  = GetValue col row output.
Proof.
  revert i output. induction fields as [|field rest IH]; intros i output Hne; cbn.
  - reflexivity.
  - rewrite IH by exact Hne. apply GetValue_SetValue_ne. congruence.
Qed.

Lemma set_extraction_columns_low (value_of : string -> Value)
    (fields : list string) (i count : nat) (output : DataChunk) (col row : nat) :
  (col < 5 + i)%nat ->
  GetValue col row (set_extraction_columns value_of fields i count output)
  = GetValue col row output.
Proof.
  revert i output. induction fields as [|field rest IH]; intros i output Hlt; cbn.
  - reflexivity.
  - rewrite IH by lia. apply GetValue_SetValue_ne.
    intros [= Hcol _]. lia.
Qed.

Lemma set_extraction_columns_high (value_of : string -> Value)
    (fields : list string) (i count : nat) (output : DataChunk) (col row : nat) :
  (5 + i + length fields <= col)%nat ->
  GetValue col row (set_extraction_columns value_of fields i count output)
  = GetValue col row output.
Proof.
  revert i output. induction fields as [|field rest IH]; intros i output Hge; cbn in *.
  - reflexivity.
  - rewrite IH by lia. apply GetValue_SetValue_ne.
    intros [= Hcol _]. lia.
Qed.

(** Column [5 + i + k] of row [count] receives the value of the
    [k]-th field. *)
Lemma set_extraction_columns_at (value_of : string -> Value)
    (fields : list string) (i count : nat) (output : DataChunk)
    (k col : nat) (field : string) :
  fields !! k = Some field ->
  col = (5 + i + k)%nat ->
  GetValue col count (set_extraction_columns value_of fields i count output)
  = Some (value_of field).
Proof.
  revert i k output. induction fields as [|f rest IH]; intros i k output Hk Hcol.
  - discriminate.
  - destruct k as [|k].
    + injection Hk as ->. cbn [set_extraction_columns].
      rewrite set_extraction_columns_low by lia.
      replace col with (5 + i)%nat by lia.
      apply GetValue_SetValue_eq.
    + cbn [set_extraction_columns]. apply (IH (S i) k); [exact Hk | lia].
Qed.

(** Reads a cell through the writes that precede it. *)
Ltac read_cell :=
  repeat first
    [ rewrite GetValue_SetValue_eq
    | rewrite GetValue_SetValue_ne by (intros [= ? ?]; lia)
    | rewrite set_extraction_columns_other_row by lia
    | rewrite set_extraction_columns_low by lia ].

(** ** One emitted row *)

Lemma set_fixed_columns_other_row (bind : NatsScanBindData) (seq : Z) (msg : natsMsg)
    (count : nat) (output : DataChunk) (col row : nat) :
  row <> count ->
  GetValue col row (set_fixed_columns bind seq msg count output)
  = GetValue col row output.
Proof.
  intros Hne. unfold set_fixed_columns.
  destruct (negb (vector_empty (proto_fields bind))); read_cell; reflexivity.
Qed.

Lemma set_fixed_columns_high (bind : NatsScanBindData) (seq : Z) (msg : natsMsg)
    (count : nat) (output : DataChunk) (col row : nat) :
  (5 <= col)%nat ->
  GetValue col row (set_fixed_columns bind seq msg count output)
  = GetValue col row output.
Proof.
  intros Hge. unfold set_fixed_columns.
  destruct (negb (vector_empty (proto_fields bind))); read_cell; reflexivity.
Qed.

Lemma extract_json_fields_other_row (bind : NatsScanBindData) (data : string)
    (count : nat) (output : DataChunk) (col row : nat) :
  row <> count ->
  GetValue col row (extract_json_fields bind data count output)
  = GetValue col row output.
Proof.
  intros Hne. unfold extract_json_fields.
  destruct (negb (vector_empty (json_fields bind))); [|reflexivity].
  destruct (yyjson_read data); read_cell; reflexivity.
Qed.

Lemma extract_json_fields_low (bind : NatsScanBindData) (data : string)
    (count : nat) (output : DataChunk) (col row : nat) :
  (col < 5)%nat ->
  GetValue col row (extract_json_fields bind data count output)
  = GetValue col row output.
Proof.
  intros Hlt. unfold extract_json_fields.
  destruct (negb (vector_empty (json_fields bind))); [|reflexivity].
  destruct (yyjson_read data); read_cell; reflexivity.
Qed.

Lemma extract_proto_fields_other_row (bind : NatsScanBindData)
    (st : NatsScanGlobalState) (data : string) (count : nat)
    (output output' : DataChunk) (col row : nat) :
  extract_proto_fields bind st data count output = Returns output' ->
  row <> count ->
  GetValue col row output' = GetValue col row output.
Proof.
  unfold extract_proto_fields. intros H Hne.
  destruct (negb (vector_empty (proto_fields bind))); [|congruence].
  destruct (proto_prototype st) as [prototype|]; [|congruence].
  destruct (ParseFromArray prototype data) as [m|].
  - destruct (proto_descriptor bind) as [root|]; [|discriminate].
    injection H as <-. read_cell. reflexivity.
  - injection H as <-. read_cell. reflexivity.
Qed.

Lemma extract_proto_fields_low (bind : NatsScanBindData)
    (st : NatsScanGlobalState) (data : string) (count : nat)
    (output output' : DataChunk) (col row : nat) :
  extract_proto_fields bind st data count output = Returns output' ->
  (col < 5)%nat ->
  GetValue col row output' = GetValue col row output.
Proof.
  unfold extract_proto_fields. intros H Hlt.
  destruct (negb (vector_empty (proto_fields bind))); [|congruence].
  destruct (proto_prototype st) as [prototype|]; [|congruence].
  destruct (ParseFromArray prototype data) as [m|].
  - destruct (proto_descriptor bind) as [root|]; [|discriminate].
    injection H as <-. read_cell. reflexivity.
  - injection H as <-. read_cell. reflexivity.
Qed.

(** What [emit_row] leaves in the chunk: the other rows as they were,
    and the five fixed cells of row [count]. *)
Lemma emit_row_cells (bind : NatsScanBindData) (st : NatsScanGlobalState)
    (msg : natsMsg) (count : nat) (output output' : DataChunk) :
  emit_row bind st msg count output = Returns output' ->
  (forall col row, row <> count ->
     GetValue col row output' = GetValue col row output)
  /\ GetValue 0 count output' = Some (Value_VARCHAR (stream_name bind))
  /\ GetValue 1 count output' = Some (Value_VARCHAR (natsMsg_GetSubject msg))
  /\ GetValue 2 count output' = Some (Value_UBIGINT (current_seq st))
  /\ GetValue 3 count output'
     = Some (Value_TIMESTAMP (Z.quot (natsMsg_GetTime msg) 1000))
  /\ GetValue 4 count output' = Some (payload_value bind msg).
Proof.
  unfold emit_row. intros H.
  split.
  { intros col row Hne.
    rewrite (extract_proto_fields_other_row _ _ _ _ _ _ col row H Hne).
    rewrite extract_json_fields_other_row by exact Hne.
    apply set_fixed_columns_other_row. exact Hne. }
  repeat split;
    rewrite (extract_proto_fields_low _ _ _ _ _ _ _ count H) by lia;
    rewrite extract_json_fields_low by lia;
    unfold set_fixed_columns, payload_value;
    destruct (negb (vector_empty (proto_fields bind))); read_cell; reflexivity.
Qed.


(** ** The fetch loop *)

Lemma set_current_seq_same (st : NatsScanGlobalState) :
  set_current_seq (current_seq st) st = st.
Proof. destruct st; reflexivity. Qed.

(** One turn of the loop, by what the broker answers at the cursor. *)
Lemma fetch_loop_unfold (fuel : nat) (br : Broker) (bind : NatsScanBindData)
    (st : NatsScanGlobalState) (count : nat) (output : DataChunk) :
  fetch_loop (S fuel) br bind st count output =
  if (count <? STANDARD_VECTOR_SIZE)%nat
     && (current_seq st <=? effective_end_seq st)
  then
    match js_DirectGetMsg br (stream_name bind) (current_seq st) with
    | DirectGet_NOT_FOUND => fetch_loop fuel br bind (advance st) count output
    | DirectGet_ERR s => Throws (FetchFailed (current_seq st) s)
    | DirectGet_OK msg =>
        if subject_rejected bind msg
        then fetch_loop fuel br bind (advance st) count output
        else
          output ← emit_row bind st msg count output;
          fetch_loop fuel br bind (advance st) (S count) output
    end
  else Returns (st, count, output).
Proof. reflexivity. Qed.

Lemma fetch_loop_zero (br : Broker) (bind : NatsScanBindData)
    (st : NatsScanGlobalState) (count : nat) (output : DataChunk) :
  fetch_loop 0 br bind st count output =
  if (count <? STANDARD_VECTOR_SIZE)%nat
     && (current_seq st <=? effective_end_seq st)
  then OutOfFuel
  else Returns (st, count, output).
Proof. reflexivity. Qed.

(** The rows of a chunk filled by the loop: the rows below [count]
    are not touched, the loop changes nothing of the state but the
    cursor, and every new row is the work of [emit_row] on a message
    the broker served and the subject filter let through. *)
Lemma fetch_loop_rows (br : Broker) (bind : NatsScanBindData) (fuel : nat) :
  forall (st : NatsScanGlobalState) (count : nat) (output : DataChunk)
         (st' : NatsScanGlobalState) (count' : nat) (output' : DataChunk),
  fetch_loop fuel br bind st count output = Returns (st', count', output') ->
  (count <= count')%nat
  /\ st' = set_current_seq (current_seq st') st
  /\ (forall col row, (row < count)%nat ->
        GetValue col row output' = GetValue col row output)
  /\ (forall row, (count <= row < count')%nat ->
        exists seq msg before after,
          js_DirectGetMsg br (stream_name bind) seq = DirectGet_OK msg
          /\ subject_rejected bind msg = false
          /\ emit_row bind (set_current_seq seq st) msg row before = Returns after
          /\ forall col, GetValue col row output' = GetValue col row after).
Proof.
  induction fuel as [|fuel IH]; intros st count output st' count' output' H.
  - rewrite fetch_loop_zero in H.
    destruct ((count <? STANDARD_VECTOR_SIZE)%nat
              && (current_seq st <=? effective_end_seq st)); [discriminate|].
    injection H as <- <- <-.
    split; [lia|]. split; [symmetry; apply set_current_seq_same|].
    split; [reflexivity | intros row Hrow; lia].
  - rewrite fetch_loop_unfold in H.
    destruct ((count <? STANDARD_VECTOR_SIZE)%nat
              && (current_seq st <=? effective_end_seq st)).
    2:{ injection H as <- <- <-.
        split; [lia|]. split; [symmetry; apply set_current_seq_same|].
        split; [reflexivity | intros row Hrow; lia]. }
    assert (Hskip : fetch_loop fuel br bind (advance st) count output
                    = Returns (st', count', output') ->
            (count <= count')%nat
            /\ st' = set_current_seq (current_seq st') st
            /\ (forall col row, (row < count)%nat ->
                  GetValue col row output' = GetValue col row output)
            /\ (forall row, (count <= row < count')%nat ->
                  exists seq msg before after,
                    js_DirectGetMsg br (stream_name bind) seq = DirectGet_OK msg
                    /\ subject_rejected bind msg = false
                    /\ emit_row bind (set_current_seq seq st) msg row before
                       = Returns after
                    /\ forall col, GetValue col row output' = GetValue col row after)).
    { intros Hloop. apply IH in Hloop.
      destruct Hloop as (Hle & Hst & Hframe & Hrows).
      split; [exact Hle|]. split; [exact Hst|]. split; [exact Hframe|].
      intros row Hrow. destruct (Hrows row Hrow) as (seq & msg & b & a & Hr).
      exists seq, msg, b, a. exact Hr. }
    destruct (js_DirectGetMsg br (stream_name bind) (current_seq st))
      as [msg| |s] eqn:Hget; [|exact (Hskip H)|discriminate].
    destruct (subject_rejected bind msg) eqn:Hrej; [exact (Hskip H)|].
    invert_bind H. rename a into out1.
    apply IH in H. destruct H as (Hle & Hst & Hframe & Hrows).
    destruct (emit_row_cells _ _ _ _ _ _ Hrun) as (Hother & _).
    split; [lia|]. split; [exact Hst|]. split.
    + intros col row Hlt. rewrite Hframe by lia. apply Hother. lia.
    + intros row Hrow.
      destruct (decide (row = count)) as [->|Hne].
      * exists (current_seq st), msg, output, out1.
        rewrite set_current_seq_same.
        split; [exact Hget|]. split; [exact Hrej|]. split; [exact Hrun|].
        intros col. apply Hframe. lia.
      * destruct (Hrows row ltac:(lia)) as (seq & m & b & a & Hr).
        exists seq, m, b, a. exact Hr.
Qed.


(** ** Before the fetch loop *)

Lemma create_connection_Returns (br : Broker) (bind : NatsScanBindData)
    (st st1 : NatsScanGlobalState) :
  create_connection br bind st = Returns st1 ->
  conn st1 = true /\ js st1 = js st /\ stream_info st1 = stream_info st
  /\ current_seq st1 = current_seq st
  /\ effective_end_seq st1 = effective_end_seq st
  /\ done st1 = done st /\ timestamps_resolved st1 = timestamps_resolved st
  /\ proto_prototype st1 = proto_prototype st.
Proof.
  unfold create_connection. destruct (conn st) eqn:Hconn; intros H.
  - injection H as <-. repeat split; assumption.
  - do 4 invert_bind H. injection H as <-. cbn. repeat split; reflexivity.
Qed.

Lemma create_jetstream_Returns (br : Broker) (bind : NatsScanBindData)
    (st st1 : NatsScanGlobalState) :
  create_jetstream br bind st = Returns st1 ->
  conn st1 = conn st /\ js st1 = true
  /\ (js st = true -> st1 = st)
  /\ (js st = false -> is_Some (stream_info st1))
  /\ current_seq st1 = current_seq st
  /\ done st1 = done st /\ timestamps_resolved st1 = timestamps_resolved st
  /\ proto_prototype st1 = proto_prototype st.
Proof.
  unfold create_jetstream. destruct (js st) eqn:Hjs; intros H.
  - injection H as <-. repeat split; try assumption; try reflexivity. discriminate.
  - do 2 invert_bind H. injection H as <-. cbn.
    repeat split; try reflexivity; try discriminate. eauto.
Qed.

Lemma resolve_timestamps_Returns (fuel : nat) (br : Broker) (bind : NatsScanBindData)
    (st : NatsScanGlobalState) (r : Prepared) :
  resolve_timestamps fuel br bind st = Returns r ->
  conn (prepared_state r) = conn st /\ js (prepared_state r) = js st
  /\ stream_info (prepared_state r) = stream_info st
  /\ proto_prototype (prepared_state r) = proto_prototype st
  /\ match r with
     | Ready st1 =>
         done st1 = done st
         /\ (timestamps_resolved st1 = true
             \/ (0 <? start_time bind) || (0 <? end_time bind) = false)
     | Finished st1 => done st1 = true
     end.
Proof.
  unfold resolve_timestamps.
  destruct (negb (timestamps_resolved st)) eqn:Hres; cbn [andb].
  2:{ intros [= <-]. cbn. repeat split; try reflexivity.
      left. by destruct (timestamps_resolved st). }
  destruct ((0 <? start_time bind) || (0 <? end_time bind)) eqn:Htime.
  2:{ intros [= <-]. cbn. repeat split; try reflexivity. by right. }
  destruct (stream_info st) as [info|] eqn:Hinfo; [|discriminate].
  intros H. invert_bind H. rename a into r0.
  assert (Hr0 : conn (prepared_state r0) = conn st /\ js (prepared_state r0) = js st
                /\ stream_info (prepared_state r0) = stream_info st
                /\ proto_prototype (prepared_state r0) = proto_prototype st
                /\ match r0 with
                   | Ready st1 => done st1 = done st
                   | Finished st1 => done st1 = true
                   end).
  { destruct (0 <? start_time bind).
    - invert_bind Hrun. destruct (a =? UINT64_MAX); injection Hrun as <-;
        cbn; repeat split; reflexivity.
    - injection Hrun as <-. cbn. repeat split; reflexivity. }
  destruct r0 as [st0|st0]; cbn in Hr0.
  - invert_bind H. injection H as <-. cbn.
    destruct Hr0 as (Hc & Hj & Hs & Hp & Hd).
    assert (Ha : conn a = conn st0 /\ js a = js st0
                 /\ stream_info a = stream_info st0
                 /\ proto_prototype a = proto_prototype st0 /\ done a = done st0).
    { destruct (0 <? end_time bind).
      - invert_bind Hrun0. destruct (negb (a0 =? UINT64_MAX));
          injection Hrun0 as <-; cbn; repeat split; reflexivity.
      - injection Hrun0 as <-. repeat split; reflexivity. }
    destruct Ha as (Hc' & Hj' & Hs' & Hp' & Hd').
    repeat split; try congruence; by left.
  - injection H as <-. cbn. rewrite Hinfo in Hr0. exact Hr0.
Qed.

(** What [prepare_scan] establishes. *)
Lemma prepare_scan_Returns (fuel : nat) (br : Broker) (bind : NatsScanBindData)
    (st : NatsScanGlobalState) (r : Prepared) :
  prepare_scan fuel br bind st = Returns r ->
  proto_prototype (prepared_state r) = proto_prototype st
  /\ match r with
     | Ready st1 =>
         settled bind st1 /\ done st1 = done st
         /\ current_seq st1 <= effective_end_seq st1
     | Finished st1 => done st1 = true
     end.
Proof.
  unfold prepare_scan. intros H.
  invert_bind H. rename a into sta.
  invert_bind H. rename a into stb.
  invert_bind H. rename a into r0.
  apply create_connection_Returns in Hrun.
  apply create_jetstream_Returns in Hrun0.
  apply resolve_timestamps_Returns in Hrun1.
  destruct Hrun as (Hc1 & _ & _ & _ & _ & Hd1 & _ & Hp1).
  destruct Hrun0 as (Hc2 & Hj2 & _ & _ & _ & Hd2 & _ & Hp2).
  destruct Hrun1 as (Hc3 & Hj3 & _ & Hp3 & Hr).
  destruct r0 as [st0|st0]; cbn in *.
  - destruct (effective_end_seq st0 <? current_seq st0) eqn:Hcmp;
      injection H as <-; cbn.
    + split; [congruence | reflexivity].
    + destruct Hr as [Hd3 Ht]. split; [congruence|].
      split; [|split; [congruence | lia]].
      unfold settled. repeat split; [congruence | congruence | exact Ht].
  - injection H as <-. cbn. split; [congruence | exact Hr].
Qed.

(** From a settled state the preparation is the test of the window
    alone. *)
Lemma prepare_scan_settled (fuel : nat) (br : Broker) (bind : NatsScanBindData)
    (st : NatsScanGlobalState) :
  settled bind st ->
  prepare_scan fuel br bind st
  = Returns (if effective_end_seq st <? current_seq st
             then Finished (set_done st) else Ready st).
Proof.
  intros (Hconn & Hjs & Htime).
  unfold prepare_scan, create_connection, create_jetstream, resolve_timestamps.
  rewrite Hconn. cbn. rewrite Hjs. cbn.
  assert (Hcond : negb (timestamps_resolved st)
                  && ((0 <? start_time bind) || (0 <? end_time bind)) = false).
  { destruct Htime as [-> | ->]; [reflexivity | apply andb_false_r]. }
  rewrite Hcond. cbn.
  destruct (effective_end_seq st <? current_seq st); reflexivity.
Qed.


(** ** The rows of one call *)

(** Every row of the chunk a call hands back was written by
    [emit_row] for a message the broker served at the cursor. *)
Lemma NatsScanExecute_rows (fuel : nat) (br : Broker) (bind : NatsScanBindData)
    (st st' : NatsScanGlobalState) (output output' : DataChunk) (row : nat) :
  NatsScanExecute fuel br bind st output = Returns (st', output') ->
  (row < cardinality output')%nat ->
  exists st_row msg before after,
    js_DirectGetMsg br (stream_name bind) (current_seq st_row) = DirectGet_OK msg
    /\ subject_rejected bind msg = false
    /\ proto_prototype st_row = proto_prototype st
    /\ emit_row bind st_row msg row before = Returns after
    /\ forall col, GetValue col row output' = GetValue col row after.
Proof.
  unfold NatsScanExecute. intros H Hrow.
  destruct (done st).
  { injection H as <- <-. cbn in Hrow. lia. }
  invert_bind H. rename a into r.
  apply prepare_scan_Returns in Hrun. destruct Hrun as [Hproto _].
  destruct r as [st1|st1]; cbn in Hproto.
  2:{ injection H as <- <-. cbn in Hrow. lia. }
  unfold fill_chunk in H.
  invert_bind H. destruct a as [[st2 count] out2].
  injection H as <- <-. cbn in Hrow.
  apply fetch_loop_rows in Hrun. destruct Hrun as (_ & _ & _ & Hrows).
  destruct (Hrows row ltac:(lia)) as (seq & msg & b & a & Hget & Hrej & Hemit & Hcells).
  exists (set_current_seq seq st1), msg, b, a.
  split; [exact Hget|]. split; [exact Hrej|]. split; [exact Hproto|].
  split; [exact Hemit|]. intros col. rewrite GetValue_SetCardinality. apply Hcells.
Qed.

(** Division by 1000 in [int64_t] truncates toward zero. *)
Lemma quot_1000_truncates (t : Z) :
  Z.abs (Z.quot t 1000) = Z.abs t / 1000
  /\ (0 <= t -> 0 <= Z.quot t 1000)
  /\ (t <= 0 -> Z.quot t 1000 <= 0).
Proof.
  split; [|split].
  - rewrite <- Z.quot_abs by lia. cbn [Z.abs].
    apply Z.quot_div_nonneg; lia.
  - intros Ht. apply Z.quot_pos; lia.
  - intros Ht. rewrite <- (Z.opp_involutive t), Z.quot_opp_l by lia.
    assert (0 <= Z.quot (- t) 1000) by (apply Z.quot_pos; lia). lia.
Qed.

(** C8.  Every row of a chunk handed back by [NatsScanExecute] belongs
    to a message the broker served, and its [ts_nats] cell (column 3)
    is the timestamp value [t ÷ 1000] for the nanosecond timestamp [t]
    of that message, where [÷] is the integer division that truncates
    toward zero: its magnitude is [|t| / 1000] rounded down and its
    sign is that of [t]. *)
Theorem ts_nats_is_time_div_1000 (fuel : nat) (br : Broker) (bind : NatsScanBindData)
    (st st' : NatsScanGlobalState) (output output' : DataChunk) (row : nat) :
  NatsScanExecute fuel br bind st output = Returns (st', output') ->
  (row < cardinality output')%nat ->
  exists seq msg,
    js_DirectGetMsg br (stream_name bind) seq = DirectGet_OK msg
    /\ GetValue 2 row output' = Some (Value_UBIGINT seq)
    /\ GetValue 3 row output'
       = Some (Value_TIMESTAMP (Z.quot (natsMsg_GetTime msg) 1000))
    /\ Z.abs (Z.quot (natsMsg_GetTime msg) 1000) = Z.abs (natsMsg_GetTime msg) / 1000
    /\ (0 <= natsMsg_GetTime msg -> 0 <= Z.quot (natsMsg_GetTime msg) 1000)
    /\ (natsMsg_GetTime msg <= 0 -> Z.quot (natsMsg_GetTime msg) 1000 <= 0).
Proof.
  intros H Hrow.
  destruct (NatsScanExecute_rows _ _ _ _ _ _ _ _ H Hrow)
    as (st_row & msg & b & a & Hget & _ & _ & Hemit & Hcells).
  destruct (emit_row_cells _ _ _ _ _ _ Hemit) as (_ & _ & _ & Hseq & Hts & _).
  exists (current_seq st_row), msg.
  split; [exact Hget|]. split; [rewrite Hcells; exact Hseq|].
  split; [rewrite Hcells; exact Hts|]. apply quot_1000_truncates.
Qed.


(** ** Payload decoding *)

Lemma vector_empty_false {A : Type} (v : list A) :
  v <> [] -> negb (vector_empty v) = true.
Proof. destruct v; [congruence | reflexivity]. Qed.

(** A row of a query that extracts JSON fields only: when the payload
    parses, column [5 + i] holds the value of the [i]-th field. *)
Lemma emit_row_json_cell (bind : NatsScanBindData) (st : NatsScanGlobalState)
    (msg : natsMsg) (count : nat) (output after : DataChunk)
    (root : yyjson_val) (i : nat) (field_name : string) :
  proto_fields bind = [] ->
  yyjson_read (natsMsg_GetData msg) = Some root ->
  json_fields bind !! i = Some field_name ->
  emit_row bind st msg count output = Returns after ->
  GetValue (5 + i) count after = Some (json_field_value root field_name).
Proof.
  intros Hproto Hread Hi. unfold emit_row, extract_proto_fields, extract_json_fields.
  rewrite Hproto, Hread. cbn [vector_empty negb].
  rewrite vector_empty_false by (intros Hnil; rewrite Hnil in Hi; discriminate).
  intros [= <-].
  apply (set_extraction_columns_at _ _ 0 count _ i _ _ Hi). lia.
Qed.


(** C7.  In a query that extracts JSON fields (and no protobuf
    fields), every row of a chunk handed back by [NatsScanExecute]
    belongs to a message the broker served; when the payload of that
    message parses as JSON with root [root], the column of the [i]-th
    requested field holds: null when the root has no such member (or
    is no object); the text of a string; the text [std::to_string]
    gives for the double of a number; the text true or false for a
    boolean; null for a JSON null; and for an array or an object the
    text [yyjson_val_write] serialises it to. *)
Theorem json_extraction_by_kind (fuel : nat) (br : Broker) (bind : NatsScanBindData)
    (st st' : NatsScanGlobalState) (output output' : DataChunk) (row : nat) :
  proto_fields bind = [] ->
  NatsScanExecute fuel br bind st output = Returns (st', output') ->
  (row < cardinality output')%nat ->
  exists seq msg,
    js_DirectGetMsg br (stream_name bind) seq = DirectGet_OK msg
    /\ GetValue 2 row output' = Some (Value_UBIGINT seq)
    /\ forall root i field_name,
         yyjson_read (natsMsg_GetData msg) = Some root ->
         json_fields bind !! i = Some field_name ->
         (yyjson_obj_get root field_name = None ->
            GetValue (5 + i) row output' = Some Value_NULL)
         /\ (forall s, yyjson_obj_get root field_name = Some (yy_str s) ->
               GetValue (5 + i) row output' = Some (Value_VARCHAR s))
         /\ (forall d, yyjson_obj_get root field_name = Some (yy_num d) ->
               GetValue (5 + i) row output'
               = Some (Value_VARCHAR (to_string_double d)))
         /\ (yyjson_obj_get root field_name = Some (yy_bool true) ->
               GetValue (5 + i) row output' = Some (Value_VARCHAR "true"))
         /\ (yyjson_obj_get root field_name = Some (yy_bool false) ->
               GetValue (5 + i) row output' = Some (Value_VARCHAR "false"))
         /\ (yyjson_obj_get root field_name = Some yy_null ->
               GetValue (5 + i) row output' = Some Value_NULL)
         /\ (forall elems text,
               yyjson_obj_get root field_name = Some (yy_arr elems) ->
               yyjson_val_write (yy_arr elems) = Some text ->
               GetValue (5 + i) row output' = Some (Value_VARCHAR text))
         /\ (forall members text,
               yyjson_obj_get root field_name = Some (yy_obj members) ->
               yyjson_val_write (yy_obj members) = Some text ->
               GetValue (5 + i) row output' = Some (Value_VARCHAR text)).
Proof.
  intros Hproto H Hrow.
  destruct (NatsScanExecute_rows _ _ _ _ _ _ _ _ H Hrow)
    as (st_row & msg & b & a & Hget & _ & _ & Hemit & Hcells).
  destruct (emit_row_cells _ _ _ _ _ _ Hemit) as (_ & _ & _ & Hseq & _).
  exists (current_seq st_row), msg.
  split; [exact Hget|]. split; [rewrite Hcells; exact Hseq|].
  intros root i field_name Hread Hi.
  rewrite Hcells, (emit_row_json_cell _ _ _ _ _ _ _ _ _ Hproto Hread Hi Hemit).
  unfold json_field_value.
  repeat split; intros; repeat match goal with
                               | E : yyjson_obj_get _ _ = _ |- _ => rewrite E
                               | E : yyjson_val_write _ = _ |- _ => rewrite E
                               end; reflexivity.
Qed.


(** ** The order of the emitted sequences *)

Lemma wrap_u64_small (z : Z) : 0 <= z <= UINT64_MAX -> wrap_u64 z = z.
Proof. unfold wrap_u64, UINT64_MAX. intros H. apply Z.mod_small. lia. Qed.

Lemma wrap_u64_nonneg (z : Z) : 0 <= wrap_u64 z.
Proof. unfold wrap_u64. apply Z.mod_pos_bound. lia. Qed.

Lemma advance_no_wrap (st : NatsScanGlobalState) :
  0 <= current_seq st -> current_seq st < UINT64_MAX ->
  current_seq (advance st) = current_seq st + 1
  /\ effective_end_seq (advance st) = effective_end_seq st.
Proof.
  intros H0 H1. unfold advance. cbn. split; [|reflexivity].
  apply wrap_u64_small. lia.
Qed.

Lemma emitted_at_weaken (br : Broker) (bind : NatsScanBindData)
    (lo hi last lo' hi' s : Z) :
  lo' <= lo -> hi <= hi' -> emitted_at br bind lo hi last s ->
  emitted_at br bind lo' hi' last s.
Proof. unfold emitted_at. intros ? ? (? & ? & ?). repeat split; try lia; assumption. Qed.

(** Without wrap-around of the cursor, the [seq] cells of the new rows
    are strictly increasing, and each is a served sequence of the
    window. *)
Lemma fetch_loop_seqs (br : Broker) (bind : NatsScanBindData) (fuel : nat) :
  forall (st : NatsScanGlobalState) (count : nat) (output : DataChunk)
         (st' : NatsScanGlobalState) (count' : nat) (output' : DataChunk),
  0 <= current_seq st ->
  effective_end_seq st < UINT64_MAX ->
  fetch_loop fuel br bind st count output = Returns (st', count', output') ->
  current_seq st <= current_seq st'
  /\ exists seqs,
       count' = (count + length seqs)%nat
       /\ (forall k s, seqs !! k = Some s ->
             GetValue 2 (count + k) output' = Some (Value_UBIGINT s))
       /\ StronglySorted Z.lt seqs
       /\ Forall (emitted_at br bind (current_seq st) (current_seq st')
                    (effective_end_seq st)) seqs.
Proof.
  induction fuel as [|fuel IH]; intros st count output st' count' output' H0 Hend H.
  - rewrite fetch_loop_zero in H.
    destruct ((count <? STANDARD_VECTOR_SIZE)%nat
              && (current_seq st <=? effective_end_seq st)); [discriminate|].
    injection H as <- <- <-. split; [lia|]. exists [].
    split; [cbn; lia|]. split; [intros k s Hk; discriminate|].
    split; constructor.
  - rewrite fetch_loop_unfold in H.
    destruct ((count <? STANDARD_VECTOR_SIZE)%nat
              && (current_seq st <=? effective_end_seq st)) eqn:Hcond.
    2:{ injection H as <- <- <-. split; [lia|]. exists [].
        split; [cbn; lia|]. split; [intros k s Hk; discriminate|].
        split; constructor. }
    apply andb_true_iff in Hcond. destruct Hcond as [_ Hle].
    apply Z.leb_le in Hle.
    destruct (advance_no_wrap st H0 ltac:(lia)) as [Hadv Hadv_end].
    assert (Hskip : fetch_loop fuel br bind (advance st) count output
                    = Returns (st', count', output') ->
            current_seq st <= current_seq st'
            /\ exists seqs,
                 count' = (count + length seqs)%nat
                 /\ (forall k s, seqs !! k = Some s ->
                       GetValue 2 (count + k) output' = Some (Value_UBIGINT s))
                 /\ StronglySorted Z.lt seqs
                 /\ Forall (emitted_at br bind (current_seq st) (current_seq st')
                              (effective_end_seq st)) seqs).
    { intros Hloop. apply IH in Hloop; [|lia|lia].
      destruct Hloop as (Hcur & seqs & Hlen & Hcells & Hsorted & Hall).
      split; [lia|]. exists seqs. repeat split; try assumption.
      rewrite Hadv_end in Hall.
      eapply Forall_impl; [exact Hall|].
      intros s Hs. eapply emitted_at_weaken; [| |exact Hs]; lia. }
    destruct (js_DirectGetMsg br (stream_name bind) (current_seq st))
      as [msg| |s] eqn:Hget; [|exact (Hskip H)|discriminate].
    destruct (subject_rejected bind msg) eqn:Hrej; [exact (Hskip H)|].
    invert_bind H. rename a into out1.
    pose proof (fetch_loop_rows _ _ _ _ _ _ _ _ _ H) as (_ & _ & Hframe & _).
    apply IH in H; [|lia|lia].
    destruct H as (Hcur & seqs & Hlen & Hcells & Hsorted & Hall).
    destruct (emit_row_cells _ _ _ _ _ _ Hrun) as (_ & _ & _ & Hseq & _).
    rewrite Hadv_end in Hall.
    split; [lia|]. exists (current_seq st :: seqs).
    split; [cbn; lia|]. split; [|split].
    + intros [|k] s Hk; cbn in Hk.
      * injection Hk as <-. rewrite Nat.add_0_r, Hframe by lia. exact Hseq.
      * replace (count + S k)%nat with (S count + k)%nat by lia.
        apply Hcells. exact Hk.
    + constructor; [exact Hsorted|].
      eapply Forall_impl; [exact Hall|].
      intros s Hs. destruct Hs as [Hs _]. lia.
    + constructor.
      * unfold emitted_at. repeat split; try lia. eauto.
      * eapply Forall_impl; [exact Hall|].
        intros s Hs. eapply emitted_at_weaken; [| |exact Hs]; lia.
Qed.

(** The [seq] column of a chunk, from its cells. *)
Lemma chunk_column_seqs (chunk : DataChunk) (seqs : list Z) :
  cardinality chunk = length seqs ->
  (forall k s, seqs !! k = Some s ->
     GetValue 2 k chunk = Some (Value_UBIGINT s)) ->
  chunk_column 2 chunk = map (fun s => Some (Value_UBIGINT s)) seqs.
Proof.
  intros Hlen Hcells. unfold chunk_column. rewrite Hlen. clear Hlen.
  apply list_eq. intros k.
  rewrite !list_lookup_fmap.
  destruct (seqs !! k) as [s|] eqn:Hk; cbn.
  - rewrite lookup_seq_lt by (apply lookup_lt_Some in Hk; exact Hk).
    cbn. f_equal. apply Hcells. exact Hk.
  - rewrite lookup_seq_ge by (apply lookup_ge_None in Hk; exact Hk).
    reflexivity.
Qed.


(** One filled chunk, from a settled state. *)
Lemma fill_chunk_seqs (fuel : nat) (br : Broker) (bind : NatsScanBindData)
    (st st' : NatsScanGlobalState) (chunk : DataChunk) :
  settled bind st ->
  0 <= current_seq st ->
  effective_end_seq st < UINT64_MAX ->
  fill_chunk fuel br bind st reset_chunk = Returns (st', chunk) ->
  settled bind st'
  /\ effective_end_seq st' = effective_end_seq st
  /\ current_seq st <= current_seq st'
  /\ exists seqs,
       chunk_column 2 chunk = map (fun s => Some (Value_UBIGINT s)) seqs
       /\ StronglySorted Z.lt seqs
       /\ Forall (emitted_at br bind (current_seq st) (current_seq st')
                    (effective_end_seq st)) seqs.
Proof.
  intros Hset H0 Hend H. unfold fill_chunk in H.
  invert_bind H. destruct a as [[st2 count] out2].
  pose proof (fetch_loop_rows _ _ _ _ _ _ _ _ _ Hrun) as (_ & Hst2 & _ & _).
  apply fetch_loop_seqs in Hrun; [|exact H0|exact Hend].
  destruct Hrun as (Hcur & seqs & Hlen & Hcells & Hsorted & Hall).
  assert (Hst' : settled bind st' /\ effective_end_seq st' = effective_end_seq st
                 /\ current_seq st' = current_seq st2).
  { destruct (effective_end_seq st2 <? current_seq st2);
      injection H as <- _; rewrite Hst2;
      (split; [exact Hset | split; reflexivity]). }
  destruct Hst' as (Hset' & Hend' & Hcur').
  injection H as _ <-.
  split; [exact Hset'|]. split; [exact Hend'|]. split; [lia|].
  exists seqs. split; [|split; [exact Hsorted | rewrite Hcur'; exact Hall]].
  apply chunk_column_seqs; [cbn; lia|].
  intros k s Hk. rewrite GetValue_SetCardinality. apply (Hcells k s Hk).
Qed.

(** One call, from a settled state. *)
Lemma NatsScanExecute_settled_seqs (fuel : nat) (br : Broker)
    (bind : NatsScanBindData) (st st' : NatsScanGlobalState) (chunk : DataChunk) :
  settled bind st ->
  0 <= current_seq st ->
  effective_end_seq st < UINT64_MAX ->
  NatsScanExecute fuel br bind st reset_chunk = Returns (st', chunk) ->
  settled bind st'
  /\ effective_end_seq st' = effective_end_seq st
  /\ current_seq st <= current_seq st'
  /\ exists seqs,
       chunk_column 2 chunk = map (fun s => Some (Value_UBIGINT s)) seqs
       /\ StronglySorted Z.lt seqs
       /\ Forall (emitted_at br bind (current_seq st) (current_seq st')
                    (effective_end_seq st)) seqs.
Proof.
  intros Hset H0 Hend H. unfold NatsScanExecute in H.
  assert (Hnone : forall s, settled bind s -> effective_end_seq s = effective_end_seq st ->
            current_seq s = current_seq st ->
            Returns (s, SetCardinality 0 reset_chunk) = Returns (st', chunk) ->
            settled bind st'
            /\ effective_end_seq st' = effective_end_seq st
            /\ current_seq st <= current_seq st'
            /\ exists seqs,
                 chunk_column 2 chunk = map (fun s => Some (Value_UBIGINT s)) seqs
                 /\ StronglySorted Z.lt seqs
                 /\ Forall (emitted_at br bind (current_seq st) (current_seq st')
                              (effective_end_seq st)) seqs).
  { intros s Hs He Hc [= <- <-]. split; [exact Hs|]. split; [exact He|].
    split; [lia|]. exists []. split; [reflexivity|]. split; constructor. }
  destruct (done st); [exact (Hnone st Hset eq_refl eq_refl H)|].
  rewrite (prepare_scan_settled fuel br bind st Hset) in H. cbn in H.
  destruct (effective_end_seq st <? current_seq st).
  - exact (Hnone (set_done st) Hset eq_refl eq_refl H).
  - exact (fill_chunk_seqs fuel br bind st st' chunk Hset H0 Hend H).
Qed.


(** The resolver answers [UINT64_MAX] or a probed sequence, never a
    negative number. *)
Lemma ResolveTimestampToSequence_loop_nonneg (br : Broker) (stream : string)
    (timestamp_ns : Z) (fuel : nat) :
  forall left right result_seq r,
  0 <= result_seq ->
  ResolveTimestampToSequence_loop fuel br stream timestamp_ns left right result_seq
  = Returns r ->
  0 <= r.
Proof.
  induction fuel as [|fuel IH]; intros left right result_seq r Hres H; cbn in H.
  - destruct (left <=? right); [discriminate|]. injection H as <-. exact Hres.
  - destruct (left <=? right); [|injection H as <-; exact Hres].
    destruct (js_DirectGetMsg br stream _) as [msg| |s]; [| |discriminate].
    + destruct (natsMsg_GetTime msg >=? timestamp_ns).
      * eapply IH; [|exact H]. apply wrap_u64_nonneg.
      * eapply IH; [|exact H]. exact Hres.
    + eapply IH; [|exact H]. exact Hres.
Qed.

Lemma ResolveTimestampToSequence_nonneg (fuel : nat) (br : Broker) (stream : string)
    (timestamp_ns first_seq last_seq r : Z) :
  ResolveTimestampToSequence fuel br stream timestamp_ns first_seq last_seq
  = Returns r ->
  0 <= r.
Proof.
  unfold ResolveTimestampToSequence. intros H.
  eapply ResolveTimestampToSequence_loop_nonneg; [|exact H].
  unfold UINT64_MAX. lia.
Qed.

Lemma resolve_timestamps_cursor (fuel : nat) (br : Broker) (bind : NatsScanBindData)
    (st st1 : NatsScanGlobalState) :
  0 <= current_seq st ->
  resolve_timestamps fuel br bind st = Returns (Ready st1) ->
  0 <= current_seq st1.
Proof.
  unfold resolve_timestamps. intros H0.
  destruct (negb (timestamps_resolved st)
            && ((0 <? start_time bind) || (0 <? end_time bind))).
  2:{ intros [= <-]. exact H0. }
  destruct (stream_info st) as [info|]; [|discriminate].
  intros H. invert_bind H. rename a into r0.
  assert (Hr0 : match r0 with Ready s => 0 <= current_seq s | Finished _ => True end).
  { destruct (0 <? start_time bind).
    - invert_bind Hrun. apply ResolveTimestampToSequence_nonneg in Hrun0.
      destruct (a =? UINT64_MAX); injection Hrun as <-; [exact I | exact Hrun0].
    - injection Hrun as <-. exact H0. }
  destruct r0 as [st0|st0]; [|discriminate].
  invert_bind H. injection H as <-. cbn.
  destruct (0 <? end_time bind).
  - invert_bind Hrun0. destruct (negb (a0 =? UINT64_MAX));
      injection Hrun0 as <-; exact Hr0.
  - injection Hrun0 as <-. exact Hr0.
Qed.

Lemma prepare_scan_cursor (fuel : nat) (br : Broker) (bind : NatsScanBindData)
    (st st1 : NatsScanGlobalState) :
  0 <= current_seq st ->
  prepare_scan fuel br bind st = Returns (Ready st1) ->
  0 <= current_seq st1.
Proof.
  unfold prepare_scan. intros H0 H.
  invert_bind H. rename a into sta.
  invert_bind H. rename a into stb.
  invert_bind H. rename a into r0.
  apply create_connection_Returns in Hrun.
  apply create_jetstream_Returns in Hrun0.
  destruct Hrun as (_ & _ & _ & Hc1 & _).
  destruct Hrun0 as (_ & _ & _ & _ & Hc2 & _).
  destruct r0 as [st0|st0]; [|discriminate].
  apply resolve_timestamps_cursor in Hrun1; [|lia].
  destruct (effective_end_seq st0 <? current_seq st0); [discriminate|].
  injection H as <-. exact Hrun1.
Qed.

Lemma NatsScanInitGlobal_cursor (bind : NatsScanBindData) :
  0 < current_seq (NatsScanInitGlobal bind).
Proof.
  cbn. destruct (0 <? start_seq bind) eqn:H; [apply Z.ltb_lt in H; exact H | lia].
Qed.

Lemma emitted_seqs_cons (chunk : DataChunk) (chunks : list DataChunk) :
  emitted_seqs (chunk :: chunks) = (chunk_column 2 chunk ++ emitted_seqs chunks)%list.
Proof. reflexivity. Qed.

(** Strictly increasing lists of sequences, one below [mid] and one
    from [mid] on, join to a strictly increasing list. *)
Lemma StronglySorted_app_split (mid : Z) (l1 l2 : list Z) :
  StronglySorted Z.lt l1 -> StronglySorted Z.lt l2 ->
  Forall (fun s => s < mid) l1 -> Forall (fun s => mid <= s) l2 ->
  StronglySorted Z.lt (l1 ++ l2)%list.
Proof.
  intros H1 H2 Hlo Hhi. induction H1 as [|a l1 Hs IH Ha]; cbn; [exact H2|].
  apply Forall_cons_1 in Hlo. destruct Hlo as [Hamid Hlo].
  constructor; [apply IH; exact Hlo|].
  apply Forall_app. split; [exact Ha|].
  eapply Forall_impl; [exact Hhi|]. intros s Hs'. cbn in Hs'. lia.
Qed.

(** Any number of calls from a settled state. *)
Lemma run_query_settled (fuel : nat) (br : Broker) (bind : NatsScanBindData)
    (calls : nat) :
  forall (st st' : NatsScanGlobalState) (chunks : list DataChunk),
  settled bind st ->
  0 <= current_seq st ->
  effective_end_seq st < UINT64_MAX ->
  run_query calls fuel br bind st = Returns (chunks, st') ->
  exists seqs,
    emitted_seqs chunks = map (fun s => Some (Value_UBIGINT s)) seqs
    /\ StronglySorted Z.lt seqs
    /\ Forall (fun s => current_seq st <= s <= effective_end_seq st
                        /\ exists msg, js_DirectGetMsg br (stream_name bind) s
                                       = DirectGet_OK msg) seqs.
Proof.
  induction calls as [|calls IH]; intros st st' chunks Hset H0 Hend H; cbn in H.
  - injection H as <- <-. exists []. split; [reflexivity|]. split; constructor.
  - invert_bind H. destruct a as [st1 chunk].
    invert_bind H. destruct a as [chunks' st2].
    injection H as <- <-.
    apply NatsScanExecute_settled_seqs in Hrun; [|exact Hset|exact H0|exact Hend].
    destruct Hrun as (Hset1 & Hend1 & Hcur1 & seqs1 & Hcol1 & Hsort1 & Hall1).
    apply IH in Hrun0; [|exact Hset1|lia|lia].
    destruct Hrun0 as (seqs2 & Hcol2 & Hsort2 & Hall2).
    exists (seqs1 ++ seqs2)%list.
    rewrite emitted_seqs_cons, Hcol1, Hcol2, map_app.
    split; [reflexivity|]. split.
    + apply (StronglySorted_app_split (current_seq st1)); try assumption.
      * eapply Forall_impl; [exact Hall1|]. intros s (Hs & _). cbn. lia.
      * eapply Forall_impl; [exact Hall2|]. intros s (Hs & _). cbn. lia.
    + apply Forall_app. split.
      * eapply Forall_impl; [exact Hall1|].
        intros s (Hs & Hle & msg & Hmsg & _). split; [lia | eauto].
      * eapply Forall_impl; [exact Hall2|].
        intros s (Hs & Hmsg). cbn in *. split; [lia | exact Hmsg].
Qed.


Lemma run_query_unfold (calls fuel : nat) (br : Broker) (bind : NatsScanBindData)
    (st : NatsScanGlobalState) :
  run_query (S calls) fuel br bind st =
  '(st, chunk) ← NatsScanExecute fuel br bind st reset_chunk;
  '(chunks, st) ← run_query calls fuel br bind st;
  Returns (chunk :: chunks, st).
Proof. reflexivity. Qed.

(** C4, as amended.  Take a query whose first call gets past the
    preparation with
    the cursor [current_seq st1] (the effective start) and the end
    [effective_end_seq st1] (the effective end), the end being below
    [UINT64_MAX], the value the scan itself reserves for "no end given"
    and "no sequence found".  Then, over any number of calls, the
    [seq] cells of the emitted rows, in emission order, are the
    unsigned values of a strictly increasing list of sequences; each
    of them lies between the effective start and the effective end and
    is a sequence at which the broker served a message (so none is a
    sequence the broker reported as not found).  And a turn of the
    fetch loop that finds [NATS_NOT_FOUND] at the cursor is the rest of
    the loop from the next sequence, with the row count and the chunk
    unchanged: no row, no exception. *)
Theorem emitted_seqs_increasing_within_window (fuel calls : nat) (br : Broker)
    (bind : NatsScanBindData) (st1 st_end : NatsScanGlobalState)
    (chunks : list DataChunk) :
  prepare_scan fuel br bind (NatsScanInitGlobal bind) = Returns (Ready st1) ->
  effective_end_seq st1 < UINT64_MAX ->
  run_query calls fuel br bind (NatsScanInitGlobal bind) = Returns (chunks, st_end) ->
  (exists seqs,
     emitted_seqs chunks = map (fun s => Some (Value_UBIGINT s)) seqs
     /\ StronglySorted Z.lt seqs
     /\ Forall (fun s => current_seq st1 <= s <= effective_end_seq st1
                         /\ exists msg, js_DirectGetMsg br (stream_name bind) s
                                        = DirectGet_OK msg) seqs)
  /\ (forall fuel' st count output,
        (count < STANDARD_VECTOR_SIZE)%nat ->
        current_seq st <= effective_end_seq st ->
        js_DirectGetMsg br (stream_name bind) (current_seq st) = DirectGet_NOT_FOUND ->
        fetch_loop (S fuel') br bind st count output
        = fetch_loop fuel' br bind (advance st) count output).
Proof.
  intros Hprep Hend Hrun. split.
  - destruct calls as [|calls].
    { injection Hrun as <- <-. exists []. split; [reflexivity|]. split; constructor. }
    rewrite run_query_unfold in Hrun.
    invert_bind Hrun. destruct a as [st2 chunk].
    invert_bind Hrun. destruct a as [chunks' st3].
    injection Hrun as <- <-.
    unfold NatsScanExecute in Hrun0.
    change (done (NatsScanInitGlobal bind)) with false in Hrun0.
    cbv iota in Hrun0. rewrite Hprep in Hrun0. cbn in Hrun0.
    pose proof (prepare_scan_Returns _ _ _ _ _ Hprep) as (_ & Hset & _ & _).
    pose proof (prepare_scan_cursor _ _ _ _ _
                  (Z.lt_le_incl _ _ (NatsScanInitGlobal_cursor bind)) Hprep) as H0.
    apply fill_chunk_seqs in Hrun0; [|exact Hset|exact H0|exact Hend].
    destruct Hrun0 as (Hset2 & Hend2 & Hcur2 & seqs1 & Hcol1 & Hsort1 & Hall1).
    apply run_query_settled in Hrun1; [|exact Hset2|lia|lia].
    destruct Hrun1 as (seqs2 & Hcol2 & Hsort2 & Hall2).
    exists (seqs1 ++ seqs2)%list.
    rewrite emitted_seqs_cons, Hcol1, Hcol2, map_app.
    split; [reflexivity|]. split.
    + apply (StronglySorted_app_split (current_seq st2)); try assumption.
      * eapply Forall_impl; [exact Hall1|]. intros s (Hs & _). cbn. lia.
      * eapply Forall_impl; [exact Hall2|]. intros s (Hs & _). cbn. lia.
    + apply Forall_app. split.
      * eapply Forall_impl; [exact Hall1|].
        intros s (Hs & Hle & msg & Hmsg & _). split; [lia | eauto].
      * eapply Forall_impl; [exact Hall2|].
        intros s (Hs & Hmsg). cbn in *. split; [lia | exact Hmsg].
  - intros fuel' st count output Hcount Hle Hget.
    rewrite fetch_loop_unfold, Hget.
    apply Nat.ltb_lt in Hcount. apply Z.leb_le in Hle.
    rewrite Hcount, Hle. reflexivity.
Qed.

(** When the preparation of the first call ends the scan (no message
    at or after [start_time], or an empty window), no call emits a
    row. *)
Lemma run_query_finished (fuel : nat) (br : Broker) (bind : NatsScanBindData)
    (calls : nat) :
  forall (st st' : NatsScanGlobalState) (chunks : list DataChunk),
  (done st = true
   \/ exists st1, prepare_scan fuel br bind st = Returns (Finished st1)) ->
  run_query calls fuel br bind st = Returns (chunks, st') ->
  emitted_seqs chunks = [].
Proof.
  induction calls as [|calls IH]; intros st st' chunks Hfin H; cbn in H.
  - injection H as <- <-. reflexivity.
  - invert_bind H. destruct a as [st1 chunk].
    invert_bind H. destruct a as [chunks' st2].
    injection H as <- <-.
    assert (Hdone : done st1 = true /\ cardinality chunk = 0%nat).
    { unfold NatsScanExecute in Hrun. destruct (done st) eqn:Hd.
      - injection Hrun as <- <-. split; [exact Hd | reflexivity].
      - destruct Hfin as [Hfin | [st0 Hfin]]; [discriminate|].
        rewrite Hfin in Hrun. cbn in Hrun. injection Hrun as <- <-.
        apply prepare_scan_Returns in Hfin. destruct Hfin as [_ Hfin].
        split; [exact Hfin | reflexivity]. }
    destruct Hdone as [Hdone Hcard].
    rewrite emitted_seqs_cons. unfold chunk_column. rewrite Hcard. cbn.
    eapply IH; [|exact Hrun0]. left. exact Hdone.
Qed.



(** ** No null pointer is dereferenced *)

Lemma bind_Throws {A B : Type} (m : outcome A) (k : A -> outcome B) (e : Exception) :
  (m ≫= k) = Throws e ->
  m = Throws e \/ exists a, m = Returns a /\ k a = Throws e.
Proof.
  destruct m as [a| e' |]; cbn; intros H.
  - right. exists a. split; [reflexivity | exact H].
  - left. congruence.
  - discriminate.
Qed.

Lemma expect_ok_Throws (s : natsStatus) (f : natsStatus -> Exception) (e : Exception) :
  expect_ok s f = Throws e -> e = f s.
Proof. destruct s; cbn; intros H; congruence. Qed.

Lemma create_connection_no_null (br : Broker) (bind : NatsScanBindData)
    (st : NatsScanGlobalState) :
  create_connection br bind st <> Throws NullPointer.
Proof.
  unfold create_connection. destruct (conn st); [discriminate|].
  intros H.
  repeat (apply bind_Throws in H;
          destruct H as [H | (? & _ & H)];
          [apply expect_ok_Throws in H; discriminate|]).
  discriminate.
Qed.

Lemma create_jetstream_no_null (br : Broker) (bind : NatsScanBindData)
    (st : NatsScanGlobalState) :
  create_jetstream br bind st <> Throws NullPointer.
Proof.
  unfold create_jetstream. destruct (js st); [discriminate|].
  intros H.
  apply bind_Throws in H.
  destruct H as [H | (? & _ & H)]; [apply expect_ok_Throws in H; discriminate|].
  apply bind_Throws in H. destruct H as [H | (? & _ & H)]; [|discriminate].
  destruct (stream_info st); [discriminate|].
  destruct (js_GetStreamInfo br (stream_name bind)); discriminate.
Qed.

Lemma ResolveTimestampToSequence_no_null (fuel : nat) (br : Broker) (stream : string)
    (timestamp_ns : Z) :
  forall left right result_seq,
  ResolveTimestampToSequence_loop fuel br stream timestamp_ns left right result_seq
  <> Throws NullPointer.
Proof.
  induction fuel as [|fuel IH]; intros left right result_seq; cbn.
  - destruct (left <=? right); discriminate.
  - destruct (left <=? right); [|discriminate].
    destruct (js_DirectGetMsg br stream _) as [msg| |s]; [|apply IH|discriminate].
    destruct (natsMsg_GetTime msg >=? timestamp_ns); apply IH.
Qed.

Lemma resolve_timestamps_no_null (fuel : nat) (br : Broker) (bind : NatsScanBindData)
    (st : NatsScanGlobalState) :
  is_Some (stream_info st) ->
  resolve_timestamps fuel br bind st <> Throws NullPointer.
Proof.
  intros [info Hinfo]. unfold resolve_timestamps. rewrite Hinfo.
  destruct (negb (timestamps_resolved st)
            && ((0 <? start_time bind) || (0 <? end_time bind))); [|discriminate].
  intros H. apply bind_Throws in H. destruct H as [H | (r & _ & H)].
  - destruct (0 <? start_time bind); [|discriminate].
    apply bind_Throws in H. destruct H as [H | (a & _ & H)].
    + exact (ResolveTimestampToSequence_no_null _ _ _ _ _ _ _ H).
    + destruct (a =? UINT64_MAX); discriminate.
  - destruct r as [st0|st0]; [|discriminate].
    apply bind_Throws in H. destruct H as [H | (a & _ & H)]; [|discriminate].
    destruct (0 <? end_time bind); [|discriminate].
    apply bind_Throws in H. destruct H as [H | (a & _ & H)].
    + exact (ResolveTimestampToSequence_no_null _ _ _ _ _ _ _ H).
    + destruct (negb (a =? UINT64_MAX)); discriminate.
Qed.

(** The preparation keeps [state_ok] and meets no null pointer. *)
Lemma prepare_scan_state_ok (fuel : nat) (br : Broker) (bind : NatsScanBindData)
    (st : NatsScanGlobalState) :
  state_ok bind st ->
  prepare_scan fuel br bind st <> Throws NullPointer
  /\ forall r, prepare_scan fuel br bind st = Returns r ->
       state_ok bind (prepared_state r).
Proof.
  intros [Hinfo Hproto]. unfold prepare_scan.
  assert (Hjs : forall sta stb,
            create_connection br bind st = Returns sta ->
            create_jetstream br bind sta = Returns stb ->
            is_Some (stream_info stb) /\ proto_prototype stb = proto_prototype st).
  { intros sta stb Ha Hb.
    apply create_connection_Returns in Ha. apply create_jetstream_Returns in Hb.
    destruct Ha as (_ & Hj1 & Hs1 & _ & _ & _ & _ & Hp1).
    destruct Hb as (_ & _ & Hsame & Hnew & _ & _ & _ & Hp2).
    split; [|congruence].
    destruct (js sta) eqn:Hjsa.
    - rewrite (Hsame eq_refl), Hs1. apply Hinfo. congruence.
    - apply Hnew. reflexivity. }
  split.
  - intros H. apply bind_Throws in H. destruct H as [H | (sta & Ha & H)].
    { exact (create_connection_no_null _ _ _ H). }
    apply bind_Throws in H. destruct H as [H | (stb & Hb & H)].
    { exact (create_jetstream_no_null _ _ _ H). }
    destruct (Hjs sta stb Ha Hb) as [Hsome _].
    apply bind_Throws in H. destruct H as [H | (r & _ & H)].
    { exact (resolve_timestamps_no_null _ _ _ _ Hsome H). }
    destruct r as [st0|st0]; [|discriminate].
    destruct (effective_end_seq st0 <? current_seq st0); discriminate.
  - intros r H. invert_bind H. rename a into sta.
    invert_bind H. rename a into stb. invert_bind H. rename a into r0.
    destruct (Hjs sta stb Hrun Hrun0) as [Hsome Hp].
    apply resolve_timestamps_Returns in Hrun1.
    destruct Hrun1 as (_ & _ & Hs3 & Hp3 & _).
    assert (Hok : state_ok bind (prepared_state r0)).
    { split; [intros _; congruence | rewrite Hp3, Hp; exact Hproto]. }
    destruct r0 as [st0|st0]; cbn in *.
    + destruct (effective_end_seq st0 <? current_seq st0); injection H as <-; exact Hok.
    + injection H as <-. exact Hok.
Qed.

Lemma emit_row_no_null (bind : NatsScanBindData) (st : NatsScanGlobalState)
    (msg : natsMsg) (count : nat) (output : DataChunk) :
  (is_Some (proto_prototype st) -> is_Some (proto_descriptor bind)) ->
  exists output', emit_row bind st msg count output = Returns output'.
Proof.
  intros Hproto. unfold emit_row, extract_proto_fields.
  destruct (negb (vector_empty (proto_fields bind))); [|eauto].
  destruct (proto_prototype st) as [prototype|]; [|eauto].
  destruct (ParseFromArray prototype (natsMsg_GetData msg)); [|eauto].
  destruct (Hproto ltac:(eauto)) as [root ->]. eauto.
Qed.

Lemma fetch_loop_no_null (br : Broker) (bind : NatsScanBindData) (fuel : nat) :
  forall (st : NatsScanGlobalState) (count : nat) (output : DataChunk),
  (is_Some (proto_prototype st) -> is_Some (proto_descriptor bind)) ->
  fetch_loop fuel br bind st count output <> Throws NullPointer.
Proof.
  induction fuel as [|fuel IH]; intros st count output Hproto.
  - rewrite fetch_loop_zero. destruct (_ && _); discriminate.
  - rewrite fetch_loop_unfold. destruct (_ && _); [|discriminate].
    destruct (js_DirectGetMsg br (stream_name bind) (current_seq st)) as [msg| |s];
      [|apply IH; exact Hproto|discriminate].
    destruct (subject_rejected bind msg); [apply IH; exact Hproto|].
    destruct (emit_row_no_null bind st msg count output Hproto) as [out1 ->].
    cbn. apply IH. exact Hproto.
Qed.

(** X5.  From a state of the query (one reached from
    [NatsScanInitGlobal] by calls of [NatsScanExecute]), no call
    dereferences a null pointer, and the state it leaves is again a
    state of the query. *)
Lemma NatsScanExecute_no_null (fuel : nat) (br : Broker) (bind : NatsScanBindData)
    (st : NatsScanGlobalState) (output : DataChunk) :
  state_ok bind st ->
  NatsScanExecute fuel br bind st output <> Throws NullPointer
  /\ forall st' output',
       NatsScanExecute fuel br bind st output = Returns (st', output') ->
       state_ok bind st'.
Proof.
  intros Hok. unfold NatsScanExecute.
  destruct (done st).
  { split; [discriminate | intros st' output' [= <- _]; exact Hok]. }
  destruct (prepare_scan_state_ok fuel br bind st Hok) as [Hnull Hkeep].
  destruct (prepare_scan fuel br bind st) as [r| e |] eqn:Hprep; cbn.
  2:{ split; [congruence | discriminate]. }
  2:{ split; discriminate. }
  specialize (Hkeep r eq_refl).
  destruct r as [st1|st1]; cbn in Hkeep.
  2:{ split; [discriminate | intros st' output' [= <- _]; exact Hkeep]. }
  unfold fill_chunk. destruct Hkeep as [Hinfo Hproto].
  pose proof (fetch_loop_no_null br bind fuel st1 0 output Hproto) as Hloop.
  destruct (fetch_loop fuel br bind st1 0 output) as [[[st2 count] out2]| e |] eqn:Hrun;
    cbn.
  2:{ split; [congruence | discriminate]. }
  2:{ split; discriminate. }
  split; [discriminate|].
  apply fetch_loop_rows in Hrun. destruct Hrun as (_ & Hst2 & _ & _).
  intros st' output' H.
  assert (Hst' : state_ok bind st2) by (rewrite Hst2; split; assumption).
  destruct (effective_end_seq st2 <? current_seq st2); injection H as <- _; exact Hst'.
Qed.

Lemma NatsScanInitGlobal_state_ok (bind : NatsScanBindData) :
  state_ok bind (NatsScanInitGlobal bind).
Proof.
  split; cbn; [discriminate|].
  destruct (negb (vector_empty (proto_fields bind))); [tauto|].
  intros [? ?]. discriminate.
Qed.


(** ** The resolver on streams without gaps, and termination *)

Lemma mid_in_range (left right : Z) :
  0 <= left -> left <= right -> right <= UINT64_MAX ->
  wrap_u64 (left + wrap_u64 (right - left) / 2) = left + (right - left) / 2
  /\ left <= left + (right - left) / 2 <= right.
Proof.
  intros H0 Hle Hmax.
  assert (Hd : 0 <= (right - left) / 2 <= right - left).
  { split; [apply Z.div_pos; lia|]. apply Z.div_le_upper_bound; lia. }
  rewrite (wrap_u64_small (right - left)) by lia.
  rewrite wrap_u64_small by lia. lia.
Qed.

Lemma half_widths (left right p : Z) :
  left <= right -> right - left + 1 < 2 * p ->
  right - (left + (right - left) / 2 + 1) + 1 < p
  /\ (left + (right - left) / 2 - 1) - left + 1 < p.
Proof.
  intros Hle Hw.
  pose proof (Z.div_mod (right - left) 2 ltac:(lia)) as Hdm.
  pose proof (Z.mod_pos_bound (right - left) 2 ltac:(lia)) as Hm.
  lia.
Qed.

(** On a stream without gaps and with monotone timestamps, the
    search returns the smallest sequence at or after the target, or
    [UINT64_MAX] when there is none. *)
Lemma ResolveTimestampToSequence_loop_dense (br : Broker) (stream : string)
    (target first last : Z) (fuel : nat) :
  0 < first -> last < UINT64_MAX ->
  dense br stream first last ->
  monotone_times br stream first last ->
  forall left right result_seq,
  first <= left -> right <= last -> left <= right + 1 ->
  right - left + 1 < 2 ^ Z.of_nat fuel ->
  (forall s msg, first <= s < left ->
     js_DirectGetMsg br stream s = DirectGet_OK msg ->
     natsMsg_GetTime msg < target) ->
  ((result_seq = UINT64_MAX /\ right = last)
   \/ (result_seq = right + 1 /\ result_seq <= last
       /\ exists msg, js_DirectGetMsg br stream result_seq = DirectGet_OK msg
                      /\ target <= natsMsg_GetTime msg)) ->
  exists r,
    ResolveTimestampToSequence_loop fuel br stream target left right result_seq
    = Returns r
    /\ ((r = UINT64_MAX /\ none_at_or_after br stream target first last)
        \/ first_at_or_after br stream target first last r).
Proof.
  intros Hfirst Hlast Hdense Hmono.
  induction fuel as [|fuel IH];
    intros left right result_seq Hl Hr Hlr Hwidth Hbelow Hres.
  - cbn in Hwidth. assert (Hgt : (left <=? right) = false) by (apply Z.leb_gt; lia).
    cbn. rewrite Hgt. exists result_seq. split; [reflexivity|].
    destruct Hres as [[-> ->] | (-> & Hle & msg & Hget & Htime)].
    + left. split; [reflexivity|]. intros s msg Hs. apply Hbelow. lia.
    + right. split; [lia|]. split; [eauto|].
      intros s m Hs. apply Hbelow. lia.
  - cbn [ResolveTimestampToSequence_loop].
    destruct (left <=? right) eqn:Hcmp.
    2:{ apply Z.leb_gt in Hcmp. exists result_seq. split; [reflexivity|].
        destruct Hres as [[-> ->] | (-> & Hle & msg & Hget & Htime)].
        - left. split; [reflexivity|]. intros s msg Hs. apply Hbelow. lia.
        - right. split; [lia|]. split; [eauto|].
          intros s m Hs. apply Hbelow. lia. }
    apply Z.leb_le in Hcmp.
    destruct (mid_in_range left right ltac:(lia) Hcmp ltac:(lia)) as [Hmid Hin].
    cbv zeta. rewrite Hmid. set (mid := left + (right - left) / 2) in *.
    rewrite Nat2Z.inj_succ, Z.pow_succ_r in Hwidth by lia.
    destruct (half_widths left right _ Hcmp Hwidth) as [Hw1 Hw2].
    fold mid in Hw1, Hw2.
    destruct (Hdense mid ltac:(lia)) as [msg Hget]. rewrite Hget.
    destruct (natsMsg_GetTime msg >=? target) eqn:Htime.
    + rewrite (wrap_u64_small (mid - 1)) by lia.
      apply IH; try lia; [exact Hbelow|].
      right. split; [lia|]. split; [lia|]. exists msg. split; [exact Hget | lia].
    + rewrite (wrap_u64_small (mid + 1)) by lia.
      apply IH; try lia.
      * intros s m Hs Hgs.
        destruct (Z.lt_ge_cases s left) as [Hlt | Hge]; [apply (Hbelow s m); [lia | exact Hgs]|].
        pose proof (Hmono s mid m msg ltac:(lia) ltac:(lia) Hgs Hget). lia.
      * destruct Hres as [Hres | (-> & Hle & m & Hgm & Htm)]; [left; exact Hres|].
        right. split; [reflexivity|]. split; [exact Hle|]. eauto.
Qed.

(** The search ends within 64 probes on any window
    [[first_seq, last_seq]] with [0 < first_seq] and
    [last_seq < UINT64_MAX], unless the broker reports an error. *)
Lemma ResolveTimestampToSequence_loop_returns (br : Broker) (stream : string)
    (target : Z) (fuel : nat) :
  forall left right result_seq,
  0 < left -> right < UINT64_MAX ->
  right - left + 1 < 2 ^ Z.of_nat fuel ->
  (forall s e, left <= s <= right -> js_DirectGetMsg br stream s <> DirectGet_ERR e) ->
  exists r,
    ResolveTimestampToSequence_loop fuel br stream target left right result_seq
    = Returns r.
Proof.
  induction fuel as [|fuel IH]; intros left right result_seq Hl Hr Hwidth Hok.
  - cbn in Hwidth. assert (Hgt : (left <=? right) = false) by (apply Z.leb_gt; lia).
    cbn. rewrite Hgt. eauto.
  - cbn [ResolveTimestampToSequence_loop].
    destruct (left <=? right) eqn:Hcmp; [|eauto].
    apply Z.leb_le in Hcmp.
    destruct (mid_in_range left right ltac:(lia) Hcmp ltac:(lia)) as [Hmid Hin].
    cbv zeta. rewrite Hmid. set (mid := left + (right - left) / 2) in *.
    rewrite Nat2Z.inj_succ, Z.pow_succ_r in Hwidth by lia.
    destruct (half_widths left right _ Hcmp Hwidth) as [Hw1 Hw2].
    fold mid in Hw1, Hw2.
    assert (Hup : exists r, ResolveTimestampToSequence_loop fuel br stream target
                              (wrap_u64 (mid + 1)) right result_seq = Returns r).
    { rewrite (wrap_u64_small (mid + 1)) by lia.
      apply IH; try lia. intros s e Hs. apply Hok. lia. }
    destruct (js_DirectGetMsg br stream mid) as [msg| |s] eqn:Hget;
      [|exact Hup|exfalso; exact (Hok mid s ltac:(lia) Hget)].
    destruct (natsMsg_GetTime msg >=? target); [|exact Hup].
    rewrite (wrap_u64_small (mid - 1)) by lia.
    apply IH; try lia. intros s e Hs. apply Hok. lia.
Qed.


(** On every stream, gaps or not: an answer other than [UINT64_MAX]
    is a sequence at which the broker served a message with a
    timestamp at or after the target. *)
Lemma ResolveTimestampToSequence_loop_sound (br : Broker) (stream : string)
    (target : Z) (fuel : nat) :
  forall left right result_seq r,
  (result_seq = UINT64_MAX
   \/ exists msg, js_DirectGetMsg br stream result_seq = DirectGet_OK msg
                  /\ target <= natsMsg_GetTime msg) ->
  ResolveTimestampToSequence_loop fuel br stream target left right result_seq
  = Returns r ->
  r = UINT64_MAX
  \/ exists msg, js_DirectGetMsg br stream r = DirectGet_OK msg
                 /\ target <= natsMsg_GetTime msg.
Proof.
  induction fuel as [|fuel IH]; intros left right result_seq r Hres H; cbn in H.
  - destruct (left <=? right); [discriminate|]. injection H as <-. exact Hres.
  - destruct (left <=? right); [|injection H as <-; exact Hres].
    destruct (js_DirectGetMsg br stream
                (wrap_u64 (left + wrap_u64 (right - left) / 2)))
      as [msg| |s] eqn:Hget; [| |discriminate].
    + destruct (natsMsg_GetTime msg >=? target) eqn:Htime.
      * eapply IH; [|exact H]. right. exists msg. split; [exact Hget | lia].
      * eapply IH; [|exact H]. exact Hres.
    + eapply IH; [|exact H]. exact Hres.
Qed.

(** X1.  Whatever the gaps, an answer of the search other than
    [UINT64_MAX] is a sequence at which the stream holds a message
    whose timestamp is at or after the target. *)
Theorem resolver_answer_is_at_or_after (fuel : nat) (br : Broker) (stream : string)
    (target first_seq last_seq r : Z) :
  ResolveTimestampToSequence fuel br stream target first_seq last_seq = Returns r ->
  r <> UINT64_MAX ->
  exists msg, js_DirectGetMsg br stream r = DirectGet_OK msg
              /\ target <= natsMsg_GetTime msg.
Proof.
  unfold ResolveTimestampToSequence. intros H Hne.
  destruct (ResolveTimestampToSequence_loop_sound _ _ _ _ _ _ _ _
              (or_introl eq_refl) H) as [Hmax | Hmsg];
    [contradiction | exact Hmsg].
Qed.

Lemma pow2_fuel (fuel : nat) : (64 <= fuel)%nat -> 2 ^ 64 <= 2 ^ Z.of_nat fuel.
Proof. intros H. apply Z.pow_le_mono_r; lia. Qed.

(** X2.  The search is right on a stream without gaps: with
    [0 < first_seq <= last_seq + 1], [last_seq < UINT64_MAX], a
    message at every sequence of the window and timestamps that do
    not decrease, 64 probes are enough, and the answer is the
    smallest sequence whose timestamp is at or after the target, or
    [UINT64_MAX] when no message of the window is that late. *)
Theorem resolver_first_at_or_after_without_gaps (fuel : nat) (br : Broker)
    (stream : string) (target first_seq last_seq : Z) :
  (64 <= fuel)%nat ->
  0 < first_seq -> first_seq <= last_seq + 1 -> last_seq < UINT64_MAX ->
  dense br stream first_seq last_seq ->
  monotone_times br stream first_seq last_seq ->
  exists r,
    ResolveTimestampToSequence fuel br stream target first_seq last_seq = Returns r
    /\ ((r = UINT64_MAX /\ none_at_or_after br stream target first_seq last_seq)
        \/ first_at_or_after br stream target first_seq last_seq r).
Proof.
  intros Hfuel Hfirst Hle Hlast Hdense Hmono. unfold ResolveTimestampToSequence.
  apply (ResolveTimestampToSequence_loop_dense br stream target first_seq last_seq
           fuel Hfirst Hlast Hdense Hmono); try lia.
  pose proof (pow2_fuel fuel Hfuel). unfold UINT64_MAX in Hlast. lia.
Qed.

(** X3.  The search ends: within 64 probes on a window with
    [0 < first_seq] and [last_seq < UINT64_MAX], whatever the gaps,
    it returns, unless the broker reports an error at a probe. *)
Theorem resolver_returns_within_64_probes (fuel : nat) (br : Broker)
    (stream : string) (target first_seq last_seq : Z) :
  (64 <= fuel)%nat ->
  0 < first_seq -> last_seq < UINT64_MAX ->
  (forall s e, first_seq <= s <= last_seq ->
     js_DirectGetMsg br stream s <> DirectGet_ERR e) ->
  exists r,
    ResolveTimestampToSequence fuel br stream target first_seq last_seq = Returns r.
Proof.
  intros Hfuel Hfirst Hlast Hok. unfold ResolveTimestampToSequence.
  apply ResolveTimestampToSequence_loop_returns; try assumption.
  pose proof (pow2_fuel fuel Hfuel). unfold UINT64_MAX in Hlast. lia.
Qed.

(** The fetch loop returns when the broker reports no error in the
    window and the fuel covers the window. *)
Lemma fetch_loop_total (br : Broker) (bind : NatsScanBindData) (fuel : nat) :
  forall (st : NatsScanGlobalState) (count : nat) (output : DataChunk),
  (is_Some (proto_prototype st) -> is_Some (proto_descriptor bind)) ->
  0 <= current_seq st ->
  effective_end_seq st < UINT64_MAX ->
  (forall s e, current_seq st <= s <= effective_end_seq st ->
     js_DirectGetMsg br (stream_name bind) s <> DirectGet_ERR e) ->
  effective_end_seq st - current_seq st < Z.of_nat fuel ->
  exists r, fetch_loop fuel br bind st count output = Returns r.
Proof.
  induction fuel as [|fuel IH]; intros st count output Hproto H0 Hend Hok Hfuel.
  - rewrite fetch_loop_zero.
    assert (Hgt : (current_seq st <=? effective_end_seq st) = false)
      by (apply Z.leb_gt; lia).
    rewrite Hgt, andb_false_r. eauto.
  - rewrite fetch_loop_unfold.
    destruct ((count <? STANDARD_VECTOR_SIZE)%nat
              && (current_seq st <=? effective_end_seq st)) eqn:Hcond; [|eauto].
    apply andb_true_iff in Hcond. destruct Hcond as [_ Hle]. apply Z.leb_le in Hle.
    destruct (advance_no_wrap st H0 ltac:(lia)) as [Hadv Hadv_end].
    assert (Hnext : forall count' output',
              exists r, fetch_loop fuel br bind (advance st) count' output' = Returns r).
    { intros count' output'. apply IH.
      - exact Hproto.
      - lia.
      - lia.
      - intros s e Hs. apply Hok. lia.
      - lia. }
    destruct (js_DirectGetMsg br (stream_name bind) (current_seq st))
      as [msg| |s] eqn:Hget;
      [|apply Hnext|exfalso; exact (Hok (current_seq st) s ltac:(lia) Hget)].
    destruct (subject_rejected bind msg); [apply Hnext|].
    destruct (emit_row_no_null bind st msg count output Hproto) as [out1 ->].
    cbn. apply Hnext.
Qed.

(** X4.  The fetch loop ends within as many turns as the window has
    sequences, unless the broker reports an error. *)
Lemma fetch_loop_returns (br : Broker) (bind : NatsScanBindData) (fuel : nat) :
  forall (st : NatsScanGlobalState) (count : nat) (output : DataChunk),
  (is_Some (proto_prototype st) -> is_Some (proto_descriptor bind)) ->
  0 <= current_seq st ->
  effective_end_seq st < UINT64_MAX ->
  (forall s e, current_seq st <= s <= effective_end_seq st ->
     js_DirectGetMsg br (stream_name bind) s <> DirectGet_ERR e) ->
  effective_end_seq st - current_seq st < Z.of_nat fuel ->
  exists r, fetch_loop fuel br bind st count output = Returns r.
Proof. exact (fetch_loop_total br bind fuel). Qed.

(** ** Field paths and the schema *)

Lemma path_parts_loop_nonempty (turns : nat) :
  forall field_path start end_ path_parts,
  path_parts_loop turns field_path start end_ path_parts <> [].
Proof.
  induction turns as [|turns IH]; intros field_path start end_ path_parts.
  - destruct end_; cbn; intros H; apply app_eq_nil in H; destruct H; discriminate.
  - destruct end_ as [e|]; cbn.
    + apply IH.
    + intros H; apply app_eq_nil in H; destruct H; discriminate.
Qed.

Lemma split_field_path_nonempty (field_path : string) :
  split_field_path field_path <> [].
Proof. apply path_parts_loop_nonempty. Qed.

(** The walk of [GetFieldDescriptorForPath] finds exactly the leaf the
    path resolves to. *)
Lemma GetFieldDescriptorForPath_loop_resolves (path_parts : list string) :
  forall (d : Descriptor) (field : option FieldDescriptor) (leaf : FieldDescriptor),
  path_parts <> [] ->
  GetFieldDescriptorForPath_loop d path_parts field = Some leaf
  <-> resolves d path_parts leaf.
Proof.
  induction path_parts as [|part rest IH]; intros d field leaf Hne; [congruence|].
  cbn [GetFieldDescriptorForPath_loop]. split.
  - destruct (FindFieldByName d part) as [f|] eqn:Hf; [|discriminate].
    destruct rest as [|next rest'].
    + intros [= <-]. constructor. exact Hf.
    + destruct (decide (FieldDescriptor_type f = TYPE_MESSAGE)) as [Ht|]; [|discriminate].
      intros H. apply IH in H; [|discriminate].
      eapply resolves_step; eauto; discriminate.
  - intros H.
    inversion H as [d' p' f Hfind | d' p' f r' l' Hfind Htype Hrest Hres]; subst.
    + rewrite Hfind. reflexivity.
    + rewrite Hfind. destruct rest as [|next rest']; [congruence|].
      destruct (decide (FieldDescriptor_type f = TYPE_MESSAGE)); [|contradiction].
      apply IH; [discriminate | assumption].
Qed.

Lemma resolves_unique (d : Descriptor) (path_parts : list string)
    (leaf1 leaf2 : FieldDescriptor) :
  resolves d path_parts leaf1 -> resolves d path_parts leaf2 -> leaf1 = leaf2.
Proof.
  intros H1 H2.
  assert (Hne : path_parts <> []) by (inversion H1; discriminate).
  apply (GetFieldDescriptorForPath_loop_resolves _ d None _ Hne) in H1.
  apply (GetFieldDescriptorForPath_loop_resolves _ d None _ Hne) in H2.
  congruence.
Qed.

(** The validation of bind accepts exactly the paths that resolve. *)
Lemma validate_path_loop_resolves (path_parts : list string) :
  forall (d : Descriptor) (field_path : string),
  path_parts <> [] ->
  validate_path_loop d path_parts field_path = Returns tt
  <-> exists leaf, resolves d path_parts leaf.
Proof.
  induction path_parts as [|part rest IH]; intros d field_path Hne; [congruence|].
  cbn [validate_path_loop]. split.
  - destruct (FindFieldByName d part) as [f|] eqn:Hf; [|discriminate].
    destruct rest as [|next rest'].
    + intros _. exists f. constructor. exact Hf.
    + destruct (decide (FieldDescriptor_type f = TYPE_MESSAGE)) as [Ht|]; [|discriminate].
      intros H. apply IH in H; [|discriminate]. destruct H as [leaf Hleaf].
      exists leaf. eapply resolves_step; eauto; discriminate.
  - intros [leaf H].
    inversion H as [d' p' f Hfind | d' p' f r' l' Hfind Htype Hrest Hres]; subst.
    + rewrite Hfind. reflexivity.
    + rewrite Hfind. destruct rest as [|next rest']; [congruence|].
      destruct (decide (FieldDescriptor_type f = TYPE_MESSAGE)); [|contradiction].
      apply IH; [discriminate | eauto].
Qed.

Lemma validate_path_loop_total (path_parts : list string) :
  forall (d : Descriptor) (field_path : string),
  validate_path_loop d path_parts field_path = Returns tt
  \/ exists e, validate_path_loop d path_parts field_path = Throws e.
Proof.
  induction path_parts as [|part rest IH]; intros d field_path; cbn; [by left|].
  destruct (FindFieldByName d part) as [f|]; [|right; eauto].
  destruct rest as [|next rest']; [by left|].
  destruct (decide (FieldDescriptor_type f = TYPE_MESSAGE)); [apply IH | right; eauto].
Qed.

Lemma validate_proto_fields_Returns (d : Descriptor) (fields : list string) :
  validate_proto_fields d fields = Returns tt
  <-> Forall (fun field_path =>
                exists leaf, resolves d (split_field_path field_path) leaf) fields.
Proof.
  induction fields as [|field_path rest IH]; cbn.
  - split; [constructor | reflexivity].
  - pose proof (validate_path_loop_resolves _ d field_path
                  (split_field_path_nonempty field_path)) as Hpath.
    split.
    + intros H. invert_bind H. destruct a.
      constructor; [apply Hpath; exact Hrun | apply IH; exact H].
    + intros H. apply Forall_cons_1 in H. destruct H as [H1 H2].
      apply Hpath in H1. rewrite H1. cbn. apply IH. exact H2.
Qed.

Lemma validate_proto_fields_total (d : Descriptor) (fields : list string) :
  validate_proto_fields d fields = Returns tt
  \/ exists e, validate_proto_fields d fields = Throws e.
Proof.
  induction fields as [|field_path rest IH]; cbn; [by left|].
  destruct (validate_path_loop_total (split_field_path field_path) d field_path)
    as [-> | [e ->]]; cbn; [exact IH | right; eauto].
Qed.

(** The Type Mapper of the source is the table. *)
Lemma ProtobufTypeToDuckDBType_table (field : FieldDescriptor) :
  ProtobufTypeToDuckDBType field = type_mapper (FieldDescriptor_type field).
Proof.
  unfold ProtobufTypeToDuckDBType. destruct (FieldDescriptor_type field); reflexivity.
Qed.


(** ** Bind *)

(** Case analysis on the chain of name comparisons of
    [bind_named_parameter]. *)
Ltac split_name_tests :=
  repeat match goal with
         | |- context [if String.eqb ?a ?b then _ else _] =>
             let E := fresh "Ename" in destruct (String.eqb a b) eqn:E
         end.

Lemma bind_named_parameter_json_fields (l : BindLocals) (kv : string * Value) :
  l_json_fields (bind_named_parameter l kv)
  = (l_json_fields l
     ++ (if String.eqb (fst kv) "json_extract"
         then map StringValue_Get (ListValue_GetChildren (snd kv)) else []))%list.
Proof.
  destruct kv as [name v], l. cbn [fst snd].
  destruct (String.eqb name "json_extract") eqn:E.
  - apply String.eqb_eq in E. subst name. reflexivity.
  - unfold bind_named_parameter. split_name_tests; cbn;
      try rewrite app_nil_r; try reflexivity; congruence.
Qed.

Lemma bind_named_parameter_proto_fields (l : BindLocals) (kv : string * Value) :
  l_proto_fields (bind_named_parameter l kv)
  = (l_proto_fields l
     ++ (if String.eqb (fst kv) "proto_extract"
         then map StringValue_Get (ListValue_GetChildren (snd kv)) else []))%list.
Proof.
  destruct kv as [name v], l. cbn [fst snd].
  destruct (String.eqb name "proto_extract") eqn:E.
  - apply String.eqb_eq in E. subst name. reflexivity.
  - unfold bind_named_parameter. split_name_tests; cbn;
      try rewrite app_nil_r; try reflexivity; congruence.
Qed.

Lemma fold_bind_named_parameter_fields (params : list (string * Value)) :
  forall l : BindLocals,
  l_json_fields (fold_left bind_named_parameter params l)
  = (l_json_fields l
     ++ flat_map (fun kv : string * Value =>
                    if String.eqb (fst kv) "json_extract"
                    then map StringValue_Get (ListValue_GetChildren (snd kv))
                    else []) params)%list
  /\ l_proto_fields (fold_left bind_named_parameter params l)
     = (l_proto_fields l
        ++ flat_map (fun kv : string * Value =>
                       if String.eqb (fst kv) "proto_extract"
                       then map StringValue_Get (ListValue_GetChildren (snd kv))
                       else []) params)%list.
Proof.
  induction params as [|kv params IH]; intros l; cbn [fold_left flat_map].
  - rewrite !app_nil_r. split; reflexivity.
  - destruct (IH (bind_named_parameter l kv)) as [Hj Hp].
    rewrite Hj, Hp, bind_named_parameter_json_fields,
      bind_named_parameter_proto_fields, <- !app_assoc.
    split; reflexivity.
Qed.

(** The extraction lists of bind are the requested ones, in order. *)
Lemma bind_locals_fields (input : TableFunctionBindInput) :
  l_json_fields (bind_locals input) = requested_fields "json_extract" input
  /\ l_proto_fields (bind_locals input) = requested_fields "proto_extract" input.
Proof.
  unfold bind_locals, bind_named_parameters, requested_fields.
  destruct (fold_bind_named_parameter_fields (named_parameters input) default_locals)
    as [Hj Hp].
  rewrite Hj, Hp. split; reflexivity.
Qed.

(** The columns the two loops of bind append. *)
Lemma fold_add_json_column (fields : list string) :
  forall s : Schema,
  fold_left add_json_column fields s
  = {| names := names s ++ fields;
       return_types := return_types s ++ map (fun _ => VARCHAR) fields |}.
Proof.
  induction fields as [|field rest IH]; intros s; cbn [fold_left map].
  - rewrite !app_nil_r. destruct s; reflexivity.
  - rewrite IH. unfold add_json_column, add_column, emplace_back. cbn.
    rewrite <- !app_assoc. reflexivity.
Qed.

Lemma fold_add_proto_column (descriptor : option Descriptor) (fields : list string) :
  forall s : Schema,
  fold_left (add_proto_column descriptor) fields s
  = {| names := names s ++ map replace_dots fields;
       return_types := return_types s ++ map (proto_column_type descriptor) fields |}.
Proof.
  induction fields as [|field rest IH]; intros s; cbn [fold_left map].
  - rewrite !app_nil_r. destruct s; reflexivity.
  - rewrite IH. unfold add_proto_column, proto_column_type.
    destruct descriptor as [d|]; [destruct (GetFieldDescriptorForPath d field)|];
      unfold add_column, emplace_back; cbn; rewrite <- !app_assoc; reflexivity.
Qed.

Lemma define_return_schema_columns (l : BindLocals) (descriptor : option Descriptor) :
  define_return_schema l descriptor {| names := []; return_types := [] |}
  = {| names := ["stream"; "subject"; "seq"; "ts_nats"; "payload"]
                ++ l_json_fields l ++ map replace_dots (l_proto_fields l);
       return_types :=
         [VARCHAR; VARCHAR; UBIGINT; TIMESTAMP;
          if negb (vector_empty (l_proto_fields l)) then BLOB else VARCHAR]
         ++ map (fun _ => VARCHAR) (l_json_fields l)
         ++ map (proto_column_type descriptor) (l_proto_fields l) |}.
Proof.
  unfold define_return_schema.
  rewrite fold_add_proto_column, fold_add_json_column.
  unfold add_column, emplace_back. cbn.
  rewrite <- ?app_assoc. reflexivity.
Qed.


Lemma vector_empty_true {A : Type} (v : list A) :
  negb (vector_empty v) = false -> v = [].
Proof. destruct v; [reflexivity | discriminate]. Qed.

Lemma parse_proto_schema_Returns (l : BindLocals) (descriptor : option Descriptor) :
  parse_proto_schema l = Returns descriptor ->
  (l_proto_fields l = [] /\ descriptor = None)
  \/ (l_proto_fields l <> [] /\
      exists d, descriptor = Some d
        /\ Forall (fun field_path =>
                     exists leaf, resolves d (split_field_path field_path) leaf)
                  (l_proto_fields l)).
Proof.
  unfold parse_proto_schema.
  destruct (negb (vector_empty (l_proto_fields l))) eqn:Hempty.
  2:{ intros [= <-]. left. split; [apply vector_empty_true; exact Hempty | reflexivity]. }
  destruct (Import _ _) as [file_desc|errors]; [|discriminate].
  destruct (FindMessageTypeByName file_desc (l_proto_message l)) as [d|]; [|discriminate].
  intros H. invert_bind H. destruct a. injection H as <-.
  right. split.
  - intros Hnil. rewrite Hnil in Hempty. discriminate.
  - exists d. split; [reflexivity|]. apply validate_proto_fields_Returns. exact Hrun.
Qed.

(** A successful bind, taken apart. *)
Lemma NatsScanBind_Returns (input : TableFunctionBindInput) (r : BindResult) :
  NatsScanBind input = Returns r ->
  exists arg0 rest descriptor,
    inputs input = arg0 :: rest
    /\ ((0 <? l_start_seq (bind_locals input))
        || negb (l_end_seq (bind_locals input) =? UINT64_MAX))
       && ((0 <? l_start_time (bind_locals input))
           || (0 <? l_end_time (bind_locals input))) = false
    /\ negb (vector_empty (l_json_fields (bind_locals input)))
       && negb (vector_empty (l_proto_fields (bind_locals input))) = false
    /\ validate_protobuf_parameters (bind_locals input) = Returns tt
    /\ parse_proto_schema (bind_locals input) = Returns descriptor
    /\ stream_name (bind_data r) = GetValue_string arg0
    /\ subject_filter (bind_data r) = l_subject_filter (bind_locals input)
    /\ nats_url (bind_data r) = l_nats_url (bind_locals input)
    /\ start_seq (bind_data r) = l_start_seq (bind_locals input)
    /\ end_seq (bind_data r) = l_end_seq (bind_locals input)
    /\ start_time (bind_data r) = l_start_time (bind_locals input)
    /\ end_time (bind_data r) = l_end_time (bind_locals input)
    /\ json_fields (bind_data r) = l_json_fields (bind_locals input)
    /\ proto_file (bind_data r) = l_proto_file (bind_locals input)
    /\ proto_message (bind_data r) = l_proto_message (bind_locals input)
    /\ proto_fields (bind_data r) = l_proto_fields (bind_locals input)
    /\ proto_descriptor (bind_data r) = descriptor
    /\ schema r = define_return_schema (bind_locals input) descriptor
                    {| names := []; return_types := [] |}.
Proof.
  unfold NatsScanBind. fold (bind_locals input).
  destruct (inputs input) as [|arg0 rest]; [discriminate|].
  destruct (_ && _) eqn:Hmixed; [discriminate|].
  destruct (negb (vector_empty (l_json_fields (bind_locals input)))
            && negb (vector_empty (l_proto_fields (bind_locals input)))) eqn:Hboth;
    [discriminate|].
  intros H. invert_bind H. destruct a. invert_bind H. rename a into descriptor.
  injection H as <-. exists arg0, rest, descriptor. cbn.
  repeat (split; [first [reflexivity | assumption]|]).
  split; [|reflexivity].
  destruct (parse_proto_schema_Returns _ _ Hrun0) as [[Hnil ->] | [Hne _]].
  - destruct (negb (vector_empty (l_proto_fields (bind_locals input)))); reflexivity.
  - rewrite vector_empty_false by exact Hne. reflexivity.
Qed.

Lemma NatsScanBind_single_mode (input : TableFunctionBindInput) (r : BindResult) :
  NatsScanBind input = Returns r -> single_mode (bind_data r).
Proof.
  intros H. apply NatsScanBind_Returns in H.
  destruct H as (arg0 & rest & descriptor & _ & _ & Hboth & _ & _ & H).
  destruct H as (_ & _ & _ & _ & _ & _ & _ & Hj & _ & _ & Hp & _).
  unfold single_mode. rewrite Hj, Hp.
  apply andb_false_iff in Hboth. destruct Hboth as [Hb | Hb];
    apply vector_empty_true in Hb; [left | right]; exact Hb.
Qed.

(** C5.  After a successful bind, the extraction lists of the bind
    data are the requested ones in the requested order, at most one of
    them is not empty, and the output schema is: the columns stream,
    subject, seq, ts_nats and payload, of types varchar, varchar,
    ubigint, timestamp and (blob if protobuf fields are requested,
    varchar otherwise); then one varchar column per JSON field, under
    the field's name; then one column per protobuf path, named by the
    path with every dot replaced by an underscore and typed by the
    Type Mapper table at the kind of the leaf field the path resolves
    to in the bound message type. *)
Theorem bind_output_schema (input : TableFunctionBindInput) (r : BindResult) :
  NatsScanBind input = Returns r ->
  json_fields (bind_data r) = requested_fields "json_extract" input
  /\ proto_fields (bind_data r) = requested_fields "proto_extract" input
  /\ single_mode (bind_data r)
  /\ names (schema r)
     = (["stream"; "subject"; "seq"; "ts_nats"; "payload"]
        ++ json_fields (bind_data r)
        ++ map replace_dots (proto_fields (bind_data r)))%list
  /\ exists proto_types,
       return_types (schema r)
       = ([VARCHAR; VARCHAR; UBIGINT; TIMESTAMP;
           match proto_fields (bind_data r) with [] => VARCHAR | _ :: _ => BLOB end]
          ++ map (fun _ => VARCHAR) (json_fields (bind_data r))
          ++ proto_types)%list
       /\ Forall2 (fun field_path type =>
                     exists descriptor leaf,
                       proto_descriptor (bind_data r) = Some descriptor
                       /\ resolves descriptor (split_field_path field_path) leaf
                       /\ type = type_mapper (FieldDescriptor_type leaf))
                  (proto_fields (bind_data r)) proto_types.
Proof.
  intros H. pose proof (NatsScanBind_single_mode _ _ H) as Hmode.
  apply NatsScanBind_Returns in H.
  destruct H as (arg0 & rest & descriptor & _ & _ & _ & _ & Hparse & H).
  destruct H as (_ & _ & _ & _ & _ & _ & _ & Hj & _ & _ & Hp & Hd & Hs).
  destruct (bind_locals_fields input) as [Hreqj Hreqp].
  rewrite Hs, define_return_schema_columns, Hj, Hp, Hd.
  split; [exact Hreqj|]. split; [exact Hreqp|]. split; [exact Hmode|].
  split; [reflexivity|].
  exists (map (proto_column_type descriptor) (l_proto_fields (bind_locals input))).
  split.
  { cbn [names return_types]. destruct (l_proto_fields (bind_locals input)); reflexivity. }
  destruct (parse_proto_schema_Returns _ _ Hparse) as [[Hnil _] | [_ (d & -> & Hall)]].
  { rewrite Hnil. constructor. }
  clear - Hall.
  induction Hall as [|field_path rest' [leaf Hleaf] _ IH]; cbn [map]; constructor.
  - exists d, leaf. split; [reflexivity|]. split; [exact Hleaf|].
    unfold proto_column_type, GetFieldDescriptorForPath.
    apply (GetFieldDescriptorForPath_loop_resolves _ d None leaf
             (split_field_path_nonempty field_path)) in Hleaf.
    rewrite Hleaf. apply ProtobufTypeToDuckDBType_table.
  - exact IH.
Qed.


Lemma mixed_windows_spec (l : BindLocals) :
  ((0 <? l_start_seq l) || negb (l_end_seq l =? UINT64_MAX))
  && ((0 <? l_start_time l) || (0 <? l_end_time l)) = true
  <-> (0 < l_start_seq l \/ l_end_seq l <> UINT64_MAX)
      /\ (0 < l_start_time l \/ 0 < l_end_time l).
Proof.
  rewrite andb_true_iff, !orb_true_iff, negb_true_iff, !Z.ltb_lt, Z.eqb_neq.
  reflexivity.
Qed.

Lemma nonempty_spec {A : Type} (v : list A) :
  negb (vector_empty v) = true <-> v <> [].
Proof. destruct v; cbn; split; congruence. Qed.

Lemma validate_proto_fields_Throws (d : Descriptor) (fields : list string)
    (e : Exception) :
  validate_proto_fields d fields = Throws e ->
  Exists (fun field_path =>
            ~ exists leaf, resolves d (split_field_path field_path) leaf) fields.
Proof.
  induction fields as [|field_path rest IH]; cbn; [discriminate|].
  pose proof (validate_path_loop_resolves _ d field_path
                (split_field_path_nonempty field_path)) as Hpath.
  destruct (validate_path_loop d (split_field_path field_path) field_path)
    as [[]| e' |] eqn:Hv; cbn; intros H.
  - apply Exists_cons_tl. apply IH. exact H.
  - apply Exists_cons_hd. intros Hleaf. apply Hpath in Hleaf. discriminate.
  - discriminate.
Qed.

(** Bind either aborts, under one of its failure conditions, or
    returns, under none of them. *)
Lemma NatsScanBind_cases (input : TableFunctionBindInput) :
  (aborts (NatsScanBind input) /\ bind_abort_condition input)
  \/ ((exists r, NatsScanBind input = Returns r) /\ ~ bind_abort_condition input).
Proof.
  unfold NatsScanBind, bind_abort_condition. fold (bind_locals input).
  set (l := bind_locals input).
  destruct (inputs input) as [|arg0 rest] eqn:Hin.
  { left. split; [eexists; reflexivity | by left]. }
  destruct (_ && _) eqn:Hmixed.
  { left. split; [eexists; reflexivity|]. right. left.
    apply mixed_windows_spec. exact Hmixed. }
  assert (Hnot_mixed : ~ ((0 < l_start_seq l \/ l_end_seq l <> UINT64_MAX)
                          /\ (0 < l_start_time l \/ 0 < l_end_time l))).
  { intros H. apply mixed_windows_spec in H. congruence. }
  destruct (negb (vector_empty (l_json_fields l))
            && negb (vector_empty (l_proto_fields l))) eqn:Hboth.
  { left. split; [eexists; reflexivity|]. right. right. left.
    apply andb_true_iff in Hboth. rewrite !nonempty_spec in Hboth. exact Hboth. }
  assert (Hnot_both : ~ (l_json_fields l <> [] /\ l_proto_fields l <> [])).
  { intros H. rewrite <- !nonempty_spec, <- andb_true_iff in H. congruence. }
  unfold validate_protobuf_parameters, parse_proto_schema, schema_error.
  destruct (negb (vector_empty (l_proto_fields l))) eqn:Hproto.
  2:{ right. split; [eexists; reflexivity|].
      assert (Hnil : l_proto_fields l = []) by (apply vector_empty_true; exact Hproto).
      intros [H | [H | [H | [[H _] | [H _]]]]]; try congruence; tauto. }
  apply nonempty_spec in Hproto.
  destruct (String.eqb (l_proto_file l) "") eqn:Hfile.
  { left. split; [eexists; reflexivity|]. do 3 right. left.
    apply String.eqb_eq in Hfile. tauto. }
  destruct (String.eqb (l_proto_message l) "") eqn:Hmessage.
  { left. split; [eexists; reflexivity|]. do 3 right. left.
    apply String.eqb_eq in Hmessage. tauto. }
  apply String.eqb_neq in Hfile, Hmessage. cbn.
  destruct (Import _ _) as [file_desc|errors].
  2:{ left. split; [eexists; reflexivity|]. do 4 right. split; [exact Hproto | exact I]. }
  destruct (FindMessageTypeByName file_desc (l_proto_message l)) as [d|].
  2:{ left. split; [eexists; reflexivity|]. do 4 right. split; [exact Hproto | exact I]. }
  destruct (validate_proto_fields d (l_proto_fields l)) as [[]| e |] eqn:Hv.
  - right. split; [eexists; reflexivity|].
    apply validate_proto_fields_Returns in Hv.
    intros [H | [H | [H | [[_ H] | [_ H]]]]]; try congruence; try tauto.
    apply Exists_exists in H. destruct H as (field_path & Hin' & Hno).
    rewrite Forall_forall in Hv. apply Hno. apply Hv. exact Hin'.
  - left. split; [eexists; reflexivity|]. do 4 right. split; [exact Hproto|].
    eapply validate_proto_fields_Throws. exact Hv.
  - destruct (validate_proto_fields_total d (l_proto_fields l)) as [H | [e H]];
      congruence.
Qed.

(** C6, as amended.  Bind aborts with an exception (so that no bind
    data exists and the query never starts) exactly when one of the
    following holds for the values bind reads from the call: there is
    no positional argument; [start_seq > 0] or [end_seq] differs from
    [UINT64_MAX], and at the same time [start_time] or [end_time] is
    positive in nanoseconds; the JSON and the protobuf extraction
    lists are both non-empty; the protobuf list is non-empty while
    [proto_file] or [proto_message] is the empty string; the protobuf
    list is non-empty and the schema file cannot be imported, does not
    hold the message type, or does not resolve one of the paths. *)
Theorem bind_aborts_iff (input : TableFunctionBindInput) :
  aborts (NatsScanBind input) <-> bind_abort_condition input.
Proof.
  destruct (NatsScanBind_cases input) as [[Habort Hcond] | [[r Hr] Hcond]].
  - split; intros _; assumption.
  - split.
    + intros [e He]. congruence.
    + intros H. contradiction.
Qed.


(** C9, as amended.  Bind aborts with the exception of the missing
    stream name when the call has no positional argument; and the
    bind data of a successful bind has as [stream_name] the text of
    the first positional argument, whatever that text is (bind does
    not test it for emptiness). *)
Theorem bind_stream_name (input : TableFunctionBindInput) :
  (inputs input = [] -> NatsScanBind input = Throws MissingStreamName)
  /\ (forall r, NatsScanBind input = Returns r ->
        exists arg0 rest,
          inputs input = arg0 :: rest
          /\ stream_name (bind_data r) = GetValue_string arg0).
Proof.
  split.
  - intros Hnil. unfold NatsScanBind. rewrite Hnil. reflexivity.
  - intros r H. apply NatsScanBind_Returns in H.
    destruct H as (arg0 & rest & descriptor & Hin & _ & _ & _ & _ & Hname & _).
    exists arg0, rest. split; assumption.
Qed.

(** C10.  Let a call have a positional argument, no protobuf path
    requested, and no mix of a sequence window with a time window.
    Then, whatever [proto_file] and [proto_message] are, bind returns:
    the schema step answers "no descriptor" without consulting the
    protobuf library, the bind data keeps the two strings and a null
    descriptor, the schema is the five fixed columns with a varchar
    payload followed by the JSON columns only, the global state gets
    no prototype, the protobuf decoder leaves every chunk as it is,
    and the payload cell of a row is a varchar. *)
Theorem proto_options_without_proto_extract (input : TableFunctionBindInput)
    (arg0 : Value) (rest : list Value) :
  inputs input = arg0 :: rest ->
  requested_fields "proto_extract" input = [] ->
  ~ ((0 < l_start_seq (bind_locals input)
      \/ l_end_seq (bind_locals input) <> UINT64_MAX)
     /\ (0 < l_start_time (bind_locals input)
         \/ 0 < l_end_time (bind_locals input))) ->
  parse_proto_schema (bind_locals input) = Returns None
  /\ exists r,
       NatsScanBind input = Returns r
       /\ proto_fields (bind_data r) = []
       /\ proto_descriptor (bind_data r) = None
       /\ proto_file (bind_data r) = l_proto_file (bind_locals input)
       /\ proto_message (bind_data r) = l_proto_message (bind_locals input)
       /\ names (schema r)
          = (["stream"; "subject"; "seq"; "ts_nats"; "payload"]
             ++ requested_fields "json_extract" input)%list
       /\ return_types (schema r)
          = ([VARCHAR; VARCHAR; UBIGINT; TIMESTAMP; VARCHAR]
             ++ map (fun _ => VARCHAR) (requested_fields "json_extract" input))%list
       /\ proto_prototype (NatsScanInitGlobal (bind_data r)) = None
       /\ (forall st data count output,
             extract_proto_fields (bind_data r) st data count output = Returns output)
       /\ (forall msg,
             payload_value (bind_data r) msg = Value_VARCHAR (natsMsg_GetData msg)).
Proof.
  intros Hin Hreq Hnot_mixed.
  destruct (bind_locals_fields input) as [Hj Hp].
  rewrite Hreq in Hp.
  assert (Hparse : parse_proto_schema (bind_locals input) = Returns None).
  { unfold parse_proto_schema. rewrite Hp. reflexivity. }
  split; [exact Hparse|].
  destruct (NatsScanBind_cases input) as [[_ Hcond] | [[r Hr] _]].
  { exfalso. unfold bind_abort_condition in Hcond. rewrite Hin, Hp in Hcond.
    destruct Hcond as [H | [H | [[_ H] | [[H _] | [H _]]]]];
      try discriminate; try contradiction; congruence. }
  exists r. split; [exact Hr|].
  apply NatsScanBind_Returns in Hr.
  destruct Hr as (a0 & rs & descriptor & _ & _ & _ & _ & Hparse' & H).
  destruct H as (_ & _ & _ & _ & _ & _ & _ & Hjf & Hpf & Hpm & Hpfs & Hd & Hs).
  rewrite Hparse in Hparse'. injection Hparse' as <-.
  rewrite Hs, define_return_schema_columns, Hp, Hj. cbn [map vector_empty negb].
  rewrite !app_nil_r.
  repeat (split; [first [reflexivity | congruence]|]).
  split; [|split].
  - cbn. rewrite Hpfs, Hp. reflexivity.
  - intros st data count output. unfold extract_proto_fields.
    rewrite Hpfs, Hp. reflexivity.
  - intros msg. unfold payload_value. rewrite Hpfs, Hp. reflexivity.
Qed.

(** ** The shape of a chunk *)

(** When the fetch loop returns, its condition is false: the chunk is
    full or the cursor has passed the end of the window. *)
Lemma fetch_loop_exit (br : Broker) (bind : NatsScanBindData) (fuel : nat) :
  forall (st : NatsScanGlobalState) (count : nat) (output : DataChunk)
         (st' : NatsScanGlobalState) (count' : nat) (output' : DataChunk),
  fetch_loop fuel br bind st count output = Returns (st', count', output') ->
  (count' <= Nat.max count STANDARD_VECTOR_SIZE)%nat
  /\ ((count' < STANDARD_VECTOR_SIZE)%nat ->
        effective_end_seq st' < current_seq st').
Proof.
  assert (Hexit : forall (st : NatsScanGlobalState) (count : nat),
            (count <? STANDARD_VECTOR_SIZE)%nat
            && (current_seq st <=? effective_end_seq st) = false ->
            (count <= Nat.max count STANDARD_VECTOR_SIZE)%nat
            /\ ((count < STANDARD_VECTOR_SIZE)%nat ->
                  effective_end_seq st < current_seq st)).
  { intros st count Hcond. split; [lia|]. intros Hlt.
    apply andb_false_iff in Hcond. destruct Hcond as [Hc | Hc].
    - apply Nat.ltb_ge in Hc. lia.
    - apply Z.leb_gt in Hc. exact Hc. }
  induction fuel as [|fuel IH]; intros st count output st' count' output' H.
  - rewrite fetch_loop_zero in H.
    destruct ((count <? STANDARD_VECTOR_SIZE)%nat
              && (current_seq st <=? effective_end_seq st)) eqn:Hcond; [discriminate|].
    injection H as <- <- <-. apply Hexit. exact Hcond.
  - rewrite fetch_loop_unfold in H.
    destruct ((count <? STANDARD_VECTOR_SIZE)%nat
              && (current_seq st <=? effective_end_seq st)) eqn:Hcond.
    2:{ injection H as <- <- <-. apply Hexit. exact Hcond. }
    apply andb_true_iff in Hcond. destruct Hcond as [Hcount _].
    apply Nat.ltb_lt in Hcount.
    destruct (js_DirectGetMsg br (stream_name bind) (current_seq st))
      as [msg| |s]; [| |discriminate].
    + destruct (subject_rejected bind msg).
      * apply IH in H. destruct H as [Hle Hend]. split; [lia | exact Hend].
      * invert_bind H. apply IH in H. destruct H as [Hle Hend].
        split; [lia | exact Hend].
    + apply IH in H. destruct H as [Hle Hend]. split; [lia | exact Hend].
Qed.

(** Once the query is marked done, calls hand back empty chunks and
    leave the state as it is, whatever the broker. *)
Lemma run_query_done (fuel : nat) (br : Broker) (bind : NatsScanBindData)
    (st : NatsScanGlobalState) (calls : nat) :
  done st = true ->
  run_query calls fuel br bind st = Returns (replicate calls reset_chunk, st).
Proof.
  intros Hdone. induction calls as [|calls IH]; [reflexivity|].
  rewrite run_query_unfold. unfold NatsScanExecute. rewrite Hdone. cbn.
  rewrite IH. reflexivity.
Qed.

(** X6.  A call hands back at most [STANDARD_VECTOR_SIZE] rows, and a
    chunk that is not full ends the query: the state is marked done,
    and from it any number of further calls, on any broker, hand back
    empty chunks and leave the state unchanged. *)
Theorem short_chunk_ends_query (fuel : nat) (br : Broker) (bind : NatsScanBindData)
    (st st' : NatsScanGlobalState) (output output' : DataChunk) :
  NatsScanExecute fuel br bind st output = Returns (st', output') ->
  (cardinality output' <= STANDARD_VECTOR_SIZE)%nat
  /\ ((cardinality output' < STANDARD_VECTOR_SIZE)%nat ->
        done st' = true
        /\ forall calls fuel' br',
             run_query calls fuel' br' bind st'
             = Returns (replicate calls reset_chunk, st')).
Proof.
  intros H.
  assert (Hmain : (cardinality output' <= STANDARD_VECTOR_SIZE)%nat
                  /\ ((cardinality output' < STANDARD_VECTOR_SIZE)%nat ->
                        done st' = true)).
  { unfold NatsScanExecute in H. destruct (done st) eqn:Hd.
    { injection H as <- <-. cbn. split; [lia | intros _; exact Hd]. }
    invert_bind H. rename a into r.
    apply prepare_scan_Returns in Hrun. destruct Hrun as [_ Hr].
    destruct r as [st1|st1].
    2:{ injection H as <- <-. cbn. split; [lia | intros _; exact Hr]. }
    unfold fill_chunk in H. invert_bind H. destruct a as [[st2 count] out2].
    apply fetch_loop_exit in Hrun. destruct Hrun as [Hle Hend].
    injection H as <- <-. cbn. split; [lia|].
    intros Hlt. apply Hend in Hlt. apply Z.ltb_lt in Hlt. rewrite Hlt. reflexivity. }
  destruct Hmain as [Hle Hdone]. split; [exact Hle|].
  intros Hlt. split; [exact (Hdone Hlt)|].
  intros calls fuel' br'. apply run_query_done. exact (Hdone Hlt).
Qed.

(** A row is written in the columns the query has and nowhere else. *)
Lemma emit_row_frame (bind : NatsScanBindData) (st : NatsScanGlobalState)
    (msg : natsMsg) (count : nat) (output output' : DataChunk) (col row : nat) :
  emit_row bind st msg count output = Returns output' ->
  row <> count \/ (5 + extraction_columns bind <= col)%nat ->
  GetValue col row output' = GetValue col row output.
Proof.
  intros H [Hrow | Hcol].
  { destruct (emit_row_cells _ _ _ _ _ _ H) as [Hother _]. apply Hother. exact Hrow. }
  unfold emit_row in H. unfold extraction_columns in Hcol.
  assert (Hproto : GetValue col row output'
                   = GetValue col row
                       (extract_json_fields bind (natsMsg_GetData msg) count
                          (set_fixed_columns bind (current_seq st) msg count output))).
  { unfold extract_proto_fields in H.
    destruct (negb (vector_empty (proto_fields bind))); [|congruence].
    destruct (proto_prototype st) as [prototype|]; [|congruence].
    destruct (ParseFromArray prototype (natsMsg_GetData msg)).
    - destruct (proto_descriptor bind); [|discriminate].
      injection H as <-. apply set_extraction_columns_high. lia.
    - injection H as <-. apply set_extraction_columns_high. lia. }
  rewrite Hproto.
  assert (Hjson : forall out,
            GetValue col row (extract_json_fields bind (natsMsg_GetData msg) count out)
            = GetValue col row out).
  { intros out. unfold extract_json_fields.
    destruct (negb (vector_empty (json_fields bind))); [|reflexivity].
    destruct (yyjson_read (natsMsg_GetData msg));
      apply set_extraction_columns_high; lia. }
  rewrite Hjson. apply set_fixed_columns_high. lia.
Qed.

Lemma fetch_loop_frame (br : Broker) (bind : NatsScanBindData) (fuel : nat) :
  forall (st : NatsScanGlobalState) (count : nat) (output : DataChunk)
         (st' : NatsScanGlobalState) (count' : nat) (output' : DataChunk)
         (col row : nat),
  fetch_loop fuel br bind st count output = Returns (st', count', output') ->
  (row < count)%nat \/ (count' <= row)%nat
  \/ (5 + extraction_columns bind <= col)%nat ->
  GetValue col row output' = GetValue col row output.
Proof.
  induction fuel as [|fuel IH]; intros st count output st' count' output' col row H Hout.
  - rewrite fetch_loop_zero in H.
    destruct ((count <? STANDARD_VECTOR_SIZE)%nat
              && (current_seq st <=? effective_end_seq st)); [discriminate|].
    injection H as <- <- <-. reflexivity.
  - rewrite fetch_loop_unfold in H.
    destruct ((count <? STANDARD_VECTOR_SIZE)%nat
              && (current_seq st <=? effective_end_seq st)).
    2:{ injection H as <- <- <-. reflexivity. }
    destruct (js_DirectGetMsg br (stream_name bind) (current_seq st))
      as [msg| |s]; [| |discriminate].
    + destruct (subject_rejected bind msg).
      * eapply IH; [exact H | exact Hout].
      * invert_bind H. rename a into out1.
        pose proof (fetch_loop_rows _ _ _ _ _ _ _ _ _ H) as (Hle & _).
        rewrite (IH _ _ _ _ _ _ col row H) by lia.
        eapply emit_row_frame; [exact Hrun|]. lia.
    + eapply IH; [exact H | exact Hout].
Qed.

(** X7.  A call writes no cell outside the chunk it hands back: the
    rows from the cardinality on, and the columns beyond the five
    fixed ones and the extraction columns, are as the engine passed
    them. *)
Theorem NatsScanExecute_writes_within_chunk (fuel : nat) (br : Broker)
    (bind : NatsScanBindData) (st st' : NatsScanGlobalState)
    (output output' : DataChunk) (col row : nat) :
  NatsScanExecute fuel br bind st output = Returns (st', output') ->
  (cardinality output' <= row)%nat \/ (5 + extraction_columns bind <= col)%nat ->
  GetValue col row output' = GetValue col row output.
Proof.
  unfold NatsScanExecute. intros H Hout.
  destruct (done st).
  { injection H as <- <-. reflexivity. }
  invert_bind H. destruct a as [st1|st1].
  2:{ injection H as <- <-. reflexivity. }
  unfold fill_chunk in H. invert_bind H. destruct a as [[st2 count] out2].
  injection H as <- <-. rewrite GetValue_SetCardinality. cbn in Hout.
  eapply fetch_loop_frame; [exact Hrun0|]. lia.
Qed.

(** ** The subject filter *)

(** The test of lines 740-741 lets a message through exactly when the
    filter occurs in its subject ([std::string::find]); the empty
    filter occurs in every subject. *)
Lemma subject_rejected_contains (bind : NatsScanBindData) (msg : natsMsg) :
  subject_rejected bind msg = false
  <-> contains (subject_filter bind) (natsMsg_GetSubject msg).
Proof.
  unfold subject_rejected, contains.
  destruct (String.eqb (subject_filter bind) "") eqn:Hempty; cbn.
  - apply String.eqb_eq in Hempty. rewrite Hempty. split; [|reflexivity].
    intros _. exists 0%nat. cbn. destruct (natsMsg_GetSubject msg); reflexivity.
  - apply String.eqb_neq in Hempty.
    destruct (index 0 (subject_filter bind) (natsMsg_GetSubject msg)) as [n|] eqn:Hidx.
    + split; [|reflexivity]. intros _. exists n.
      eapply index_correct1. exact Hidx.
    + split; [discriminate|]. intros [n Hn]. exfalso.
      eapply (index_correct3 0 n); [exact Hidx | exact Hempty | lia | exact Hn].
Qed.

(** X8.  Every row a call hands back carries, in the columns [stream],
    [subject] and [seq], the name of the bound stream, the subject of
    a message the broker served and the sequence it was served at; and
    the subject filter occurs in that subject as a substring. *)
Theorem emitted_subject_contains_filter (fuel : nat) (br : Broker)
    (bind : NatsScanBindData) (st st' : NatsScanGlobalState)
    (output output' : DataChunk) (row : nat) :
  NatsScanExecute fuel br bind st output = Returns (st', output') ->
  (row < cardinality output')%nat ->
  exists seq msg,
    js_DirectGetMsg br (stream_name bind) seq = DirectGet_OK msg
    /\ GetValue 0 row output' = Some (Value_VARCHAR (stream_name bind))
    /\ GetValue 1 row output' = Some (Value_VARCHAR (natsMsg_GetSubject msg))
    /\ GetValue 2 row output' = Some (Value_UBIGINT seq)
    /\ contains (subject_filter bind) (natsMsg_GetSubject msg).
Proof.
  intros H Hrow.
  destruct (NatsScanExecute_rows _ _ _ _ _ _ _ _ H Hrow)
    as (st_row & msg & before & after & Hget & Hrej & _ & Hemit & Hcells).
  destruct (emit_row_cells _ _ _ _ _ _ Hemit) as (_ & H0 & H1 & H2 & _).
  exists (current_seq st_row), msg.
  rewrite !Hcells. split; [exact Hget|]. split; [exact H0|].
  split; [exact H1|]. split; [exact H2|].
  apply subject_rejected_contains. exact Hrej.
Qed.

(** ** Dotted paths *)

Lemma index_dot_cons (c : ascii) (s : string) :
  index 0 "." (String c s)
  = if Ascii.eqb c "."%char then Some 0%nat else S <$> index 0 "." s.
Proof.
  change (index 0 "." (String c s))
    with (if String.prefix "." (String c s) then Some 0%nat
          else match index 0 "." s with Some n => Some (S n) | None => None end).
  change (String.prefix "." (String c s))
    with (match ascii_dec "."%char c with
          | left _ => String.prefix "" s
          | right _ => false
          end).
  destruct (ascii_dec "." c) as [<-|Hne].
  - rewrite Ascii.eqb_refl. destruct s; reflexivity.
  - destruct (Ascii.eqb_spec c "."%char) as [->|_]; [congruence|].
    destruct (index 0 "." s); reflexivity.
Qed.

Lemma index_dot_skip (pre rest : string) :
  index (String.length pre) "." (pre +:+ rest)
  = (fun k => (String.length pre + k)%nat) <$> index 0 "." rest.
Proof.
  induction pre as [|c pre IH].
  - change (index 0 "." rest = (fun k => (0 + k)%nat) <$> index 0 "." rest).
    destruct (index 0 "." rest); reflexivity.
  - change (index (String.length (String c pre)) "." (String c pre +:+ rest))
      with (match index (String.length pre) "." (pre +:+ rest) with
            | Some n => Some (S n)
            | None => None
            end).
    rewrite IH. destruct (index 0 "." rest); reflexivity.
Qed.

Lemma substring_prefix (a rest : string) :
  substring 0 (String.length a) (a +:+ rest) = a.
Proof.
  induction a as [|c a IH].
  - destruct rest; reflexivity.
  - change (String c (substring 0 (String.length a) (a +:+ rest)) = String c a).
    rewrite IH. reflexivity.
Qed.

Lemma substring_skip (pre a rest : string) :
  substring (String.length pre) (String.length a) (pre +:+ (a +:+ rest)) = a.
Proof.
  induction pre as [|c pre IH]; [exact (substring_prefix a rest) | exact IH].
Qed.

Lemma string_app_cons (c : ascii) (s t : string) :
  String c s +:+ t = String c (s +:+ t).
Proof. reflexivity. Qed.

Lemma string_app_empty_r (s : string) : s +:+ "" = s.
Proof.
  induction s as [|c s IH]; [reflexivity|].
  rewrite string_app_cons, IH. reflexivity.
Qed.

Lemma string_length_app (s t : string) :
  String.length (s +:+ t) = (String.length s + String.length t)%nat.
Proof.
  induction s as [|c s IH]; [reflexivity|].
  rewrite string_app_cons. cbn. rewrite IH. reflexivity.
Qed.

Lemma string_app_assoc (s t u : string) : (s +:+ t) +:+ u = s +:+ (t +:+ u).
Proof.
  induction s as [|c s IH]; [reflexivity|].
  rewrite !string_app_cons, IH. reflexivity.
Qed.

(** A string without a dot is its own single component. *)
Lemma components_dot_free (s : string) :
  dot_free s = true -> components s = [s].
Proof.
  induction s as [|c s IH]; [reflexivity|].
  cbn. destruct (Ascii.eqb c "."); cbn; [discriminate|].
  intros H. rewrite (IH H). reflexivity.
Qed.

Lemma components_nonempty (s : string) : components s <> [].
Proof.
  induction s as [|c s IH]; cbn; [discriminate|].
  destruct (Ascii.eqb c "."); [discriminate|].
  destruct (components s); discriminate.
Qed.

(** The components of [a.rest] for a part [a] without a dot. *)
Lemma components_app_dot (a rest : string) :
  dot_free a = true ->
  components (a +:+ String "." rest) = a :: components rest.
Proof.
  induction a as [|c a IH]; [reflexivity|].
  rewrite string_app_cons. cbn. destruct (Ascii.eqb c "."); cbn; [discriminate|].
  intros H. rewrite (IH H). reflexivity.
Qed.

(** What [find('.')] tells about the string. *)
Lemma index_dot_None (s : string) :
  index 0 "." s = None -> dot_free s = true.
Proof.
  induction s as [|c s IH]; [reflexivity|].
  rewrite index_dot_cons. cbn.
  destruct (Ascii.eqb c "."); [discriminate|].
  destruct (index 0 "." s); [discriminate|]. intros _. apply IH. reflexivity.
Qed.

Lemma index_dot_Some (s : string) (k : nat) :
  index 0 "." s = Some k ->
  exists a rest, s = a +:+ String "." rest
                 /\ String.length a = k /\ dot_free a = true.
Proof.
  revert k. induction s as [|c s IH]; intros k; [discriminate|].
  rewrite index_dot_cons.
  destruct (Ascii.eqb_spec c "."%char) as [->|Hne].
  - intros [= <-]. exists "", s. repeat split; reflexivity.
  - destruct (index 0 "." s) as [n|]; [|discriminate].
    intros [= <-]. destruct (IH n eq_refl) as (a & rest & -> & Hlen & Hfree).
    exists (String c a), rest. split; [reflexivity|]. split; [cbn; lia|].
    cbn. rewrite Hfree. apply Ascii.eqb_neq in Hne. rewrite Hne. reflexivity.
Qed.

(** The loop of lines 96-105 cuts the part of the path it has not
    read yet into its components. *)
Lemma path_parts_loop_components (turns : nat) :
  forall (pre rest : string) (path_parts : list string),
  (String.length rest <= turns)%nat ->
  path_parts_loop turns (pre +:+ rest) (String.length pre)
    (index (String.length pre) "." (pre +:+ rest)) path_parts
  = (path_parts ++ components rest)%list.
Proof.
  assert (Hlast : forall pre rest path_parts,
            dot_free rest = true ->
            (path_parts
             ++ [substring (String.length pre)
                   (String.length (pre +:+ rest) - String.length pre)
                   (pre +:+ rest)])%list
            = (path_parts ++ components rest)%list).
  { intros pre rest path_parts Hfree. rewrite (components_dot_free _ Hfree).
    rewrite string_length_app.
    replace (String.length pre + String.length rest - String.length pre)%nat
      with (String.length rest) by lia.
    rewrite <- (string_app_empty_r rest) at 2.
    rewrite substring_skip. reflexivity. }
  induction turns as [|turns IH]; intros pre rest path_parts Hlen.
  - destruct rest; [|cbn in Hlen; lia].
    rewrite index_dot_skip. cbn [index fmap option_fmap option_map path_parts_loop].
    apply Hlast. reflexivity.
  - rewrite index_dot_skip.
    destruct (index 0 "." rest) as [k|] eqn:Hidx; cbn [fmap option_fmap option_map].
    + destruct (index_dot_Some _ _ Hidx) as (a & rest' & -> & Hk & Hfree).
      cbn [path_parts_loop].
      replace (String.length pre + k - String.length pre)%nat
        with (String.length a) by lia.
      rewrite substring_skip.
      replace (String.length pre + k + 1)%nat
        with (String.length (pre +:+ (a +:+ "."))).
      2:{ rewrite !string_length_app. cbn. lia. }
      replace (pre +:+ (a +:+ String "." rest'))
        with ((pre +:+ (a +:+ ".")) +:+ rest').
      2:{ rewrite !string_app_assoc. reflexivity. }
      rewrite IH.
      * rewrite components_app_dot by exact Hfree.
        rewrite <- app_assoc. reflexivity.
      * rewrite string_length_app in Hlen. cbn in Hlen. lia.
    + cbn [path_parts_loop]. apply Hlast. apply index_dot_None. exact Hidx.
Qed.

Lemma split_field_path_components (field_path : string) :
  split_field_path field_path = components field_path.
Proof.
  unfold split_field_path.
  apply (path_parts_loop_components (String.length field_path) "" field_path []).
  lia.
Qed.

Lemma concat_components (sep : string) (c : ascii) (s : string) :
  String.concat sep
    (match components s with
     | part :: parts => String c part :: parts
     | [] => [String c EmptyString]
     end)
  = String c (String.concat sep (components s)).
Proof.
  pose proof (components_nonempty s) as Hne.
  destruct (components s) as [|part [|part' parts]]; [congruence|reflexivity|].
  reflexivity.
Qed.

Lemma concat_cons_components (sep part : string) (s : string) :
  String.concat sep (part :: components s)
  = part +:+ sep +:+ String.concat sep (components s).
Proof.
  pose proof (components_nonempty s) as Hne.
  destruct (components s); [congruence | reflexivity].
Qed.

Lemma concat_dot_components (s : string) : String.concat "." (components s) = s.
Proof.
  induction s as [|c s IH]; [reflexivity|].
  cbn [components]. destruct (Ascii.eqb_spec c "."%char) as [->|Hne].
  - rewrite concat_cons_components, IH. reflexivity.
  - rewrite concat_components, IH. reflexivity.
Qed.

Lemma components_all_dot_free (s : string) :
  Forall (fun part => dot_free part = true) (components s).
Proof.
  induction s as [|c s IH]; [repeat constructor|].
  cbn [components]. destruct (Ascii.eqb c ".") eqn:Hc.
  - constructor; [reflexivity | exact IH].
  - destruct (components s) as [|part parts].
    + repeat constructor. cbn. rewrite Hc. reflexivity.
    + inversion IH as [|? ? Hpart Hparts]; subst.
      constructor; [|exact Hparts]. cbn. rewrite Hc, Hpart. reflexivity.
Qed.

Lemma components_concat (parts : list string) :
  parts <> [] ->
  Forall (fun part => dot_free part = true) parts ->
  components (String.concat "." parts) = parts.
Proof.
  induction parts as [|part parts IH]; [congruence|].
  intros _ Hfree. inversion Hfree as [|? ? Hpart Hparts]; subst.
  destruct parts as [|part' parts].
  - apply components_dot_free. exact Hpart.
  - change (String.concat "." (part :: part' :: parts))
      with (part +:+ String "." (String.concat "." (part' :: parts))).
    rewrite components_app_dot by exact Hpart.
    rewrite IH; [reflexivity | discriminate | exact Hparts].
Qed.

(** X9.  The components the loop of lines 96-105 cuts a path into
    give the path back when joined with dots; none of them holds a
    dot, and there is at least one. *)
Theorem split_field_path_round_trip (field_path : string) :
  String.concat "." (split_field_path field_path) = field_path
  /\ Forall (fun part => dot_free part = true) (split_field_path field_path)
  /\ split_field_path field_path <> [].
Proof.
  rewrite split_field_path_components.
  split; [apply concat_dot_components|].
  split; [apply components_all_dot_free | apply components_nonempty].
Qed.

(** X10.  Conversely the path made of given components (at least one,
    none with a dot) is cut into exactly these components. *)
Theorem split_field_path_of_joined (parts : list string) :
  parts <> [] ->
  Forall (fun part => dot_free part = true) parts ->
  split_field_path (String.concat "." parts) = parts.
Proof.
  intros Hne Hfree. rewrite split_field_path_components.
  apply components_concat; assumption.
Qed.

Lemma replace_dots_components (s : string) :
  replace_dots s = String.concat "_" (components s).
Proof.
  induction s as [|c s IH]; [reflexivity|].
  cbn [components replace_dots]. destruct (Ascii.eqb c ".").
  - rewrite concat_cons_components, IH. reflexivity.
  - rewrite concat_components, IH. reflexivity.
Qed.

(** X11.  The column name bind gives a protobuf path is the path's
    components joined with underscores. *)
Theorem column_name_joins_components (field_path : string) :
  replace_dots field_path = String.concat "_" (split_field_path field_path).
Proof. rewrite split_field_path_components. apply replace_dots_components. Qed.

(** ** Values read from a protobuf message *)

(** X12.  How [ExtractProtobufValue] reads a path, component by
    component: a path of one component is the leaf value of the field
    of that name in the root type (null when there is none); a path
    [part.rest] is the value of [rest] in the nested message of the
    field [part], provided that field exists, is message-typed and is
    set in the message, and null otherwise. *)
Theorem ExtractProtobufValue_by_component (message : Message) (root : Descriptor)
    (part rest : string) :
  dot_free part = true ->
  ExtractProtobufValue message part root
  = match FindFieldByName root part with
    | Some field => extract_leaf message field
    | None => Value_NULL
    end
  /\ ExtractProtobufValue message (part +:+ "." +:+ rest) root
     = match FindFieldByName root part with
       | Some field =>
           if decide (FieldDescriptor_type field = TYPE_MESSAGE) then
             if HasField message field
             then ExtractProtobufValue (GetMessage message field) rest
                    (message_type field)
             else Value_NULL
           else Value_NULL
       | None => Value_NULL
       end.
Proof.
  intros Hfree. unfold ExtractProtobufValue.
  rewrite !split_field_path_components.
  change (part +:+ "." +:+ rest) with (part +:+ String "." rest).
  rewrite (components_dot_free _ Hfree), (components_app_dot _ _ Hfree).
  split; [reflexivity|].
  pose proof (components_nonempty rest) as Hne.
  destruct (components rest) as [|next parts]; [congruence | reflexivity].
Qed.

(** X13.  [GetFieldDescriptorForPath] reads a path the same way: one
    component is looked up in the root type; [part.rest] is [rest]
    looked up in the message type of the field [part], provided that
    field exists and is message-typed, and null otherwise. *)
Theorem GetFieldDescriptorForPath_by_component (root : Descriptor)
    (part rest : string) :
  dot_free part = true ->
  GetFieldDescriptorForPath root part = FindFieldByName root part
  /\ GetFieldDescriptorForPath root (part +:+ "." +:+ rest)
     = match FindFieldByName root part with
       | Some field =>
           if decide (FieldDescriptor_type field = TYPE_MESSAGE)
           then GetFieldDescriptorForPath (message_type field) rest
           else None
       | None => None
       end.
Proof.
  intros Hfree. unfold GetFieldDescriptorForPath.
  rewrite !split_field_path_components.
  change (part +:+ "." +:+ rest) with (part +:+ String "." rest).
  rewrite (components_dot_free _ Hfree), (components_app_dot _ _ Hfree).
  split.
  { cbn. destruct (FindFieldByName root part); reflexivity. }
  pose proof (components_nonempty rest) as Hne.
  destruct (components rest) as [|next parts] eqn:Hparts; [congruence|].
  cbn [GetFieldDescriptorForPath_loop].
  destruct (FindFieldByName root part) as [field|]; [|reflexivity].
  destruct (decide (FieldDescriptor_type field = TYPE_MESSAGE)); [|reflexivity].
  cbn. destruct (FindFieldByName (message_type field) next); reflexivity.
Qed.

Lemma conforms_NULL (t : LogicalTypeId) : conforms Value_NULL t = true.
Proof. reflexivity. Qed.

Lemma extract_leaf_conforms (message : Message) (field : FieldDescriptor) :
  conforms (extract_leaf message field) (ProtobufTypeToDuckDBType field) = true.
Proof.
  unfold extract_leaf, ProtobufTypeToDuckDBType.
  destruct (negb (HasField message field)
            && bool_decide (FieldDescriptor_type field = TYPE_MESSAGE));
    [reflexivity|].
  destruct (FieldDescriptor_type field); reflexivity.
Qed.

Lemma ExtractProtobufValue_loop_conforms (path_parts : list string) :
  forall (message : Message) (d : Descriptor) (field : option FieldDescriptor),
  path_parts <> [] ->
  conforms (ExtractProtobufValue_loop message d path_parts)
    (match GetFieldDescriptorForPath_loop d path_parts field with
     | Some fd => ProtobufTypeToDuckDBType fd
     | None => VARCHAR
     end) = true.
Proof.
  induction path_parts as [|part rest IH]; intros message d field Hne; [congruence|].
  cbn [ExtractProtobufValue_loop GetFieldDescriptorForPath_loop].
  destruct (FindFieldByName d part) as [f|]; [|reflexivity].
  destruct rest as [|next rest]; [apply extract_leaf_conforms|].
  destruct (decide (FieldDescriptor_type f = TYPE_MESSAGE)); [|reflexivity].
  destruct (HasField message f); [|reflexivity].
  apply IH. discriminate.
Qed.

(** X14.  Whatever the message and the path, the value
    [ExtractProtobufValue] returns is null or of the type bind gave
    the column of that path. *)
Theorem ExtractProtobufValue_conforms (message : Message) (field_path : string)
    (root : Descriptor) :
  conforms (ExtractProtobufValue message field_path root)
    (proto_column_type (Some root) field_path) = true.
Proof.
  unfold ExtractProtobufValue, proto_column_type, GetFieldDescriptorForPath.
  apply ExtractProtobufValue_loop_conforms. apply split_field_path_nonempty.
Qed.

Lemma extract_leaf_null (message : Message) (field : FieldDescriptor) :
  FieldDescriptor_type field = TYPE_MESSAGE
  \/ FieldDescriptor_type field = TYPE_GROUP ->
  extract_leaf message field = Value_NULL.
Proof.
  unfold extract_leaf. intros [Ht | Ht]; rewrite Ht;
    destruct (negb (HasField message field) && _); reflexivity.
Qed.

Lemma ExtractProtobufValue_loop_null (path_parts : list string) :
  forall (message : Message) (d : Descriptor) (field : option FieldDescriptor),
  path_parts <> [] ->
  match GetFieldDescriptorForPath_loop d path_parts field with
  | Some fd => FieldDescriptor_type fd = TYPE_MESSAGE
               \/ FieldDescriptor_type fd = TYPE_GROUP
  | None => True
  end ->
  ExtractProtobufValue_loop message d path_parts = Value_NULL.
Proof.
  induction path_parts as [|part rest IH]; intros message d field Hne; [congruence|].
  cbn [ExtractProtobufValue_loop GetFieldDescriptorForPath_loop].
  destruct (FindFieldByName d part) as [f|]; [|reflexivity].
  destruct rest as [|next rest]; [apply extract_leaf_null|].
  destruct (decide (FieldDescriptor_type f = TYPE_MESSAGE)); [|reflexivity].
  destruct (HasField message f); [|reflexivity].
  apply IH. discriminate.
Qed.

(** X15.  [ExtractProtobufValue] returns null, whatever the message
    holds, for a path that does not lead to a field of the root type,
    and for a path that leads to a message-typed (or group-typed)
    field. *)
Theorem ExtractProtobufValue_null (message : Message) (field_path : string)
    (root : Descriptor) :
  match GetFieldDescriptorForPath root field_path with
  | Some fd => FieldDescriptor_type fd = TYPE_MESSAGE
               \/ FieldDescriptor_type fd = TYPE_GROUP
  | None => True
  end ->
  ExtractProtobufValue message field_path root = Value_NULL.
Proof.
  unfold ExtractProtobufValue, GetFieldDescriptorForPath.
  apply ExtractProtobufValue_loop_null. apply split_field_path_nonempty.
Qed.

(** ** Rows against the schema *)

(** The column types bind declares, from the bind data. *)
Lemma NatsScanBind_return_types (input : TableFunctionBindInput) (r : BindResult) :
  NatsScanBind input = Returns r ->
  return_types (schema r)
  = ([VARCHAR; VARCHAR; UBIGINT; TIMESTAMP;
      if negb (vector_empty (proto_fields (bind_data r))) then BLOB else VARCHAR]
     ++ map (fun _ => VARCHAR) (json_fields (bind_data r))
     ++ map (proto_column_type (proto_descriptor (bind_data r)))
          (proto_fields (bind_data r)))%list
  /\ (proto_fields (bind_data r) <> [] ->
      exists d, proto_descriptor (bind_data r) = Some d).
Proof.
  intros H. apply NatsScanBind_Returns in H.
  destruct H as (arg0 & rest & descriptor & _ & _ & _ & _ & Hparse & _ & _ & _ & _
                 & _ & _ & _ & Hjson & _ & _ & Hproto & Hdesc & Hschema).
  rewrite Hschema, define_return_schema_columns, Hjson, Hproto, Hdesc.
  split; [reflexivity|].
  intros Hne. apply parse_proto_schema_Returns in Hparse.
  destruct Hparse as [[Hnil _] | (_ & d & -> & _)]; [congruence | eauto].
Qed.

Lemma json_field_value_conforms (root : yyjson_val) (field_name : string) :
  conforms (json_field_value root field_name) VARCHAR = true.
Proof.
  unfold json_field_value.
  destruct (yyjson_obj_get root field_name) as [[]|]; try reflexivity;
    destruct (yyjson_val_write _); reflexivity.
Qed.

Lemma lookup_map {A B : Type} (f : A -> B) (l : list A) (i : nat) :
  map f l !! i = f <$> l !! i.
Proof. exact (list_lookup_fmap f l i). Qed.

(** Every column of the row [emit_row] writes is set, to a value that
    is null or of the declared type. *)
Lemma emit_row_conforms (bind : NatsScanBindData) (st : NatsScanGlobalState)
    (msg : natsMsg) (count : nat) (output after : DataChunk) (col : nat)
    (t : LogicalTypeId) :
  single_mode bind ->
  (proto_fields bind <> [] ->
   exists d, proto_descriptor bind = Some d /\ proto_prototype st = Some d) ->
  emit_row bind st msg count output = Returns after ->
  ([VARCHAR; VARCHAR; UBIGINT; TIMESTAMP;
    if negb (vector_empty (proto_fields bind)) then BLOB else VARCHAR]
   ++ map (fun _ => VARCHAR) (json_fields bind)
   ++ map (proto_column_type (proto_descriptor bind)) (proto_fields bind))%list
    !! col = Some t ->
  exists v, GetValue col count after = Some v /\ conforms v t = true.
Proof.
  intros Hmode Hdesc Hemit Hcol.
  destruct (emit_row_cells _ _ _ _ _ _ Hemit) as (_ & H0 & H1 & H2 & H3 & H4).
  destruct col as [|[|[|[|[|i]]]]].
  1-4: injection Hcol as <-; eexists; split; [eassumption | reflexivity].
  { injection Hcol as <-. eexists. split; [exact H4|].
    unfold payload_value. destruct (negb (vector_empty (proto_fields bind))); reflexivity. }
  change ((map (fun _ => VARCHAR) (json_fields bind)
           ++ map (proto_column_type (proto_descriptor bind)) (proto_fields bind))%list
            !! i = Some t) in Hcol.
  change (S (S (S (S (S i))))) with (5 + i)%nat.
  unfold emit_row, extract_proto_fields, extract_json_fields in Hemit.
  destruct Hmode as [Hnil | Hnil].
  - (* protobuf extraction, or none *)
    rewrite Hnil in Hcol, Hemit. cbn [vector_empty negb] in Hemit.
    change (map (proto_column_type (proto_descriptor bind)) (proto_fields bind) !! i
            = Some t) in Hcol.
    rewrite lookup_map in Hcol.
    destruct (proto_fields bind !! i) as [path|] eqn:Hi; [|discriminate].
    injection Hcol as <-.
    assert (Hne : proto_fields bind <> [])
      by (intros Hempty; rewrite Hempty in Hi; discriminate).
    destruct (Hdesc Hne) as (d & Hd & Hp).
    rewrite (vector_empty_false _ Hne), Hp, Hd in Hemit. rewrite Hd.
    destruct (ParseFromArray d (natsMsg_GetData msg)) as [m|];
      injection Hemit as <-.
    + eexists. split.
      * apply (set_extraction_columns_at _ _ 0 count _ i _ _ Hi). lia.
      * unfold ExtractProtobufValue, proto_column_type, GetFieldDescriptorForPath.
        apply ExtractProtobufValue_loop_conforms. apply split_field_path_nonempty.
    + eexists. split.
      * apply (set_extraction_columns_at _ _ 0 count _ i _ _ Hi). lia.
      * reflexivity.
  - (* JSON extraction, or none *)
    rewrite Hnil in Hcol, Hemit. cbn [vector_empty negb] in Hemit.
    change (map (fun _ : string => VARCHAR) (json_fields bind) ++ [])%list
      with (map (fun _ : string => VARCHAR) (json_fields bind) ++ [])%list in Hcol.
    rewrite app_nil_r, lookup_map in Hcol.
    destruct (json_fields bind !! i) as [f|] eqn:Hi; [|discriminate].
    injection Hcol as <-.
    assert (Hne : json_fields bind <> [])
      by (intros Hempty; rewrite Hempty in Hi; discriminate).
    rewrite (vector_empty_false _ Hne) in Hemit.
    destruct (yyjson_read (natsMsg_GetData msg)) as [root|];
      injection Hemit as <-.
    + eexists. split.
      * apply (set_extraction_columns_at _ _ 0 count _ i _ _ Hi). lia.
      * apply json_field_value_conforms.
    + eexists. split.
      * apply (set_extraction_columns_at _ _ 0 count _ i _ _ Hi). lia.
      * reflexivity.
Qed.

(** A call leaves the prototype as it is. *)
Lemma NatsScanExecute_prototype (fuel : nat) (br : Broker) (bind : NatsScanBindData)
    (st st' : NatsScanGlobalState) (output output' : DataChunk) :
  NatsScanExecute fuel br bind st output = Returns (st', output') ->
  proto_prototype st' = proto_prototype st.
Proof.
  unfold NatsScanExecute. intros H.
  destruct (done st); [injection H as <- _; reflexivity|].
  invert_bind H. rename a into r.
  apply prepare_scan_Returns in Hrun. destruct Hrun as [Hproto _].
  destruct r as [st1|st1]; cbn in Hproto; [|injection H as <- _; exact Hproto].
  unfold fill_chunk in H. invert_bind H. destruct a as [[st2 count] out2].
  apply fetch_loop_rows in Hrun. destruct Hrun as (_ & Hst2 & _).
  assert (Hp2 : proto_prototype st2 = proto_prototype st)
    by (rewrite Hst2; exact Hproto).
  destruct (effective_end_seq st2 <? current_seq st2); injection H as <- _; exact Hp2.
Qed.

(** Every chunk of a query is handed back by a call from a state that
    satisfies what the calls preserve. *)
Lemma run_query_calls (I : NatsScanGlobalState -> Prop) (fuel : nat) (br : Broker)
    (bind : NatsScanBindData) :
  (forall sa sb chunk, I sa ->
     NatsScanExecute fuel br bind sa reset_chunk = Returns (sb, chunk) -> I sb) ->
  forall (calls : nat) (st st' : NatsScanGlobalState) (chunks : list DataChunk),
  I st ->
  run_query calls fuel br bind st = Returns (chunks, st') ->
  I st'
  /\ Forall (fun chunk => exists sa sb,
               I sa /\ NatsScanExecute fuel br bind sa reset_chunk
                       = Returns (sb, chunk)) chunks.
Proof.
  intros Hstep. induction calls as [|calls IH]; intros st st' chunks Hst H.
  - injection H as <- <-. split; [exact Hst | constructor].
  - rewrite run_query_unfold in H.
    invert_bind H. destruct a as [st1 chunk].
    invert_bind H. destruct a as [chunks' st2].
    injection H as <- <-.
    destruct (IH _ _ _ (Hstep _ _ _ Hst Hrun) Hrun0) as [Hst2 Hall].
    split; [exact Hst2|]. constructor; [|exact Hall]. eauto.
Qed.

(** X16.  After a successful bind, every cell of every row of every
    chunk the query hands back, in each column of the schema bind
    declared, is set, and its value is null or of the type declared
    for the column. *)
Theorem rows_conform_to_schema (input : TableFunctionBindInput) (r : BindResult)
    (calls fuel : nat) (br : Broker) (chunks : list DataChunk)
    (st_end : NatsScanGlobalState) (chunk : DataChunk) (row col : nat)
    (t : LogicalTypeId) :
  NatsScanBind input = Returns r ->
  run_query calls fuel br (bind_data r) (NatsScanInitGlobal (bind_data r))
  = Returns (chunks, st_end) ->
  In chunk chunks ->
  (row < cardinality chunk)%nat ->
  return_types (schema r) !! col = Some t ->
  exists v, GetValue col row chunk = Some v /\ conforms v t = true.
Proof.
  intros Hbind Hrun Hin Hrow Hcol.
  pose proof (NatsScanBind_single_mode _ _ Hbind) as Hmode.
  destruct (NatsScanBind_return_types _ _ Hbind) as [Htypes Hdesc].
  rewrite Htypes in Hcol.
  set (bind := bind_data r) in *.
  assert (Hstep : forall sa sb c,
            proto_prototype sa = proto_prototype (NatsScanInitGlobal bind) ->
            NatsScanExecute fuel br bind sa reset_chunk = Returns (sb, c) ->
            proto_prototype sb = proto_prototype (NatsScanInitGlobal bind)).
  { intros sa sb c Hsa Hcall.
    rewrite (NatsScanExecute_prototype _ _ _ _ _ _ _ Hcall). exact Hsa. }
  destruct (run_query_calls _ fuel br bind Hstep calls _ _ _ eq_refl Hrun)
    as [_ Hall].
  rewrite Forall_forall in Hall.
  destruct (Hall chunk) as (sa & sb & Hsa & Hcall).
  { apply list_elem_of_In. exact Hin. }
  destruct (NatsScanExecute_rows _ _ _ _ _ _ _ row Hcall Hrow)
    as (st_row & msg & before & after & _ & _ & Hproto & Hemit & Hcells).
  rewrite Hcells.
  eapply emit_row_conforms; [exact Hmode | | exact Hemit | exact Hcol].
  intros Hne. destruct (Hdesc Hne) as [d Hd]. exists d. split; [exact Hd|].
  rewrite Hproto, Hsa. cbn. rewrite (vector_empty_false _ Hne). exact Hd.
Qed.

(** ** Named parameters *)

(** The names [bind_named_parameter] compares with. *)
Lemma option_name_cases (name : string) :
  (name = "subject" \/ name = "url" \/ name = "start_seq" \/ name = "end_seq"
   \/ name = "start_time" \/ name = "end_time" \/ name = "json_extract"
   \/ name = "proto_file" \/ name = "proto_message" \/ name = "proto_extract")
  \/ (String.eqb name "subject" = false /\ String.eqb name "url" = false
      /\ String.eqb name "start_seq" = false /\ String.eqb name "end_seq" = false
      /\ String.eqb name "start_time" = false /\ String.eqb name "end_time" = false
      /\ String.eqb name "json_extract" = false
      /\ String.eqb name "proto_file" = false
      /\ String.eqb name "proto_message" = false
      /\ String.eqb name "proto_extract" = false).
Proof.
  destruct (String.eqb_spec name "subject"); [tauto|].
  destruct (String.eqb_spec name "url"); [tauto|].
  destruct (String.eqb_spec name "start_seq"); [tauto|].
  destruct (String.eqb_spec name "end_seq"); [tauto|].
  destruct (String.eqb_spec name "start_time"); [tauto|].
  destruct (String.eqb_spec name "end_time"); [tauto|].
  destruct (String.eqb_spec name "json_extract"); [tauto|].
  destruct (String.eqb_spec name "proto_file"); [tauto|].
  destruct (String.eqb_spec name "proto_message"); [tauto|].
  destruct (String.eqb_spec name "proto_extract"); [tauto|].
  right. repeat split; reflexivity.
Qed.

(** A name bind does not compare with leaves the locals as they
    are. *)
Lemma bind_named_parameter_other (l : BindLocals) (name : string) (v : Value) :
  String.eqb name "subject" = false /\ String.eqb name "url" = false
  /\ String.eqb name "start_seq" = false /\ String.eqb name "end_seq" = false
  /\ String.eqb name "start_time" = false /\ String.eqb name "end_time" = false
  /\ String.eqb name "json_extract" = false
  /\ String.eqb name "proto_file" = false
  /\ String.eqb name "proto_message" = false
  /\ String.eqb name "proto_extract" = false ->
  bind_named_parameter l (name, v) = l.
Proof.
  intros (H1 & H2 & H3 & H4 & H5 & H6 & H7 & H8 & H9 & H10).
  destruct l. unfold bind_named_parameter.
  rewrite H1, H2, H3, H4, H5, H6, H7, H8, H9, H10. reflexivity.
Qed.

(** The locals after the loop over the parameters, read off the map
    of the parameters: a scalar is the value given under its name, or
    what it was before the loop; a list is what it was, followed by
    the texts given. *)
Lemma fold_bind_named_parameter_map (params : list (string * Value)) :
  forall l : BindLocals,
  NoDup params.*1 ->
  let m := parameter_map params in
  fold_left bind_named_parameter params l
  = {| l_subject_filter :=
         from_option StringValue_Get (l_subject_filter l) (m !! "subject");
       l_nats_url := from_option StringValue_Get (l_nats_url l) (m !! "url");
       l_start_seq := from_option UBigIntValue_Get (l_start_seq l) (m !! "start_seq");
       l_end_seq := from_option UBigIntValue_Get (l_end_seq l) (m !! "end_seq");
       l_start_time :=
         from_option (fun v => wrap_i64 (TimestampValue_Get v * 1000))
           (l_start_time l) (m !! "start_time");
       l_end_time :=
         from_option (fun v => wrap_i64 (TimestampValue_Get v * 1000))
           (l_end_time l) (m !! "end_time");
       l_json_fields :=
         l_json_fields l
         ++ from_option (fun v => map StringValue_Get (ListValue_GetChildren v)) []
              (m !! "json_extract");
       l_proto_file := from_option StringValue_Get (l_proto_file l) (m !! "proto_file");
       l_proto_message :=
         from_option StringValue_Get (l_proto_message l) (m !! "proto_message");
       l_proto_fields :=
         l_proto_fields l
         ++ from_option (fun v => map StringValue_Get (ListValue_GetChildren v)) []
              (m !! "proto_extract") |}.
Proof.
  unfold parameter_map.
  induction params as [|[name v] params IH]; intros l Hnodup; cbn zeta.
  - cbn [fold_left list_to_map foldr]. rewrite !lookup_empty. cbn.
    rewrite !app_nil_r. destruct l; reflexivity.
  - apply NoDup_cons in Hnodup. destruct Hnodup as [Hnotin Hnodup].
    cbn [fold_left]. rewrite (IH _ Hnodup). clear IH.
    rewrite list_to_map_cons.
    pose proof (not_elem_of_list_to_map_1 (M := gmap string) params name Hnotin)
      as Hnone.
    destruct (option_name_cases name) as [Hname | Hother].
    + destruct l.
      repeat (destruct Hname as [-> | Hname]); try subst name;
        rewrite lookup_insert_eq, !lookup_insert_ne by discriminate;
        rewrite Hnone; cbn; rewrite ?app_nil_r; reflexivity.
    + rewrite (bind_named_parameter_other _ _ _ Hother).
      destruct Hother as (H1 & H2 & H3 & H4 & H5 & H6 & H7 & H8 & H9 & H10).
      apply String.eqb_neq in H1, H2, H3, H4, H5, H6, H7, H8, H9, H10.
      rewrite !lookup_insert_ne by congruence. reflexivity.
Qed.

Lemma bind_named_parameters_options (params : list (string * Value)) :
  NoDup params.*1 ->
  bind_named_parameters params = options_of (parameter_map params).
Proof.
  intros Hnodup. unfold bind_named_parameters.
  rewrite (fold_bind_named_parameter_map params default_locals Hnodup).
  reflexivity.
Qed.

(** X17.  Bind reads each option by its name: in the bind data of a
    successful bind, every option has the value given under its name
    in the map of named parameters (for the two time bounds, that
    value in nanoseconds), and its default when the call does not
    give it. *)
Theorem bind_reads_options_by_name (input : TableFunctionBindInput) (r : BindResult) :
  NoDup (named_parameters input).*1 ->
  NatsScanBind input = Returns r ->
  let given := options_of (parameter_map (named_parameters input)) in
  subject_filter (bind_data r) = l_subject_filter given
  /\ nats_url (bind_data r) = l_nats_url given
  /\ start_seq (bind_data r) = l_start_seq given
  /\ end_seq (bind_data r) = l_end_seq given
  /\ start_time (bind_data r) = l_start_time given
  /\ end_time (bind_data r) = l_end_time given
  /\ json_fields (bind_data r) = l_json_fields given
  /\ proto_file (bind_data r) = l_proto_file given
  /\ proto_message (bind_data r) = l_proto_message given
  /\ proto_fields (bind_data r) = l_proto_fields given.
Proof.
  intros Hnodup H. cbn zeta.
  rewrite <- (bind_named_parameters_options _ Hnodup).
  apply NatsScanBind_Returns in H.
  destruct H as (arg0 & rest & descriptor & _ & _ & _ & _ & _ & _ & H1 & H2 & H3 & H4
                 & H5 & H6 & H7 & H8 & H9 & H10 & _).
  unfold bind_locals in *. tauto.
Qed.

(** X18.  The outcome of bind does not depend on the order in which
    the map of named parameters is iterated: two listings of the same
    entries (each name at most once) give the same outcome. *)
Theorem bind_independent_of_parameter_order (positional : list Value)
    (params params' : list (string * Value)) :
  NoDup params.*1 ->
  params ≡ₚ params' ->
  NatsScanBind {| inputs := positional; named_parameters := params |}
  = NatsScanBind {| inputs := positional; named_parameters := params' |}.
Proof.
  intros Hnodup Hperm.
  assert (Hnodup' : NoDup params'.*1) by (rewrite <- Hperm; exact Hnodup).
  unfold NatsScanBind. cbn [inputs named_parameters].
  rewrite (bind_named_parameters_options _ Hnodup),
          (bind_named_parameters_options _ Hnodup').
  unfold parameter_map.
  rewrite (list_to_map_proper params params' Hnodup Hperm). reflexivity.
Qed.

(** ** Registration *)

(** X19.  Loading the extension registers one more table function,
    [nats_scan], with one positional argument of type varchar and
    with [NatsScanBind] as its bind callback; its named parameters are
    exactly the names bind reacts to: a name is registered if and only
    if some value given under it changes the locals of bind. *)
Theorem registered_options_are_the_ones_bind_reads (loader : ExtensionLoader) :
  exists nats_scan,
    nats_js_duckdb_cpp_init loader = (loader ++ [nats_scan])%list
    /\ tf_name nats_scan = "nats_scan"
    /\ tf_arguments nats_scan = [LogicalType_of VARCHAR]
    /\ tf_bind nats_scan = NatsScanBind
    /\ forall name,
         is_Some (tf_named_parameters nats_scan !! name)
         <-> exists l v, bind_named_parameter l (name, v) <> l.
Proof.
  eexists. split; [reflexivity|]. split; [reflexivity|].
  split; [reflexivity|]. split; [reflexivity|].
  intros name. cbn [tf_named_parameters set_named_parameter].
  destruct (option_name_cases name) as [Hname | Hother].
  - split.
    + intros _.
      repeat (destruct Hname as [-> | Hname]); try subst name.
      * exists default_locals, (Value_VARCHAR "a"). discriminate.
      * exists default_locals, (Value_VARCHAR "a"). discriminate.
      * exists default_locals, (Value_UBIGINT 1). discriminate.
      * exists default_locals, (Value_UBIGINT 1). discriminate.
      * exists default_locals, (Value_TIMESTAMP 1).
        intros H. apply (f_equal l_start_time) in H. vm_compute in H. discriminate.
      * exists default_locals, (Value_TIMESTAMP 1).
        intros H. apply (f_equal l_end_time) in H. vm_compute in H. discriminate.
      * exists default_locals, (Value_LIST [Value_VARCHAR "a"]). discriminate.
      * exists default_locals, (Value_VARCHAR "a"). discriminate.
      * exists default_locals, (Value_VARCHAR "a"). discriminate.
      * exists default_locals, (Value_LIST [Value_VARCHAR "a"]). discriminate.
    + intros _.
      repeat (destruct Hname as [-> | Hname]); try subst name;
        rewrite ?lookup_insert_ne by discriminate;
        rewrite lookup_insert_eq; eauto.
  - split.
    + intros Hsome. exfalso.
      destruct Hother as (H1 & H2 & H3 & H4 & H5 & H6 & H7 & H8 & H9 & H10).
      apply String.eqb_neq in H1, H2, H3, H4, H5, H6, H7, H8, H9, H10.
      rewrite !lookup_insert_ne, lookup_empty in Hsome by congruence.
      destruct Hsome as [x Hx]. discriminate.
    + intros (l & v & Hchange). exfalso. apply Hchange.
      apply bind_named_parameter_other. exact Hother.
Qed.

(** ** The error collector *)

Lemma fold_left_lines (errs : list string) :
  forall result : string,
  fold_left (fun result err => result +:+ (err +:+ newline)) errs result
  = result +:+ fold_left (fun result err => result +:+ (err +:+ newline)) errs "".
Proof.
  induction errs as [|err errs IH]; intros result; cbn [fold_left].
  - rewrite string_app_empty_r. reflexivity.
  - rewrite IH. rewrite (IH ("" +:+ (err +:+ newline))).
    rewrite string_app_assoc. reflexivity.
Qed.

(** X20.  The text of the collector is empty exactly when no error
    was recorded, and recording an error appends one line to it:
    file, line and column separated by colons, then the message. *)
Theorem GetErrors_one_line_per_error (c : ProtobufErrorCollector) :
  (HasErrors c = false <-> GetErrors c = "")
  /\ forall filename line column message,
       GetErrors (AddError filename line column message c)
       = GetErrors c
         +:+ (filename +:+ ":" +:+ pretty line +:+ ":" +:+ pretty column +:+ ": "
              +:+ message +:+ newline)
       /\ HasErrors (AddError filename line column message c) = true.
Proof.
  split.
  - unfold HasErrors, GetErrors. destruct (errors c) as [|err errs]; cbn.
    + split; reflexivity.
    + split; [discriminate|]. rewrite fold_left_lines. intros H.
      apply (f_equal String.length) in H.
      rewrite !string_length_app in H. cbn in H. lia.
  - intros filename line column message. split.
    + unfold GetErrors, AddError, emplace_back. cbn [errors].
      rewrite fold_left_app. cbn [fold_left].
      rewrite !string_app_assoc. reflexivity.
    + unfold HasErrors, AddError, emplace_back. cbn [errors].
      destruct (errors c); reflexivity.
Qed.

(** ** What a query emits *)

Lemma filter_length_le {A : Type} (f : A -> bool) (l : list A) :
  (length (List.filter f l) <= length l)%nat.
Proof.
  induction l as [|x l IH]; cbn; [lia|]. destruct (f x); cbn; lia.
Qed.

(** The loop emits exactly the sequences of the stretch it passes
    that the scan lets through, in increasing order, one row each; it
    passes no sequence at which the broker reports an error, and it
    stops at the end of the window. *)
Lemma fetch_loop_exact (br : Broker) (bind : NatsScanBindData) (fuel : nat) :
  forall (st : NatsScanGlobalState) (count : nat) (output : DataChunk)
         (st' : NatsScanGlobalState) (count' : nat) (output' : DataChunk),
  0 <= current_seq st ->
  effective_end_seq st < UINT64_MAX ->
  fetch_loop fuel br bind st count output = Returns (st', count', output') ->
  current_seq st <= current_seq st'
  /\ current_seq st' <= Z.max (current_seq st) (effective_end_seq st + 1)
  /\ (forall s e, current_seq st <= s < current_seq st' ->
        js_DirectGetMsg br (stream_name bind) s <> DirectGet_ERR e)
  /\ count' = (count + length (List.filter (passes br bind)
                                 (seqZ (current_seq st)
                                    (current_seq st' - current_seq st))))%nat
  /\ forall k s,
       List.filter (passes br bind)
         (seqZ (current_seq st) (current_seq st' - current_seq st)) !! k = Some s ->
       GetValue 2 (count + k) output' = Some (Value_UBIGINT s).
Proof.
  induction fuel as [|fuel IH]; intros st count output st' count' output' H0 Hend H.
  - rewrite fetch_loop_zero in H.
    destruct ((count <? STANDARD_VECTOR_SIZE)%nat
              && (current_seq st <=? effective_end_seq st)); [discriminate|].
    injection H as <- <- <-. rewrite Z.sub_diag. change (seqZ (current_seq st) 0) with (@nil Z). cbn.
    split; [lia|]. split; [lia|]. split; [intros; lia|]. split; [lia|].
    intros k s Hk. discriminate.
  - rewrite fetch_loop_unfold in H.
    destruct ((count <? STANDARD_VECTOR_SIZE)%nat
              && (current_seq st <=? effective_end_seq st)) eqn:Hcond.
    2:{ injection H as <- <- <-. rewrite Z.sub_diag. change (seqZ (current_seq st) 0) with (@nil Z). cbn.
        split; [lia|]. split; [lia|]. split; [intros; lia|]. split; [lia|].
        intros k s Hk. discriminate. }
    apply andb_true_iff in Hcond. destruct Hcond as [_ Hle].
    apply Z.leb_le in Hle.
    destruct (advance_no_wrap st H0 ltac:(lia)) as [Hadv Hadv_end].
    assert (Hcons : forall cur', current_seq st + 1 <= cur' ->
              seqZ (current_seq st) (cur' - current_seq st)
              = current_seq st :: seqZ (current_seq st + 1) (cur' - (current_seq st + 1))).
    { intros cur' Hcur'. rewrite seqZ_cons by lia. f_equal. f_equal; lia. }
    assert (Hskip : passes br bind (current_seq st) = false ->
                    (forall e, js_DirectGetMsg br (stream_name bind) (current_seq st)
                               <> DirectGet_ERR e) ->
                    fetch_loop fuel br bind (advance st) count output
                    = Returns (st', count', output') ->
            current_seq st <= current_seq st'
            /\ current_seq st' <= Z.max (current_seq st) (effective_end_seq st + 1)
            /\ (forall s e, current_seq st <= s < current_seq st' ->
                  js_DirectGetMsg br (stream_name bind) s <> DirectGet_ERR e)
            /\ count' = (count + length (List.filter (passes br bind)
                                           (seqZ (current_seq st)
                                              (current_seq st' - current_seq st))))%nat
            /\ forall k s,
                 List.filter (passes br bind)
                   (seqZ (current_seq st) (current_seq st' - current_seq st)) !! k
                 = Some s ->
                 GetValue 2 (count + k) output' = Some (Value_UBIGINT s)).
    { intros Hpass Hnoerr Hloop. apply IH in Hloop; [|lia|lia].
      rewrite Hadv, Hadv_end in Hloop.
      destruct Hloop as (Hcur & Hmax & Herr & Hlen & Hcells).
      rewrite (Hcons _ Hcur). cbn [List.filter]. rewrite Hpass.
      split; [lia|]. split; [lia|]. split; [|split; [exact Hlen | exact Hcells]].
      intros s e Hs. destruct (decide (s = current_seq st)) as [->|Hne].
      - apply Hnoerr.
      - apply Herr. lia. }
    destruct (js_DirectGetMsg br (stream_name bind) (current_seq st))
      as [msg| |s] eqn:Hget; [| |discriminate].
    2:{ apply Hskip; [|discriminate|exact H]. unfold passes. rewrite Hget. reflexivity. }
    destruct (subject_rejected bind msg) eqn:Hrej.
    { apply Hskip; [|discriminate|exact H].
      unfold passes. rewrite Hget, Hrej. reflexivity. }
    invert_bind H. rename a into out1.
    pose proof (fetch_loop_rows _ _ _ _ _ _ _ _ _ H) as (_ & _ & Hframe & _).
    apply IH in H; [|lia|lia].
    rewrite Hadv, Hadv_end in H.
    destruct H as (Hcur & Hmax & Herr & Hlen & Hcells).
    destruct (emit_row_cells _ _ _ _ _ _ Hrun) as (_ & _ & _ & Hseq & _).
    rewrite (Hcons _ Hcur). cbn [List.filter].
    assert (Hpass : passes br bind (current_seq st) = true)
      by (unfold passes; rewrite Hget, Hrej; reflexivity).
    rewrite Hpass.
    split; [lia|]. split; [lia|]. split; [|split].
    + intros s e Hs. destruct (decide (s = current_seq st)) as [->|Hne].
      * rewrite Hget. discriminate.
      * apply Herr. lia.
    + cbn [length]. lia.
    + intros [|k] s Hk; cbn in Hk.
      * injection Hk as <-. rewrite Nat.add_0_r, Hframe by lia. exact Hseq.
      * replace (count + S k)%nat with (S count + k)%nat by lia.
        apply Hcells. exact Hk.
Qed.

Lemma scanned_refl (br : Broker) (bind : NatsScanBindData)
    (st st' : NatsScanGlobalState) :
  current_seq st' = current_seq st ->
  effective_end_seq st' = effective_end_seq st ->
  scanned br bind st st' [].
Proof.
  intros Hcur Hend. unfold scanned. rewrite Hcur, Z.sub_diag.
  split; [lia|]. split; [lia|]. split; [exact Hend|].
  split; [intros; lia | reflexivity].
Qed.

Lemma scanned_trans (br : Broker) (bind : NatsScanBindData)
    (st st1 st2 : NatsScanGlobalState) (emitted1 emitted2 : list (option Value)) :
  scanned br bind st st1 emitted1 ->
  scanned br bind st1 st2 emitted2 ->
  scanned br bind st st2 (emitted1 ++ emitted2).
Proof.
  intros (Hcur1 & Hmax1 & Hend1 & Herr1 & ->) (Hcur2 & Hmax2 & Hend2 & Herr2 & ->).
  unfold scanned. rewrite Hend1 in Hmax2.
  split; [lia|]. split; [lia|]. split; [congruence|]. split.
  - intros s e Hs. destruct (decide (s < current_seq st1)).
    + apply Herr1. lia.
    + apply Herr2. lia.
  - replace (current_seq st2 - current_seq st)
      with ((current_seq st1 - current_seq st) + (current_seq st2 - current_seq st1))
      by lia.
    rewrite seqZ_app by lia.
    replace (current_seq st + (current_seq st1 - current_seq st))
      with (current_seq st1) by lia.
    rewrite List.filter_app, map_app. reflexivity.
Qed.

(** One filled chunk, from a settled state that is not done. *)
Lemma fill_chunk_exact (fuel : nat) (br : Broker) (bind : NatsScanBindData)
    (st st' : NatsScanGlobalState) (chunk : DataChunk) :
  settled bind st ->
  0 <= current_seq st ->
  effective_end_seq st < UINT64_MAX ->
  done st = false ->
  fill_chunk fuel br bind st reset_chunk = Returns (st', chunk) ->
  settled bind st'
  /\ (done st' = true -> effective_end_seq st' < current_seq st')
  /\ scanned br bind st st' (chunk_column 2 chunk).
Proof.
  intros Hset H0 Hend Hdone H. unfold fill_chunk in H.
  invert_bind H. destruct a as [[st2 count] out2].
  pose proof (fetch_loop_rows _ _ _ _ _ _ _ _ _ Hrun) as (_ & Hst2 & _ & _).
  apply fetch_loop_exact in Hrun; [|exact H0|exact Hend].
  destruct Hrun as (Hcur & Hmax & Herr & Hlen & Hcells).
  assert (Hend2 : effective_end_seq st2 = effective_end_seq st)
    by (rewrite Hst2; reflexivity).
  assert (Hst' : settled bind st' /\ effective_end_seq st' = effective_end_seq st
                 /\ current_seq st' = current_seq st2
                 /\ (done st' = true -> effective_end_seq st2 < current_seq st2)).
  { destruct (effective_end_seq st2 <? current_seq st2) eqn:Hcmp;
      injection H as <- _.
    - split; [rewrite Hst2; exact Hset|]. split; [exact Hend2|].
      split; [reflexivity|]. intros _. apply Z.ltb_lt. exact Hcmp.
    - split; [rewrite Hst2; exact Hset|]. split; [exact Hend2|].
      split; [reflexivity|]. rewrite Hst2. cbn. congruence. }
  destruct Hst' as (Hset' & Hend' & Hcur' & Hdone').
  injection H as _ <-.
  split; [exact Hset'|]. split; [rewrite Hend', Hcur', <- Hend2; exact Hdone'|].
  unfold scanned. rewrite Hcur'.
  split; [exact Hcur|]. split; [exact Hmax|]. split; [exact Hend'|].
  split; [exact Herr|].
  apply chunk_column_seqs; [cbn; lia|].
  intros k s Hk. rewrite GetValue_SetCardinality. apply (Hcells k s Hk).
Qed.

(** One call, from a settled state. *)
Lemma NatsScanExecute_settled_exact (fuel : nat) (br : Broker)
    (bind : NatsScanBindData) (st st' : NatsScanGlobalState) (chunk : DataChunk) :
  settled bind st ->
  0 <= current_seq st ->
  effective_end_seq st < UINT64_MAX ->
  (done st = true -> effective_end_seq st < current_seq st) ->
  NatsScanExecute fuel br bind st reset_chunk = Returns (st', chunk) ->
  settled bind st'
  /\ (done st' = true -> effective_end_seq st' < current_seq st')
  /\ scanned br bind st st' (chunk_column 2 chunk).
Proof.
  intros Hset H0 Hend Hinv H. unfold NatsScanExecute in H.
  destruct (done st) eqn:Hdone.
  { injection H as <- <-. split; [exact Hset|].
    split; [intros _; exact (Hinv eq_refl)|].
    apply scanned_refl; reflexivity. }
  rewrite (prepare_scan_settled fuel br bind st Hset) in H. cbn in H.
  destruct (effective_end_seq st <? current_seq st) eqn:Hcmp.
  - injection H as <- <-. split; [exact Hset|].
    split; [intros _; apply Z.ltb_lt; exact Hcmp|].
    apply scanned_refl; reflexivity.
  - exact (fill_chunk_exact fuel br bind st st' chunk Hset H0 Hend Hdone H).
Qed.

(** Any number of calls, from a settled state. *)
Lemma run_query_settled_exact (fuel : nat) (br : Broker) (bind : NatsScanBindData)
    (calls : nat) :
  forall (st st' : NatsScanGlobalState) (chunks : list DataChunk),
  settled bind st ->
  0 <= current_seq st ->
  effective_end_seq st < UINT64_MAX ->
  (done st = true -> effective_end_seq st < current_seq st) ->
  run_query calls fuel br bind st = Returns (chunks, st') ->
  settled bind st'
  /\ (done st' = true -> effective_end_seq st' < current_seq st')
  /\ scanned br bind st st' (emitted_seqs chunks).
Proof.
  induction calls as [|calls IH]; intros st st' chunks Hset H0 Hend Hinv H.
  - injection H as <- <-. split; [exact Hset|]. split; [exact Hinv|].
    apply scanned_refl; reflexivity.
  - rewrite run_query_unfold in H.
    invert_bind H. destruct a as [st1 chunk].
    invert_bind H. destruct a as [chunks' st2].
    injection H as <- <-.
    apply NatsScanExecute_settled_exact in Hrun; try assumption.
    destruct Hrun as (Hset1 & Hinv1 & Hscan1).
    pose proof Hscan1 as (Hcur1 & _ & Hend1 & _).
    apply IH in Hrun0; [|exact Hset1|lia|lia|exact Hinv1].
    destruct Hrun0 as (Hset2 & Hinv2 & Hscan2).
    split; [exact Hset2|]. split; [exact Hinv2|].
    rewrite emitted_seqs_cons. eapply scanned_trans; eassumption.
Qed.

(** A query from its initial state, once the preparation of the first
    call is known. *)
Lemma run_query_exact (fuel calls : nat) (br : Broker) (bind : NatsScanBindData)
    (st1 st_end : NatsScanGlobalState) (chunks : list DataChunk) :
  prepare_scan fuel br bind (NatsScanInitGlobal bind) = Returns (Ready st1) ->
  effective_end_seq st1 < UINT64_MAX ->
  run_query (S calls) fuel br bind (NatsScanInitGlobal bind)
  = Returns (chunks, st_end) ->
  settled bind st_end
  /\ (done st_end = true -> effective_end_seq st_end < current_seq st_end)
  /\ scanned br bind st1 st_end (emitted_seqs chunks).
Proof.
  intros Hprep Hend H.
  rewrite run_query_unfold in H.
  invert_bind H. destruct a as [st2 chunk].
  invert_bind H. destruct a as [chunks' st3].
  injection H as <- <-.
  unfold NatsScanExecute in Hrun.
  change (done (NatsScanInitGlobal bind)) with false in Hrun.
  cbv iota in Hrun. rewrite Hprep in Hrun. cbn in Hrun.
  pose proof (prepare_scan_Returns _ _ _ _ _ Hprep) as (_ & Hset & Hdone & _).
  pose proof (prepare_scan_cursor _ _ _ _ _
                (Z.lt_le_incl _ _ (NatsScanInitGlobal_cursor bind)) Hprep) as H0.
  apply fill_chunk_exact in Hrun; [|exact Hset|exact H0|exact Hend|exact Hdone].
  destruct Hrun as (Hset2 & Hinv2 & Hscan2).
  pose proof Hscan2 as (Hcur2 & _ & Hend2 & _).
  apply run_query_settled_exact in Hrun0; [|exact Hset2|lia|lia|exact Hinv2].
  destruct Hrun0 as (Hset3 & Hinv3 & Hscan3).
  split; [exact Hset3|]. split; [exact Hinv3|].
  rewrite emitted_seqs_cons. eapply scanned_trans; eassumption.
Qed.

(** A finished query has emitted the whole window. *)
Lemma finished_query_window (fuel calls : nat) (br : Broker)
    (bind : NatsScanBindData) (st1 st_end : NatsScanGlobalState)
    (chunks : list DataChunk) :
  prepare_scan fuel br bind (NatsScanInitGlobal bind) = Returns (Ready st1) ->
  effective_end_seq st1 < UINT64_MAX ->
  run_query calls fuel br bind (NatsScanInitGlobal bind) = Returns (chunks, st_end) ->
  done st_end = true ->
  emitted_seqs chunks
  = map (fun s => Some (Value_UBIGINT s))
      (List.filter (passes br bind)
         (window (current_seq st1) (effective_end_seq st1)))
  /\ forall s e, current_seq st1 <= s <= effective_end_seq st1 ->
       js_DirectGetMsg br (stream_name bind) s <> DirectGet_ERR e.
Proof.
  intros Hprep Hend H Hdone.
  destruct calls as [|calls].
  { injection H as _ <-. discriminate. }
  destruct (run_query_exact _ _ _ _ _ _ _ Hprep Hend H)
    as (_ & Hinv & Hcur & Hmax & Hend' & Herr & Hseqs).
  pose proof (prepare_scan_Returns _ _ _ _ _ Hprep) as (_ & _ & _ & Hle).
  specialize (Hinv Hdone).
  assert (Hlast : current_seq st_end = effective_end_seq st1 + 1) by lia.
  rewrite Hlast in Hseqs, Herr. unfold window.
  split; [exact Hseqs|]. intros s e Hs. apply Herr. lia.
Qed.

(** X21.  Take a query whose first call gets past the preparation
    with the window from [current_seq st1] to [effective_end_seq st1]
    (the end below [UINT64_MAX]), and that has finished: after some
    number of calls the state is marked done.  Then the [seq] cells of
    the rows handed back, in emission order, are exactly the sequences
    of the window at which the broker serves a message whose subject
    the filter accepts, in increasing order: none is left out, none
    comes twice.  And the broker reported an error at no sequence of
    the window. *)
Theorem finished_query_emits_window (fuel calls : nat) (br : Broker)
    (bind : NatsScanBindData) (st1 st_end : NatsScanGlobalState)
    (chunks : list DataChunk) :
  prepare_scan fuel br bind (NatsScanInitGlobal bind) = Returns (Ready st1) ->
  effective_end_seq st1 < UINT64_MAX ->
  run_query calls fuel br bind (NatsScanInitGlobal bind) = Returns (chunks, st_end) ->
  done st_end = true ->
  emitted_seqs chunks
  = map (fun s => Some (Value_UBIGINT s))
      (List.filter (passes br bind)
         (window (current_seq st1) (effective_end_seq st1)))
  /\ forall s e, current_seq st1 <= s <= effective_end_seq st1 ->
       js_DirectGetMsg br (stream_name bind) s <> DirectGet_ERR e.
Proof. apply finished_query_window. Qed.

(** ** Sequence windows *)

(** The preparation of the first call of a query without time
    bounds: the window starts at [start_seq] (at 1 when none is given)
    and ends at [end_seq] (at the last sequence of the stream when
    none is given). *)
Lemma prepare_scan_sequence_window (fuel : nat) (br : Broker)
    (bind : NatsScanBindData) (info : jsStreamInfo) (r : Prepared) :
  start_time bind <= 0 -> end_time bind <= 0 ->
  js_GetStreamInfo br (stream_name bind) = inl info ->
  prepare_scan fuel br bind (NatsScanInitGlobal bind) = Returns r ->
  let lo := if 0 <? start_seq bind then start_seq bind else 1 in
  let hi := if end_seq bind =? UINT64_MAX then LastSeq info else end_seq bind in
  match r with
  | Ready st1 => current_seq st1 = lo /\ effective_end_seq st1 = hi
  | Finished _ => hi < lo
  end.
Proof.
  intros Hstart Hend Hinfo H.
  apply Z.ltb_ge in Hstart, Hend.
  unfold prepare_scan, create_connection, create_jetstream, resolve_timestamps in H.
  cbn [NatsScanInitGlobal conn js stream_info] in H.
  destruct (natsOptions_Create br); try discriminate H.
  destruct (natsOptions_SetTimeout br 5000); try discriminate H.
  destruct (natsOptions_SetURL br (nats_url bind)); try discriminate H.
  destruct (natsConnection_Connect br (nats_url bind)); try discriminate H.
  destruct (natsConnection_JetStream br); try discriminate H.
  rewrite Hinfo, Hstart, Hend in H.
  cbn [NatsScanInitGlobal expect_ok mbind outcome_bind conn js stream_info
       timestamps_resolved effective_end_seq current_seq done negb andb orb] in H.
  cbv zeta.
  destruct ((if end_seq bind =? UINT64_MAX then LastSeq info else end_seq bind)
            <? (if 0 <? start_seq bind then start_seq bind else 1)) eqn:Hcmp;
    injection H as <-.
  - apply Z.ltb_lt. exact Hcmp.
  - split; reflexivity.
Qed.

(** X22.  A query without time bounds that has finished has emitted
    exactly the messages of its sequence window: the [seq] cells of
    its rows, in emission order, are the sequences from [start_seq]
    (from 1 when none is given) to [end_seq] (to the last sequence of
    the stream when none is given) at which the broker serves a
    message whose subject the filter accepts, in increasing order. *)
Theorem sequence_query_emits_window (fuel calls : nat) (br : Broker)
    (bind : NatsScanBindData) (info : jsStreamInfo) (chunks : list DataChunk)
    (st_end : NatsScanGlobalState) :
  start_time bind <= 0 -> end_time bind <= 0 ->
  js_GetStreamInfo br (stream_name bind) = inl info ->
  (if end_seq bind =? UINT64_MAX then LastSeq info else end_seq bind) < UINT64_MAX ->
  run_query calls fuel br bind (NatsScanInitGlobal bind) = Returns (chunks, st_end) ->
  done st_end = true ->
  emitted_seqs chunks
  = map (fun s => Some (Value_UBIGINT s))
      (List.filter (passes br bind)
         (window (if 0 <? start_seq bind then start_seq bind else 1)
            (if end_seq bind =? UINT64_MAX then LastSeq info else end_seq bind))).
Proof.
  intros Hstart Hend Hinfo Hhi H Hdone.
  destruct calls as [|calls].
  { injection H as _ <-. discriminate. }
  pose proof H as Hrun. rewrite run_query_unfold in Hrun.
  invert_bind Hrun. clear Hrun. unfold NatsScanExecute in Hrun0.
  change (done (NatsScanInitGlobal bind)) with false in Hrun0. cbv iota in Hrun0.
  invert_bind Hrun0. clear Hrun0. rename a0 into r.
  pose proof (prepare_scan_sequence_window _ _ _ _ _ Hstart Hend Hinfo Hrun) as Hr.
  cbv zeta in Hr. destruct r as [st1|st1].
  - destruct Hr as [Hlo Hhi1]. rewrite <- Hhi1 in Hhi. rewrite <- Hlo, <- Hhi1.
    exact (proj1 (finished_query_window _ _ _ _ _ _ _ Hrun Hhi H Hdone)).
  - unfold window. rewrite seqZ_nil by lia. cbn.
    eapply run_query_finished; [|exact H]. right. eauto.
Qed.

(** ** Termination of a query *)

(** A call that fills a chunk from a window that is not empty moves
    the cursor forward, and leaves the query either done or with a
    smaller window. *)
Lemma fill_chunk_progress (fuel : nat) (br : Broker) (bind : NatsScanBindData)
    (st : NatsScanGlobalState) :
  settled bind st ->
  (is_Some (proto_prototype st) -> is_Some (proto_descriptor bind)) ->
  (0 < STANDARD_VECTOR_SIZE)%nat ->
  0 <= current_seq st ->
  current_seq st <= effective_end_seq st ->
  effective_end_seq st < UINT64_MAX ->
  effective_end_seq st - current_seq st < Z.of_nat fuel ->
  (forall s e, current_seq st <= s <= effective_end_seq st ->
     js_DirectGetMsg br (stream_name bind) s <> DirectGet_ERR e) ->
  exists st' chunk,
    fill_chunk fuel br bind st reset_chunk = Returns (st', chunk)
    /\ settled bind st'
    /\ proto_prototype st' = proto_prototype st
    /\ effective_end_seq st' = effective_end_seq st
    /\ current_seq st < current_seq st'
    /\ (done st' = true \/ current_seq st' <= effective_end_seq st').
Proof.
  intros Hset Hproto Hsize H0 Hle Hend Hfuel Hok.
  destruct (fetch_loop_total br bind fuel st 0 reset_chunk Hproto H0 Hend Hok Hfuel)
    as [[[st2 count] out2] Hloop].
  pose proof (fetch_loop_rows _ _ _ _ _ _ _ _ _ Hloop) as (_ & Hst2 & _ & _).
  pose proof (fetch_loop_exit _ _ _ _ _ _ _ _ _ Hloop) as [_ Hexit].
  pose proof (fetch_loop_exact _ _ _ _ _ _ _ _ _ H0 Hend Hloop)
    as (Hcur & _ & _ & Hlen & _).
  assert (Hend2 : effective_end_seq st2 = effective_end_seq st)
    by (rewrite Hst2; reflexivity).
  assert (Hadv : current_seq st < current_seq st2).
  { destruct (decide (count < STANDARD_VECTOR_SIZE)%nat) as [Hlt|Hge].
    - specialize (Hexit Hlt). lia.
    - pose proof (filter_length_le (passes br bind)
                    (seqZ (current_seq st) (current_seq st2 - current_seq st))) as Hf.
      rewrite length_seqZ in Hf. lia. }
  unfold fill_chunk. rewrite Hloop. cbn.
  destruct (effective_end_seq st2 <? current_seq st2) eqn:Hcmp.
  - eexists _, _. split; [reflexivity|].
    split; [rewrite Hst2; exact Hset|]. split; [rewrite Hst2; reflexivity|].
    split; [exact Hend2|]. split; [exact Hadv|]. left. reflexivity.
  - eexists _, _. split; [reflexivity|].
    split; [rewrite Hst2; exact Hset|]. split; [rewrite Hst2; reflexivity|].
    split; [exact Hend2|]. split; [exact Hadv|]. right. apply Z.ltb_ge. exact Hcmp.
Qed.

Lemma run_query_settled_finishes (fuel : nat) (br : Broker) (bind : NatsScanBindData)
    (calls : nat) :
  forall st : NatsScanGlobalState,
  settled bind st ->
  (is_Some (proto_prototype st) -> is_Some (proto_descriptor bind)) ->
  (0 < STANDARD_VECTOR_SIZE)%nat ->
  0 <= current_seq st ->
  effective_end_seq st < UINT64_MAX ->
  effective_end_seq st - current_seq st < Z.of_nat fuel ->
  (forall s e, current_seq st <= s <= effective_end_seq st ->
     js_DirectGetMsg br (stream_name bind) s <> DirectGet_ERR e) ->
  done st = true
  \/ ((1 <= calls)%nat /\ effective_end_seq st + 1 - current_seq st <= Z.of_nat calls) ->
  exists chunks st',
    run_query calls fuel br bind st = Returns (chunks, st') /\ done st' = true.
Proof.
  induction calls as [|calls IH];
    intros st Hset Hproto Hsize H0 Hend Hfuel Hok Hcalls.
  { destruct Hcalls as [Hdone | [Hone _]]; [|lia].
    exists [], st. split; [reflexivity | exact Hdone]. }
  destruct (done st) eqn:Hdone.
  { eexists _, st. split; [apply run_query_done; exact Hdone | exact Hdone]. }
  destruct Hcalls as [Hcontra | [_ Hcalls]]; [discriminate|].
  rewrite run_query_unfold. unfold NatsScanExecute. rewrite Hdone.
  rewrite (prepare_scan_settled fuel br bind st Hset).
  destruct (effective_end_seq st <? current_seq st) eqn:Hcmp.
  - cbn. rewrite (run_query_done fuel br bind (set_done st) calls eq_refl). cbn.
    eexists _, _. split; reflexivity.
  - apply Z.ltb_ge in Hcmp.
    destruct (fill_chunk_progress fuel br bind st Hset Hproto Hsize H0 Hcmp Hend
                Hfuel Hok)
      as (st1 & chunk & Hfill & Hset1 & Hproto1 & Hend1 & Hadv & Hnext).
    cbn. rewrite Hfill. cbn.
    destruct (IH st1) as (chunks & st2 & Hrest & Hdone2).
    + exact Hset1.
    + rewrite Hproto1. exact Hproto.
    + exact Hsize.
    + lia.
    + lia.
    + lia.
    + intros s e Hs. apply Hok. lia.
    + destruct Hnext as [Hd | Hle]; [left; exact Hd | right; lia].
    + rewrite Hrest. cbn. eexists _, _. split; [reflexivity | exact Hdone2].
Qed.

(** X23.  A query finishes.  Let the first call get past the
    preparation with a window that ends below [UINT64_MAX], let the
    broker report no error at a sequence of the window, let the fuel
    of a call cover the window, and let a chunk hold at least one
    row.  Then as many calls as the window has sequences (or more)
    all return, and leave the query marked done. *)
Theorem query_finishes (fuel calls : nat) (br : Broker) (bind : NatsScanBindData)
    (st1 : NatsScanGlobalState) :
  prepare_scan fuel br bind (NatsScanInitGlobal bind) = Returns (Ready st1) ->
  (0 < STANDARD_VECTOR_SIZE)%nat ->
  effective_end_seq st1 < UINT64_MAX ->
  effective_end_seq st1 - current_seq st1 < Z.of_nat fuel ->
  (forall s e, current_seq st1 <= s <= effective_end_seq st1 ->
     js_DirectGetMsg br (stream_name bind) s <> DirectGet_ERR e) ->
  effective_end_seq st1 + 1 - current_seq st1 <= Z.of_nat calls ->
  exists chunks st_end,
    run_query calls fuel br bind (NatsScanInitGlobal bind) = Returns (chunks, st_end)
    /\ done st_end = true.
Proof.
  intros Hprep Hsize Hend Hfuel Hok Hcalls.
  pose proof (prepare_scan_Returns _ _ _ _ _ Hprep) as (Hproto & Hset & Hdone & Hle).
  pose proof (prepare_scan_cursor _ _ _ _ _
                (Z.lt_le_incl _ _ (NatsScanInitGlobal_cursor bind)) Hprep) as H0.
  cbn [prepared_state] in Hproto.
  assert (Hok1 : is_Some (proto_prototype st1) -> is_Some (proto_descriptor bind)).
  { rewrite Hproto. apply (NatsScanInitGlobal_state_ok bind). }
  destruct calls as [|calls]; [lia|].
  rewrite run_query_unfold. unfold NatsScanExecute.
  change (done (NatsScanInitGlobal bind)) with false. cbv iota.
  rewrite Hprep.
  destruct (fill_chunk_progress fuel br bind st1 Hset Hok1 Hsize H0 Hle Hend
              Hfuel Hok)
    as (st2 & chunk & Hfill & Hset2 & Hproto2 & Hend2 & Hadv & Hnext).
  cbn. rewrite Hfill. cbn.
  destruct (run_query_settled_finishes fuel br bind calls st2)
    as (chunks & st3 & Hrest & Hdone3).
  - exact Hset2.
  - rewrite Hproto2. exact Hok1.
  - exact Hsize.
  - lia.
  - lia.
  - lia.
  - intros s e Hs. apply Hok. lia.
  - destruct Hnext as [Hd | Hle2]; [left; exact Hd | right; lia].
  - rewrite Hrest. cbn. eexists _, _. split; [reflexivity | exact Hdone3].
Qed.

(** ** The start of a time window *)

(** The rows of a filled chunk, one by one: each is a message the
    broker serves at a sequence between the cursor and the end. *)
Lemma fill_chunk_row (fuel : nat) (br : Broker) (bind : NatsScanBindData)
    (st st' : NatsScanGlobalState) (chunk : DataChunk) (row : nat) :
  0 <= current_seq st ->
  effective_end_seq st < UINT64_MAX ->
  fill_chunk fuel br bind st reset_chunk = Returns (st', chunk) ->
  (row < cardinality chunk)%nat ->
  exists s msg,
    current_seq st <= s <= effective_end_seq st
    /\ js_DirectGetMsg br (stream_name bind) s = DirectGet_OK msg
    /\ GetValue 2 row chunk = Some (Value_UBIGINT s)
    /\ GetValue 3 row chunk
       = Some (Value_TIMESTAMP (Z.quot (natsMsg_GetTime msg) 1000)).
Proof.
  intros H0 Hend H Hrow. unfold fill_chunk in H.
  invert_bind H. destruct a as [[st2 count] out2].
  assert (Hchunk : chunk = SetCardinality count out2)
    by (destruct (effective_end_seq st2 <? current_seq st2); congruence).
  subst chunk. cbn in Hrow. clear H.
  pose proof (fetch_loop_rows _ _ _ _ _ _ _ _ _ Hrun) as (_ & _ & _ & Hrows).
  destruct (Hrows row ltac:(lia))
    as (seq & msg & before & after & Hget & _ & Hemit & Hcells).
  destruct (emit_row_cells _ _ _ _ _ _ Hemit) as (_ & _ & _ & H2 & H3 & _).
  apply fetch_loop_seqs in Hrun; [|exact H0|exact Hend].
  destruct Hrun as (_ & seqs & Hlen & Hcol & _ & Hall).
  destruct (lookup_lt_is_Some_2 seqs row ltac:(lia)) as [s Hs].
  pose proof (Hcol row s Hs) as Hcell. cbn in Hcell.
  rewrite Hcells, H2 in Hcell. injection Hcell as Hseq. cbn in Hseq. subst seq.
  rewrite Forall_forall in Hall.
  destruct (Hall s (list_elem_of_lookup_2 _ _ _ Hs)) as (Hlo & Hhi & _).
  exists s, msg. rewrite !GetValue_SetCardinality, !Hcells.
  split; [lia|]. split; [exact Hget|]. split; [exact H2 | exact H3].
Qed.

(** The same for a call from a settled state. *)
Lemma NatsScanExecute_settled_row (fuel : nat) (br : Broker)
    (bind : NatsScanBindData) (st st' : NatsScanGlobalState) (chunk : DataChunk)
    (row : nat) :
  settled bind st ->
  0 <= current_seq st ->
  effective_end_seq st < UINT64_MAX ->
  NatsScanExecute fuel br bind st reset_chunk = Returns (st', chunk) ->
  (row < cardinality chunk)%nat ->
  exists s msg,
    current_seq st <= s <= effective_end_seq st
    /\ js_DirectGetMsg br (stream_name bind) s = DirectGet_OK msg
    /\ GetValue 2 row chunk = Some (Value_UBIGINT s)
    /\ GetValue 3 row chunk
       = Some (Value_TIMESTAMP (Z.quot (natsMsg_GetTime msg) 1000)).
Proof.
  intros Hset H0 Hend H Hrow. unfold NatsScanExecute in H.
  destruct (done st).
  { injection H as _ <-. cbn in Hrow. lia. }
  rewrite (prepare_scan_settled fuel br bind st Hset) in H. cbn in H.
  destruct (effective_end_seq st <? current_seq st).
  { injection H as _ <-. cbn in Hrow. lia. }
  exact (fill_chunk_row fuel br bind st st' chunk row H0 Hend H Hrow).
Qed.

(** With a start time given, the first call leaves the cursor at a
    message whose timestamp is at or after the start time. *)
Lemma prepare_scan_start_time (fuel : nat) (br : Broker) (bind : NatsScanBindData)
    (st1 : NatsScanGlobalState) :
  0 < start_time bind ->
  prepare_scan fuel br bind (NatsScanInitGlobal bind) = Returns (Ready st1) ->
  exists msg,
    js_DirectGetMsg br (stream_name bind) (current_seq st1) = DirectGet_OK msg
    /\ start_time bind <= natsMsg_GetTime msg.
Proof.
  intros Hstart H. apply Z.ltb_lt in Hstart.
  unfold prepare_scan in H.
  invert_bind H. rename a into sta.
  invert_bind H. rename a into stb.
  invert_bind H. rename a into r0.
  apply create_connection_Returns in Hrun.
  apply create_jetstream_Returns in Hrun0.
  destruct Hrun as (_ & _ & _ & _ & _ & _ & Ht1 & _).
  destruct Hrun0 as (_ & _ & _ & _ & _ & _ & Ht2 & _).
  assert (Hres : timestamps_resolved stb = false) by (rewrite Ht2, Ht1; reflexivity).
  destruct r0 as [st0|st0]; [|discriminate].
  assert (Hcur : current_seq st1 = current_seq st0).
  { destruct (effective_end_seq st0 <? current_seq st0); [discriminate|].
    injection H as <-. reflexivity. }
  rewrite Hcur. clear H Hcur.
  unfold resolve_timestamps in Hrun1. rewrite Hres, Hstart in Hrun1.
  cbn [negb andb orb] in Hrun1.
  destruct (stream_info stb) as [info|]; [|discriminate].
  invert_bind Hrun1. rename a into r1.
  invert_bind Hrun. rename a into resolved_seq.
  apply ResolveTimestampToSequence_loop_sound in Hrun0; [|left; reflexivity].
  destruct (resolved_seq =? UINT64_MAX) eqn:Hmax; injection Hrun as <-;
    [discriminate|].
  apply Z.eqb_neq in Hmax.
  destruct Hrun0 as [Hcontra | Hmsg]; [contradiction|].
  invert_bind Hrun1. rename a into st2. injection Hrun1 as <-.
  assert (Hcur2 : current_seq st2 = resolved_seq).
  { destruct (0 <? end_time bind).
    - invert_bind Hrun. destruct (negb (a =? UINT64_MAX));
        injection Hrun as <-; reflexivity.
    - injection Hrun as <-. reflexivity. }
  cbn. rewrite Hcur2. exact Hmsg.
Qed.

(** Every row of a query, in whatever chunk, is a message the broker
    serves at a sequence of the window the first call prepared. *)
Lemma run_query_row (fuel calls : nat) (br : Broker) (bind : NatsScanBindData)
    (st1 st_end : NatsScanGlobalState) (chunks : list DataChunk)
    (chunk : DataChunk) (row : nat) :
  prepare_scan fuel br bind (NatsScanInitGlobal bind) = Returns (Ready st1) ->
  effective_end_seq st1 < UINT64_MAX ->
  run_query calls fuel br bind (NatsScanInitGlobal bind) = Returns (chunks, st_end) ->
  In chunk chunks ->
  (row < cardinality chunk)%nat ->
  exists s msg,
    current_seq st1 <= s <= effective_end_seq st1
    /\ js_DirectGetMsg br (stream_name bind) s = DirectGet_OK msg
    /\ GetValue 2 row chunk = Some (Value_UBIGINT s)
    /\ GetValue 3 row chunk
       = Some (Value_TIMESTAMP (Z.quot (natsMsg_GetTime msg) 1000)).
Proof.
  intros Hprep Hend H Hin Hrow.
  pose proof (prepare_scan_Returns _ _ _ _ _ Hprep) as (_ & Hset & _ & _).
  pose proof (prepare_scan_cursor _ _ _ _ _
                (Z.lt_le_incl _ _ (NatsScanInitGlobal_cursor bind)) Hprep) as H0.
  destruct calls as [|calls].
  { injection H as <- _. destruct Hin. }
  rewrite run_query_unfold in H.
  invert_bind H. destruct a as [st2 chunk1].
  invert_bind H. destruct a as [chunks' st3].
  injection H as <- <-.
  unfold NatsScanExecute in Hrun.
  change (done (NatsScanInitGlobal bind)) with false in Hrun.
  cbv iota in Hrun. rewrite Hprep in Hrun. cbn in Hrun.
  destruct Hin as [<- | Hin].
  { exact (fill_chunk_row _ _ _ _ _ _ row H0 Hend Hrun Hrow). }
  apply fill_chunk_seqs in Hrun; [|exact Hset|exact H0|exact Hend].
  destruct Hrun as (Hset2 & Hend2 & Hcur2 & _).
  set (I := fun sa : NatsScanGlobalState =>
              settled bind sa /\ current_seq st1 <= current_seq sa
              /\ effective_end_seq sa = effective_end_seq st1).
  assert (Hstep : forall sa sb c, I sa ->
            NatsScanExecute fuel br bind sa reset_chunk = Returns (sb, c) -> I sb).
  { intros sa sb c (Hsa & Hca & Hea) Hcall.
    apply NatsScanExecute_settled_seqs in Hcall; [|exact Hsa|lia|lia].
    destruct Hcall as (Hsb & Heb & Hcb & _).
    split; [exact Hsb|]. split; [lia | congruence]. }
  destruct (run_query_calls I fuel br bind Hstep calls st2 st3 chunks')
    as [_ Hall]; [split; [exact Hset2 | split; [exact Hcur2 | exact Hend2]]
                 | exact Hrun0 |].
  rewrite Forall_forall in Hall.
  destruct (Hall chunk (proj2 (list_elem_of_In _ _) Hin))
    as (sa & sb & (Hsa & Hca & Hea) & Hcall).
  destruct (NatsScanExecute_settled_row _ _ _ _ _ _ row Hsa ltac:(lia) ltac:(lia)
              Hcall Hrow) as (s & msg & Hs & Hget & Hc2 & Hc3).
  exists s, msg. split; [lia|]. split; [exact Hget|]. split; assumption.
Qed.

(** X24.  With a start time given, timestamps that do not decrease
    along the stream (gaps allowed) and a window that ends below
    [UINT64_MAX] (so that the cursor does not wrap), no row of the
    query is older than the start time: the message of every row has
    a timestamp at or after [start_time], and the row's [ts_nats] is
    at or after the start time in microseconds. *)
Theorem rows_not_before_start_time (fuel calls : nat) (br : Broker)
    (bind : NatsScanBindData) (st1 st_end : NatsScanGlobalState)
    (chunks : list DataChunk) (chunk : DataChunk) (row : nat) :
  0 < start_time bind ->
  monotone_times br (stream_name bind) 0 UINT64_MAX ->
  prepare_scan fuel br bind (NatsScanInitGlobal bind) = Returns (Ready st1) ->
  effective_end_seq st1 < UINT64_MAX ->
  run_query calls fuel br bind (NatsScanInitGlobal bind) = Returns (chunks, st_end) ->
  In chunk chunks ->
  (row < cardinality chunk)%nat ->
  exists seq msg,
    js_DirectGetMsg br (stream_name bind) seq = DirectGet_OK msg
    /\ GetValue 2 row chunk = Some (Value_UBIGINT seq)
    /\ GetValue 3 row chunk
       = Some (Value_TIMESTAMP (Z.quot (natsMsg_GetTime msg) 1000))
    /\ start_time bind <= natsMsg_GetTime msg
    /\ Z.quot (start_time bind) 1000 <= Z.quot (natsMsg_GetTime msg) 1000.
Proof.
  intros Hstart Hmono Hprep Hend H Hin Hrow.
  destruct (prepare_scan_start_time _ _ _ _ Hstart Hprep) as (msg1 & Hget1 & Htime1).
  pose proof (prepare_scan_cursor _ _ _ _ _
                (Z.lt_le_incl _ _ (NatsScanInitGlobal_cursor bind)) Hprep) as H0.
  destruct (run_query_row _ _ _ _ _ _ _ _ row Hprep Hend H Hin Hrow)
    as (s & msg & Hs & Hget & Hc2 & Hc3).
  assert (Hle : start_time bind <= natsMsg_GetTime msg).
  { pose proof (Hmono (current_seq st1) s msg1 msg ltac:(lia) ltac:(lia) Hget1 Hget).
    lia. }
  exists s, msg. split; [exact Hget|]. split; [exact Hc2|]. split; [exact Hc3|].
  split; [exact Hle|]. apply Z.quot_le_mono; lia.
Qed.

(** ** The connection is made once *)

Lemma resolve_timestamps_Finished (fuel : nat) (br : Broker) (bind : NatsScanBindData)
    (st st1 : NatsScanGlobalState) :
  resolve_timestamps fuel br bind st = Returns (Finished st1) ->
  timestamps_resolved st1 = true.
Proof.
  unfold resolve_timestamps.
  destruct (negb (timestamps_resolved st)
            && ((0 <? start_time bind) || (0 <? end_time bind))); [|discriminate].
  destruct (stream_info st) as [info|]; [|discriminate].
  intros H. invert_bind H. rename a into r0.
  destruct r0 as [st0|st0].
  - invert_bind H. discriminate.
  - injection H as <-.
    destruct (0 <? start_time bind); [|discriminate].
    invert_bind Hrun. destruct (a =? UINT64_MAX); [|discriminate].
    injection Hrun as <-. reflexivity.
Qed.

(** Whatever way the preparation ends, it leaves a settled state. *)
Lemma prepare_scan_leaves_settled (fuel : nat) (br : Broker)
    (bind : NatsScanBindData) (st : NatsScanGlobalState) (r : Prepared) :
  prepare_scan fuel br bind st = Returns r ->
  settled bind (prepared_state r).
Proof.
  intros H. destruct r as [st1|st1].
  { apply prepare_scan_Returns in H. tauto. }
  unfold prepare_scan in H.
  invert_bind H. rename a into sta.
  invert_bind H. rename a into stb.
  invert_bind H. rename a into r0.
  apply create_connection_Returns in Hrun.
  apply create_jetstream_Returns in Hrun0.
  destruct Hrun as (Hc1 & _).
  destruct Hrun0 as (Hc2 & Hj2 & _).
  pose proof (resolve_timestamps_Returns _ _ _ _ _ Hrun1) as (Hc3 & Hj3 & _ & _ & Hr).
  destruct r0 as [st0|st0]; cbn in *.
  - destruct (effective_end_seq st0 <? current_seq st0); [|discriminate].
    injection H as <-. destruct Hr as [_ Ht].
    unfold settled. cbn. repeat split; [congruence | congruence | exact Ht].
  - injection H as <-. apply resolve_timestamps_Finished in Hrun1.
    unfold settled. repeat split; [congruence | congruence | left; exact Hrun1].
Qed.

(** The fetch loop consults the broker through [js_DirectGetMsg] on
    the bound stream only. *)
Lemma fetch_loop_same_messages (br br' : Broker) (bind : NatsScanBindData)
    (fuel : nat) :
  (forall s, js_DirectGetMsg br' (stream_name bind) s
             = js_DirectGetMsg br (stream_name bind) s) ->
  forall (st : NatsScanGlobalState) (count : nat) (output : DataChunk),
  fetch_loop fuel br' bind st count output = fetch_loop fuel br bind st count output.
Proof.
  intros Hsame. induction fuel as [|fuel IH]; intros st count output.
  - rewrite !fetch_loop_zero. reflexivity.
  - rewrite !fetch_loop_unfold, Hsame.
    destruct ((count <? STANDARD_VECTOR_SIZE)%nat
              && (current_seq st <=? effective_end_seq st)); [|reflexivity].
    destruct (js_DirectGetMsg br (stream_name bind) (current_seq st))
      as [msg| |s]; [|apply IH|reflexivity].
    destruct (subject_rejected bind msg); [apply IH|].
    destruct (emit_row bind st msg count output); cbn; [apply IH | reflexivity..].
Qed.

(** X25.  The connection is made once.  A call that returns from a
    state not yet done leaves the connection and the JetStream context
    set and the time bounds resolved; and from such a state every
    later call consults the broker through [js_DirectGetMsg] on the
    bound stream only: on two brokers that serve the same messages
    there it has the same outcome, whatever their connection steps and
    stream information answer. *)
Theorem connection_is_made_once (fuel : nat) (br : Broker) (bind : NatsScanBindData)
    (st st' : NatsScanGlobalState) (output output' : DataChunk) :
  done st = false ->
  NatsScanExecute fuel br bind st output = Returns (st', output') ->
  settled bind st'
  /\ forall (br' : Broker) (fuel' : nat) (output2 : DataChunk),
       (forall s, js_DirectGetMsg br' (stream_name bind) s
                  = js_DirectGetMsg br (stream_name bind) s) ->
       NatsScanExecute fuel' br' bind st' output2
       = NatsScanExecute fuel' br bind st' output2.
Proof.
  intros Hdone H.
  assert (Hset : settled bind st').
  { unfold NatsScanExecute in H. rewrite Hdone in H.
    invert_bind H. rename a into r.
    apply prepare_scan_leaves_settled in Hrun.
    destruct r as [st1|st1]; cbn in Hrun; [|injection H as <- _; exact Hrun].
    unfold fill_chunk in H. invert_bind H. destruct a as [[st2 count] out2].
    apply fetch_loop_rows in Hrun0. destruct Hrun0 as (_ & Hst2 & _).
    destruct (effective_end_seq st2 <? current_seq st2); injection H as <- _;
      rewrite Hst2; exact Hrun. }
  split; [exact Hset|].
  intros br' fuel' output2 Hsame. unfold NatsScanExecute.
  destruct (done st'); [reflexivity|].
  rewrite !(prepare_scan_settled _ _ _ _ Hset). cbn.
  destruct (effective_end_seq st' <? current_seq st'); [reflexivity|].
  unfold fill_chunk. rewrite (fetch_loop_same_messages br br' bind fuel' Hsame).
  reflexivity.
Qed.

(** ** The answer of the resolver lies in the window *)

Lemma ResolveTimestampToSequence_loop_range (br : Broker) (stream : string)
    (target first last : Z) (fuel : nat) :
  0 < first -> last < UINT64_MAX ->
  forall left right result_seq r,
  first <= left -> right <= last ->
  result_seq = UINT64_MAX \/ first <= result_seq <= last ->
  ResolveTimestampToSequence_loop fuel br stream target left right result_seq
  = Returns r ->
  r = UINT64_MAX \/ first <= r <= last.
Proof.
  intros Hfirst Hlast.
  induction fuel as [|fuel IH]; intros left right result_seq r Hl Hr Hres H;
    cbn in H.
  - destruct (left <=? right); [discriminate|]. injection H as <-. exact Hres.
  - destruct (left <=? right) eqn:Hle; [|injection H as <-; exact Hres].
    apply Z.leb_le in Hle.
    destruct (mid_in_range left right ltac:(lia) Hle ltac:(lia)) as [Hmid Hin].
    rewrite Hmid in H.
    destruct (js_DirectGetMsg br stream (left + (right - left) / 2))
      as [msg| |s]; [| |discriminate].
    + destruct (natsMsg_GetTime msg >=? target).
      * rewrite wrap_u64_small in H by lia.
        eapply IH; [| | |exact H]; [lia | lia | right; lia].
      * rewrite wrap_u64_small in H by lia.
        eapply IH; [| | |exact H]; [lia | lia | exact Hres].
    + rewrite wrap_u64_small in H by lia.
      eapply IH; [| | |exact H]; [lia | lia | exact Hres].
Qed.

(** X26.  The resolver answers a sequence of the window it was given,
    or [UINT64_MAX]; and on an empty window (the stream holds no
    message) it answers [UINT64_MAX] without a probe, whatever the
    broker. *)
Theorem resolver_answer_in_window (fuel : nat) (br : Broker) (stream : string)
    (target first_seq last_seq : Z) :
  (0 < first_seq -> last_seq < UINT64_MAX ->
   forall r,
     ResolveTimestampToSequence fuel br stream target first_seq last_seq = Returns r ->
     r = UINT64_MAX \/ first_seq <= r <= last_seq)
  /\ (last_seq < first_seq ->
      ResolveTimestampToSequence fuel br stream target first_seq last_seq
      = Returns UINT64_MAX).
Proof.
  split.
  - intros Hfirst Hlast r H. unfold ResolveTimestampToSequence in H.
    eapply (ResolveTimestampToSequence_loop_range br stream target first_seq last_seq
              fuel Hfirst Hlast); [| | |exact H]; [lia | lia | left; reflexivity].
  - intros Hempty. unfold ResolveTimestampToSequence.
    apply Z.leb_gt in Hempty. destruct fuel; cbn; rewrite Hempty; reflexivity.
Qed.

(** ** The exceptions of a call *)









(** ** The end of a time window *)

Lemma create_jetstream_info (br : Broker) (bind : NatsScanBindData)
    (st st1 : NatsScanGlobalState) (info : jsStreamInfo) :
  js st = false -> stream_info st = None ->
  js_GetStreamInfo br (stream_name bind) = inl info ->
  create_jetstream br bind st = Returns st1 ->
  stream_info st1 = Some info
  /\ effective_end_seq st1
     = if effective_end_seq st =? UINT64_MAX then LastSeq info
       else effective_end_seq st.
Proof.
  intros Hjs Hnone Hinfo. unfold create_jetstream. rewrite Hjs, Hnone, Hinfo.
  destruct (natsConnection_JetStream br); cbn; try discriminate.
  intros [= <-]. split; reflexivity.
Qed.

(** With an end time given, the window of the first call ends at the
    sequence the resolver answers for it, and where it was when the
    resolver answers [UINT64_MAX]. *)
Lemma prepare_scan_end_time (fuel : nat) (br : Broker) (bind : NatsScanBindData)
    (info : jsStreamInfo) (st1 : NatsScanGlobalState) :
  0 < end_time bind ->
  js_GetStreamInfo br (stream_name bind) = inl info ->
  prepare_scan fuel br bind (NatsScanInitGlobal bind) = Returns (Ready st1) ->
  exists resolved_seq,
    ResolveTimestampToSequence fuel br (stream_name bind) (end_time bind)
      (FirstSeq info) (LastSeq info) = Returns resolved_seq
    /\ effective_end_seq st1
       = if resolved_seq =? UINT64_MAX
         then (if end_seq bind =? UINT64_MAX then LastSeq info else end_seq bind)
         else resolved_seq.
Proof.
  intros Hend Hinfo H. apply Z.ltb_lt in Hend.
  unfold prepare_scan in H.
  invert_bind H. rename a into sta.
  invert_bind H. rename a into stb.
  invert_bind H. rename a into r0.
  apply create_connection_Returns in Hrun.
  destruct Hrun as (_ & Hjs1 & Hsi1 & _ & He1 & _ & Ht1 & _).
  pose proof (create_jetstream_Returns _ _ _ _ Hrun0) as (_ & _ & _ & _ & _ & _ & Ht2 & _).
  apply (create_jetstream_info br bind sta stb info) in Hrun0;
    [|rewrite Hjs1; reflexivity|rewrite Hsi1; reflexivity|exact Hinfo].
  destruct Hrun0 as [Hsi2 He2].
  rewrite He1 in He2. cbn [NatsScanInitGlobal effective_end_seq] in He2.
  assert (Hres : timestamps_resolved stb = false) by (rewrite Ht2, Ht1; reflexivity).
  destruct r0 as [st0|st0]; [|discriminate].
  assert (Hst1 : effective_end_seq st1 = effective_end_seq st0).
  { destruct (effective_end_seq st0 <? current_seq st0); [discriminate|].
    injection H as <-. reflexivity. }
  rewrite Hst1. clear H Hst1.
  unfold resolve_timestamps in Hrun1.
  rewrite Hres, Hend, orb_true_r, Hsi2 in Hrun1. cbn [negb andb] in Hrun1.
  invert_bind Hrun1. rename a into r1.
  destruct r1 as [st2|st2]; [|discriminate].
  assert (Hend2 : effective_end_seq st2 = effective_end_seq stb).
  { destruct (0 <? start_time bind).
    - invert_bind Hrun. destruct (a =? UINT64_MAX); [discriminate|].
      injection Hrun as <-. reflexivity.
    - injection Hrun as <-. reflexivity. }
  clear Hrun.
  invert_bind Hrun1. rename a into st3. injection Hrun1 as <-.
  invert_bind Hrun. rename a into resolved_seq.
  exists resolved_seq. split; [exact Hrun0|].
  destruct (resolved_seq =? UINT64_MAX); injection Hrun as <-; cbn;
    [congruence | reflexivity].
Qed.

(** X28.  What an end time does, as the code has it.  On a stream
    without gaps whose timestamps do not decrease, whose first
    sequence is above 0 and whose last sequence is below
    [UINT64_MAX], with 64 probes or more for the search, the window
    of a query with an end time ends at the first message whose
    timestamp is at or after the end time, that message included (and
    it stays where it was when the stream holds no such message).  So
    of the rows of the query that lie in the stream, every one has a
    timestamp before the end time, except the row of that one
    message. *)
Theorem end_time_window_includes_next_message (fuel calls : nat) (br : Broker)
    (bind : NatsScanBindData) (info : jsStreamInfo)
    (st1 st_end : NatsScanGlobalState) (chunks : list DataChunk) :
  (64 <= fuel)%nat ->
  0 < end_time bind ->
  js_GetStreamInfo br (stream_name bind) = inl info ->
  0 < FirstSeq info -> FirstSeq info <= LastSeq info + 1 ->
  LastSeq info < UINT64_MAX ->
  dense br (stream_name bind) (FirstSeq info) (LastSeq info) ->
  monotone_times br (stream_name bind) (FirstSeq info) (LastSeq info) ->
  prepare_scan fuel br bind (NatsScanInitGlobal bind) = Returns (Ready st1) ->
  ((none_at_or_after br (stream_name bind) (end_time bind)
      (FirstSeq info) (LastSeq info)
    /\ effective_end_seq st1
       = if end_seq bind =? UINT64_MAX then LastSeq info else end_seq bind)
   \/ first_at_or_after br (stream_name bind) (end_time bind)
        (FirstSeq info) (LastSeq info) (effective_end_seq st1))
  /\ (effective_end_seq st1 < UINT64_MAX ->
      run_query calls fuel br bind (NatsScanInitGlobal bind)
      = Returns (chunks, st_end) ->
      forall chunk row,
        In chunk chunks -> (row < cardinality chunk)%nat ->
        exists seq msg,
          js_DirectGetMsg br (stream_name bind) seq = DirectGet_OK msg
          /\ GetValue 2 row chunk = Some (Value_UBIGINT seq)
          /\ (FirstSeq info <= seq <= LastSeq info ->
              natsMsg_GetTime msg < end_time bind
              \/ seq = effective_end_seq st1)).
Proof.
  intros Hfuel Hend Hinfo Hfirst Hle Hlast Hdense Hmono Hprep.
  destruct (prepare_scan_end_time _ _ _ _ _ Hend Hinfo Hprep)
    as (resolved_seq & Hres & Hend1).
  assert (Hwindow :
            (none_at_or_after br (stream_name bind) (end_time bind)
               (FirstSeq info) (LastSeq info)
             /\ effective_end_seq st1
                = if end_seq bind =? UINT64_MAX then LastSeq info else end_seq bind)
            \/ first_at_or_after br (stream_name bind) (end_time bind)
                 (FirstSeq info) (LastSeq info) (effective_end_seq st1)).
  { destruct (ResolveTimestampToSequence_loop_dense br (stream_name bind)
                (end_time bind) (FirstSeq info) (LastSeq info) fuel Hfirst Hlast
                Hdense Hmono (FirstSeq info) (LastSeq info) UINT64_MAX)
      as (r & Hr & Hspec).
    - lia.
    - lia.
    - lia.
    - pose proof (pow2_fuel fuel Hfuel). unfold UINT64_MAX in Hlast. lia.
    - intros s msg Hs. lia.
    - left. split; reflexivity.
    - unfold ResolveTimestampToSequence in Hres. rewrite Hres in Hr.
      injection Hr as <-.
      destruct Hspec as [[-> Hnone] | Hat].
      + left. split; [exact Hnone|]. rewrite Hend1, Z.eqb_refl. reflexivity.
      + right. destruct (resolved_seq =? UINT64_MAX) eqn:Hmax.
        * apply Z.eqb_eq in Hmax. destruct Hat as [Hin _]. lia.
        * rewrite Hend1. exact Hat. }
  split; [exact Hwindow|].
  intros Hend_max Hrun chunk row Hin Hrow.
  destruct (run_query_row _ _ _ _ _ _ _ _ row Hprep Hend_max Hrun Hin Hrow)
    as (s & msg & Hs & Hget & Hc2 & _).
  exists s, msg. split; [exact Hget|]. split; [exact Hc2|].
  intros Hstream.
  destruct Hwindow as [[Hnone _] | (_ & _ & Hbefore)].
  - left. exact (Hnone s msg Hstream Hget).
  - destruct (decide (s = effective_end_seq st1)) as [->|Hne]; [right; reflexivity|].
    left. apply (Hbefore s msg); [lia | exact Hget].
Qed.

(** ** From the start time of the call to the rows *)

Lemma wrap_i64_small (z : Z) : - 2 ^ 63 <= z < 2 ^ 63 -> wrap_i64 z = z.
Proof. intros H. unfold wrap_i64. rewrite Z.mod_small by lia. lia. Qed.

(** X29.  Bind and scan together: when the call gives the timestamp
    [t] (microseconds, positive, small enough for its nanoseconds to
    fit 64 bits) as [start_time], the timestamps of the stream do not
    decrease, and the window of the query ends below [UINT64_MAX],
    every row of the query has a [ts_nats] at or after [t]. *)
Theorem rows_not_before_start_argument (input : TableFunctionBindInput)
    (r : BindResult) (t : Z) (fuel calls : nat) (br : Broker)
    (st1 st_end : NatsScanGlobalState) (chunks : list DataChunk)
    (chunk : DataChunk) (row : nat) :
  NoDup (named_parameters input).*1 ->
  In ("start_time", Value_TIMESTAMP t) (named_parameters input) ->
  0 < t -> t * 1000 < 2 ^ 63 ->
  NatsScanBind input = Returns r ->
  monotone_times br (stream_name (bind_data r)) 0 UINT64_MAX ->
  prepare_scan fuel br (bind_data r) (NatsScanInitGlobal (bind_data r))
  = Returns (Ready st1) ->
  effective_end_seq st1 < UINT64_MAX ->
  run_query calls fuel br (bind_data r) (NatsScanInitGlobal (bind_data r))
  = Returns (chunks, st_end) ->
  In chunk chunks ->
  (row < cardinality chunk)%nat ->
  start_time (bind_data r) = t * 1000
  /\ exists ts_nats,
       GetValue 3 row chunk = Some (Value_TIMESTAMP ts_nats) /\ t <= ts_nats.
Proof.
  intros Hnodup Hgiven Ht Hfit Hbind Hmono Hprep Hend Hrun Hin Hrow.
  assert (Hstart : start_time (bind_data r) = t * 1000).
  { apply NatsScanBind_Returns in Hbind.
    destruct Hbind as (arg0 & rest & descriptor & _ & _ & _ & _ & _ & _ & _ & _ & _
                       & _ & Hst & _).
    rewrite Hst. unfold bind_locals.
    rewrite (bind_named_parameters_options _ Hnodup). cbn [options_of l_start_time].
    unfold parameter_map.
    apply list_elem_of_In in Hgiven.
    apply (elem_of_list_to_map (M := gmap string) _ _ _ Hnodup) in Hgiven.
    rewrite Hgiven. cbn. apply wrap_i64_small. lia. }
  split; [exact Hstart|].
  assert (Hpos : 0 < start_time (bind_data r)) by lia.
  destruct (prepare_scan_start_time _ _ _ _ Hpos Hprep) as (msg1 & Hget1 & Htime1).
  pose proof (prepare_scan_cursor _ _ _ _ _
                (Z.lt_le_incl _ _ (NatsScanInitGlobal_cursor (bind_data r))) Hprep)
    as H0.
  destruct (run_query_row _ _ _ _ _ _ _ _ row Hprep Hend Hrun Hin Hrow)
    as (s & msg & Hs & Hget & _ & Hc3).
  exists (Z.quot (natsMsg_GetTime msg) 1000). split; [exact Hc3|].
  pose proof (Hmono (current_seq st1) s msg1 msg ltac:(lia) ltac:(lia) Hget1 Hget)
    as Hle.
  rewrite Hstart in Htime1.
  replace t with (Z.quot (t * 1000) 1000) by (apply Z.quot_mul; lia).
  apply Z.quot_le_mono; lia.
Qed.

(** ** The errors bind reports for a path *)

Lemma descends_snoc (d : Descriptor) (before : list string) (d' : Descriptor)
    (part : string) (f : FieldDescriptor) :
  descends d before d' ->
  FindFieldByName d' part = Some f ->
  FieldDescriptor_type f = TYPE_MESSAGE ->
  descends d (before ++ [part]) (message_type f).
Proof.
  intros Hwalk Hfind Htype. induction Hwalk as [d|d p g rest d' Hp Hg Hrest IH].
  - cbn. eapply descends_into; [exact Hfind | exact Htype | constructor].
  - cbn. eapply descends_into; [exact Hp | exact Hg | apply IH; assumption].
Qed.

(** The validation of one path, from the components already
    passed. *)
Lemma validate_path_loop_Throws (path_parts : list string) :
  forall (root d : Descriptor) (before : list string) (field_path : string)
         (e : Exception),
  descends root before d ->
  validate_path_loop d path_parts field_path = Throws e ->
  (exists part message_name,
     e = FieldNotFound part message_name field_path
     /\ exists before' rest d',
          (before ++ path_parts = before' ++ part :: rest)%list
          /\ descends root before' d'
          /\ FindFieldByName d' part = None
          /\ message_name = Descriptor_name d')
  \/ (exists part next,
        e = NotAMessageType part next field_path
        /\ exists before' rest d' f,
             (before ++ path_parts = before' ++ part :: next :: rest)%list
             /\ descends root before' d'
             /\ FindFieldByName d' part = Some f
             /\ FieldDescriptor_type f <> TYPE_MESSAGE).
Proof.
  induction path_parts as [|part rest IH]; intros root d before field_path e Hwalk H;
    cbn in H; [discriminate|].
  destruct (FindFieldByName d part) as [f|] eqn:Hfind.
  2:{ injection H as <-. left. exists part, (Descriptor_name d).
      split; [reflexivity|]. exists before, rest, d. tauto. }
  destruct rest as [|next rest]; [discriminate|].
  destruct (decide (FieldDescriptor_type f = TYPE_MESSAGE)) as [Htype|Htype].
  - replace (before ++ part :: next :: rest)%list
      with ((before ++ [part]) ++ next :: rest)%list
      by (rewrite <- app_assoc; reflexivity).
    eapply IH; [|exact H]. eapply descends_snoc; eassumption.
  - injection H as <-. right. exists part, next. split; [reflexivity|].
    exists before, rest, d, f. tauto.
Qed.

Lemma validate_proto_fields_Throws_path (d : Descriptor) (fields : list string)
    (e : Exception) :
  validate_proto_fields d fields = Throws e ->
  exists field_path,
    In field_path fields
    /\ validate_path_loop d (split_field_path field_path) field_path = Throws e.
Proof.
  induction fields as [|field_path fields IH]; cbn; [discriminate|].
  intros H. apply bind_Throws in H. destruct H as [H | (u & _ & H)].
  - exists field_path. split; [left; reflexivity | exact H].
  - destruct (IH H) as (p & Hin & Hp). exists p. split; [right; exact Hin | exact Hp].
Qed.

(** X30.  The errors bind reports for a path are accurate.  When bind
    throws "field not found" or "not a message type", the schema file
    was imported and holds the message type asked for; the path named
    in the exception is one of the requested paths; and the exception
    says what is wrong with it: the component it names is no field of
    the message type the components before it lead to (the type whose
    name the exception gives), or it is a field there that is not a
    message although the path goes on with the next component
    named. *)
Theorem bind_path_errors_are_accurate (input : TableFunctionBindInput)
    (e : Exception) :
  NatsScanBind input = Throws e ->
  (exists part message_name field_path, e = FieldNotFound part message_name field_path)
  \/ (exists part next field_path, e = NotAMessageType part next field_path) ->
  let l := bind_locals input in
  exists file_desc root,
    Import (if String.eqb (parent_path (l_proto_file l)) "" then "."
            else parent_path (l_proto_file l))
      (filename (l_proto_file l)) = inl file_desc
    /\ FindMessageTypeByName file_desc (l_proto_message l) = Some root
    /\ path_error root e
    /\ match e with
       | FieldNotFound _ _ field_path | NotAMessageType _ _ field_path =>
           In field_path (l_proto_fields l)
       | _ => False
       end.
Proof.
  intros H Hkind. cbn zeta. unfold NatsScanBind in H. fold (bind_locals input) in H.
  destruct (inputs input) as [|arg0 rest].
  { injection H as <-. destruct Hkind as [(? & ? & ? & Hk) | (? & ? & ? & Hk)];
      discriminate. }
  destruct (_ && _).
  { injection H as <-. destruct Hkind as [(? & ? & ? & Hk) | (? & ? & ? & Hk)];
      discriminate. }
  destruct (_ && _).
  { injection H as <-. destruct Hkind as [(? & ? & ? & Hk) | (? & ? & ? & Hk)];
      discriminate. }
  apply bind_Throws in H. destruct H as [H | (u & _ & H)].
  { unfold validate_protobuf_parameters in H.
    destruct (negb (vector_empty _)); [|discriminate].
    destruct (String.eqb (l_proto_file _) "").
    { injection H as <-. destruct Hkind as [(? & ? & ? & Hk) | (? & ? & ? & Hk)];
        discriminate. }
    destruct (String.eqb (l_proto_message _) ""); [|discriminate].
    injection H as <-. destruct Hkind as [(? & ? & ? & Hk) | (? & ? & ? & Hk)];
      discriminate. }
  apply bind_Throws in H. destruct H as [H | (descriptor & _ & H)]; [|discriminate].
  unfold parse_proto_schema in H.
  destruct (negb (vector_empty _)); [|discriminate].
  destruct (Import _ _) as [file_desc|errors] eqn:Himport.
  2:{ injection H as <-. destruct Hkind as [(? & ? & ? & Hk) | (? & ? & ? & Hk)];
        discriminate. }
  destruct (FindMessageTypeByName file_desc _) as [root|] eqn:Hroot.
  2:{ injection H as <-. destruct Hkind as [(? & ? & ? & Hk) | (? & ? & ? & Hk)];
        discriminate. }
  apply bind_Throws in H. destruct H as [H | (u' & _ & H)]; [|discriminate].
  apply validate_proto_fields_Throws_path in H.
  destruct H as (field_path & Hin & Hpath).
  exists file_desc, root. split; [reflexivity|]. split; [exact Hroot|].
  destruct (validate_path_loop_Throws _ root root [] field_path e
              (descends_here root) Hpath)
    as [(part & name & -> & before & rest' & d & Hparts & Hwalk & Hnone & Hname)
       | (part & next & -> & before & rest' & d & f & Hparts & Hwalk & Hsome & Htype)].
  - split; [|exact Hin]. cbn. exists before, rest', d. tauto.
  - split; [|exact Hin]. cbn. exists before, rest', d, f. tauto.
Qed.

(** ** Payloads that do not decode *)







End ScanProofs.

(** * The scenarios, run *)

Section Checks.

#[local] Existing Instance telemetry_lib.
#[local] Existing Instance example_json.
#[local] Existing Instance example_std.
#[local] Existing Instance duckdb_engine.

(** C1 (the search on a stream with a gap).  The stream holds the
    sequences 1 and 3 with the timestamps 100 and 200; sequence 2 was
    deleted.  For the target 50 the smallest present sequence with a
    timestamp at or after the target is 1, but
    [ResolveTimestampToSequence] over [1, 3] probes the absent
    sequence 2, moves [left] past it and answers 3.  On the stream
    that holds sequence 1 only (2 and 3 deleted) it answers
    [UINT64_MAX], "none", for the same target, although sequence 1
    qualifies. *)
Theorem resolver_misses_match_below_gap :
  ResolveTimestampToSequence 64 gap_broker "EVENTS" 50 1 3 = Returns 3
  /\ js_DirectGetMsg gap_broker "EVENTS" 1
     = DirectGet_OK (message "events.a" 100 "first")
  /\ js_DirectGetMsg gap_broker "EVENTS" 2 = DirectGet_NOT_FOUND
  /\ ResolveTimestampToSequence 64 tail_gap_broker "EVENTS" 50 1 3
     = Returns UINT64_MAX
  /\ js_DirectGetMsg tail_gap_broker "EVENTS" 1
     = DirectGet_OK (message "events.a" 100 "first").
Proof. repeat split; vm_compute; reflexivity. Qed.

(** C2 (the time window of the scenario).  Three messages at 1000,
    2000 and 3000 ns, [start_time] = 1500 ns and [end_time] = 2500 ns
    in the bind data: the start resolves to sequence 2, the end to
    sequence 3 (the first message at or after 2500 ns), and the first
    call emits two rows, with the sequences 2 and 3; the second row is
    the message at 3000 ns, after the end of the window.  The same
    happens through bind with bounds the engine can express:
    messages at 1, 2 and 3 ms, [start_time] = 1500 us and
    [end_time] = 2500 us. *)
Theorem time_window_emits_message_after_end :
  (exists st chunk,
     NatsScanExecute 64 three_broker (time_window_bind 1500 2500)
       (NatsScanInitGlobal (time_window_bind 1500 2500)) reset_chunk
     = Returns (st, chunk)
     /\ current_seq st = 4 /\ effective_end_seq st = 3 /\ done st = true
     /\ cardinality chunk = 2%nat
     /\ chunk_column 2 chunk = [Some (Value_UBIGINT 2); Some (Value_UBIGINT 3)]
     /\ chunk_column 3 chunk = [Some (Value_TIMESTAMP 2); Some (Value_TIMESTAMP 3)])
  /\ (exists r st chunk,
        NatsScanBind time_window_input = Returns r
        /\ start_time (bind_data r) = 1500000 /\ end_time (bind_data r) = 2500000
        /\ NatsScanExecute 64 three_ms_broker (bind_data r)
             (NatsScanInitGlobal (bind_data r)) reset_chunk
           = Returns (st, chunk)
        /\ chunk_column 2 chunk = [Some (Value_UBIGINT 2); Some (Value_UBIGINT 3)]
        /\ chunk_column 3 chunk
           = [Some (Value_TIMESTAMP 2000); Some (Value_TIMESTAMP 3000)]).
Proof.
  split.
  - eexists. eexists. split; [vm_compute; reflexivity|].
    repeat split; vm_compute; reflexivity.
  - eexists. eexists. eexists. split; [vm_compute; reflexivity|].
    split; [reflexivity|]. split; [reflexivity|].
    split; [vm_compute; reflexivity|].
    split; vm_compute; reflexivity.
Qed.



(** Witness of C4: two calls on the stream with the sequences 1 and 3
    emit the sequences of a strictly increasing list. *)
Lemma emitted_seqs_increasing_within_window_witness :
  exists seqs,
    emitted_seqs (fst (result_of gap_query ([], NatsScanInitGlobal (time_window_bind 0 0))))
    = map (fun s => Some (Value_UBIGINT s)) seqs
    /\ StronglySorted Z.lt seqs
    /\ Forall (fun s => 1 <= s <= 3
                        /\ exists msg, js_DirectGetMsg gap_broker "EVENTS" s
                                       = DirectGet_OK msg) seqs.
Proof.
  refine (proj1 (emitted_seqs_increasing_within_window 64 2 gap_broker
                   (time_window_bind 0 0)
                   (prepared_state
                      (result_of (prepare_scan 64 gap_broker (time_window_bind 0 0)
                                    (NatsScanInitGlobal (time_window_bind 0 0)))
                         (Finished (NatsScanInitGlobal (time_window_bind 0 0)))))
                   (snd (result_of gap_query
                           ([], NatsScanInitGlobal (time_window_bind 0 0))))
                   (fst (result_of gap_query
                           ([], NatsScanInitGlobal (time_window_bind 0 0))))
                   _ _ _)).
  - vm_compute. reflexivity.
  - vm_compute. reflexivity.
  - vm_compute. reflexivity.
Defined.

(** A computation that returned is the return of its result. *)
Lemma returned_result_of {A : Type} (o : outcome A) (otherwise : A) :
  returned o = true -> o = Returns (result_of o otherwise).
Proof. destruct o; [reflexivity | discriminate..]. Qed.

(** Counterexample to C4 as stated.  The call
    [nats_scan('EVENTS', start_seq := 18446744073709551615)] binds;
    on a stream whose last sequence is 2^64-1 the window of the query
    is the one sequence 2^64-1, and [end_seq] is [UINT64_MAX].  The
    first call emits that sequence; the increment of the cursor then
    wraps to 0, the test [current_seq <= end_seq] still holds, and the
    call goes on with the sequences 1, 2, ... until the chunk is full.
    The sequences emitted are not increasing, and all but the first
    lie outside the window. *)
Lemma cursor_wraps_after_last_sequence :
  exists r st1 chunks st_end,
    NatsScanBind last_sequence_input = Returns r
    /\ prepare_scan 2049 exhausted_broker (bind_data r)
         (NatsScanInitGlobal (bind_data r)) = Returns (Ready st1)
    /\ current_seq st1 = UINT64_MAX /\ effective_end_seq st1 = UINT64_MAX
    /\ run_query 1 2049 exhausted_broker (bind_data r)
         (NatsScanInitGlobal (bind_data r)) = Returns (chunks, st_end)
    /\ take 3 (emitted_seqs chunks)
       = [Some (Value_UBIGINT UINT64_MAX); Some (Value_UBIGINT 1);
          Some (Value_UBIGINT 2)]
    /\ ~ exists seqs,
           emitted_seqs chunks = map (fun s => Some (Value_UBIGINT s)) seqs
           /\ StronglySorted Z.lt seqs
           /\ Forall (fun s => current_seq st1 <= s <= effective_end_seq st1
                               /\ exists msg,
                                    js_DirectGetMsg exhausted_broker
                                      (stream_name (bind_data r)) s
                                    = DirectGet_OK msg) seqs.
Proof.
  pose (r := result_of (NatsScanBind last_sequence_input) proto_bind_result).
  pose (st1 := prepared_state
                 (result_of (prepare_scan 2049 exhausted_broker (bind_data r)
                               (NatsScanInitGlobal (bind_data r)))
                    (Finished (NatsScanInitGlobal (bind_data r))))).
  pose (q := result_of (run_query 1 2049 exhausted_broker (bind_data r)
                          (NatsScanInitGlobal (bind_data r)))
               ([], NatsScanInitGlobal (bind_data r))).
  assert (Htake : take 3 (emitted_seqs (fst q))
                  = [Some (Value_UBIGINT UINT64_MAX); Some (Value_UBIGINT 1);
                     Some (Value_UBIGINT 2)]) by (vm_compute; reflexivity).
  exists r, st1, (fst q), (snd q).
  split; [vm_compute; reflexivity|]. split; [vm_compute; reflexivity|].
  split; [vm_compute; reflexivity|]. split; [vm_compute; reflexivity|].
  split; [rewrite <- surjective_pairing; apply returned_result_of;
          vm_compute; reflexivity|].
  split; [exact Htake|].
  intros (seqs & Hseqs & Hsorted & _).
  rewrite Hseqs in Htake. clear Hseqs.
  destruct seqs as [|s0 [|s1 rest]]; cbn in Htake; [discriminate Htake..|].
  injection Htake as -> -> _.
  apply StronglySorted_inv in Hsorted. destruct Hsorted as [_ Hall].
  apply Forall_inv in Hall. vm_compute in Hall. discriminate.
Qed.


(** Witness of C5: the protobuf call binds, with the columns [id] of
    type bigint and [location_zone] of type varchar after the five
    fixed columns. *)
Lemma bind_output_schema_witness :
  NatsScanBind proto_input = Returns proto_bind_result
  /\ names (schema proto_bind_result)
     = ["stream"; "subject"; "seq"; "ts_nats"; "payload"; "id"; "location_zone"]
  /\ exists proto_types,
       return_types (schema proto_bind_result)
       = ([VARCHAR; VARCHAR; UBIGINT; TIMESTAMP; BLOB] ++ proto_types)%list
       /\ Forall2 (fun field_path type =>
                     exists descriptor leaf,
                       Some Telemetry = Some descriptor
                       /\ resolves descriptor (split_field_path field_path) leaf
                       /\ type = type_mapper (FieldDescriptor_type leaf))
                  ["id"; "location.zone"] proto_types.
Proof.
  assert (Hbind : NatsScanBind proto_input = Returns proto_bind_result)
    by (vm_compute; reflexivity).
  split; [exact Hbind|].
  destruct (bind_output_schema proto_input proto_bind_result Hbind)
    as (_ & _ & _ & Hnames & proto_types & Htypes & Hall).
  split; [exact Hnames|].
  exists proto_types. split; [exact Htypes | exact Hall].
Defined.

(** Counterexample to C6 as stated.  A call without any argument
    aborts although none of the three conditions holds; and the call
    with [start_seq := 5] and [start_time := epoch] supplies a
    sequence window and a time window and binds all the same, since
    the time bound 0 counts as not set. *)
Lemma three_conditions_do_not_decide_abort :
  (aborts (NatsScanBind no_argument_input)
   /\ ~ stated_abort_condition no_argument_input)
  /\ (stated_abort_condition epoch_start_input
      /\ ~ aborts (NatsScanBind epoch_start_input)).
Proof.
  split; split.
  - exists MissingStreamName. reflexivity.
  - unfold stated_abort_condition, supplied. cbn.
    intros [[_ [[v []] | [v []]]] | [[H _] | [H _]]]; congruence.
  - left. split.
    + left. vm_compute. reflexivity.
    + left. exists (Value_TIMESTAMP 0). right. left. reflexivity.
  - intros [e He]. vm_compute in He. discriminate.
Qed.

(** Witness of C7: row 0 of the JSON query is the example payload, and
    its six extraction columns are hi, 42.000000, true, null, the
    serialised object, and null for the absent member f. *)
Lemma json_extraction_by_kind_witness :
  exists state chunk,
    NatsScanExecute 64 json_broker json_bind (NatsScanInitGlobal json_bind)
      reset_chunk = Returns (state, chunk)
    /\ GetValue 5 0 chunk = Some (Value_VARCHAR "hi")
    /\ GetValue 6 0 chunk = Some (Value_VARCHAR "42.000000")
    /\ GetValue 7 0 chunk = Some (Value_VARCHAR "true")
    /\ GetValue 8 0 chunk = Some Value_NULL
    /\ GetValue 9 0 chunk = Some (Value_VARCHAR ("{" +:+ quoted "x" +:+ ":1}"))
    /\ GetValue 10 0 chunk = Some Value_NULL.
Proof.
  assert (Hfacts : exists state chunk,
             NatsScanExecute 64 json_broker json_bind (NatsScanInitGlobal json_bind)
      reset_chunk = Returns (state, chunk)
             /\ cardinality chunk = 2%nat
             /\ GetValue 2 0 chunk = Some (Value_UBIGINT 1)).
  { do 2 eexists. split; [vm_compute; reflexivity|]. split; vm_compute; reflexivity. }
  destruct Hfacts as (state & chunk & Hcall & Hcard & Hseq0).
  exists state, chunk. split; [exact Hcall|].
  assert (Hrow : (0 < cardinality chunk)%nat) by (rewrite Hcard; lia).
  destruct (json_extraction_by_kind 64 json_broker json_bind
              (NatsScanInitGlobal json_bind) state reset_chunk chunk 0
              eq_refl Hcall Hrow)
    as (seq & msg & Hget & Hseq & Hcols).
  assert (Hseq1 : seq = 1) by congruence.
  subst seq.
  assert (Hmsg : msg = message "events.a" 1999 example_payload).
  { assert (H1 : js_DirectGetMsg json_broker (stream_name json_bind) 1
                 = DirectGet_OK (message "events.a" 1999 example_payload))
      by (vm_compute; reflexivity).
    congruence. }
  subst msg.
  assert (Hread : yyjson_read (natsMsg_GetData (message "events.a" 1999 example_payload))
                  = Some example_document) by (vm_compute; reflexivity).
  destruct (Hcols example_document 0%nat "a" Hread eq_refl) as (_ & Hstr & _).
  destruct (Hcols example_document 1%nat "b" Hread eq_refl) as (_ & _ & Hnum & _).
  destruct (Hcols example_document 2%nat "c" Hread eq_refl) as (_ & _ & _ & Htrue & _).
  destruct (Hcols example_document 3%nat "d" Hread eq_refl)
    as (_ & _ & _ & _ & _ & Hnull & _).
  destruct (Hcols example_document 4%nat "e" Hread eq_refl)
    as (_ & _ & _ & _ & _ & _ & _ & Hobj).
  destruct (Hcols example_document 5%nat "f" Hread eq_refl) as (Habsent & _).
  split; [exact (Hstr "hi" eq_refl)|].
  split; [exact (Hnum double_42 eq_refl)|].
  split; [exact (Htrue eq_refl)|].
  split; [exact (Hnull eq_refl)|].
  split; [exact (Hobj [("x", yy_num double_1)] _ eq_refl eq_refl)|].
  exact (Habsent eq_refl).
Defined.

(** Witness of C8: row 1 of the JSON query is the message with the
    timestamp -1999 ns, and its [ts_nats] is -1 us. *)
Lemma ts_nats_is_time_div_1000_witness :
  exists state chunk,
    NatsScanExecute 64 json_broker json_bind (NatsScanInitGlobal json_bind)
      reset_chunk = Returns (state, chunk)
    /\ js_DirectGetMsg json_broker "EVENTS" 2
       = DirectGet_OK (message "events.b" (-1999) "not json")
    /\ GetValue 2 1 chunk = Some (Value_UBIGINT 2)
    /\ GetValue 3 1 chunk = Some (Value_TIMESTAMP (-1))
    /\ exists seq msg,
         js_DirectGetMsg json_broker "EVENTS" seq = DirectGet_OK msg
         /\ GetValue 2 1 chunk = Some (Value_UBIGINT seq)
         /\ GetValue 3 1 chunk
            = Some (Value_TIMESTAMP (Z.quot (natsMsg_GetTime msg) 1000)).
Proof.
  assert (Hfacts : exists state chunk,
             NatsScanExecute 64 json_broker json_bind (NatsScanInitGlobal json_bind)
      reset_chunk = Returns (state, chunk)
             /\ cardinality chunk = 2%nat
             /\ GetValue 2 1 chunk = Some (Value_UBIGINT 2)
             /\ GetValue 3 1 chunk = Some (Value_TIMESTAMP (-1))).
  { do 2 eexists. split; [vm_compute; reflexivity|].
    split; [|split]; vm_compute; reflexivity. }
  destruct Hfacts as (state & chunk & Hcall & Hcard & Hseq1 & Hts1).
  exists state, chunk. split; [exact Hcall|].
  split; [vm_compute; reflexivity|].
  split; [exact Hseq1|]. split; [exact Hts1|].
  assert (Hrow : (1 < cardinality chunk)%nat) by (rewrite Hcard; lia).
  destruct (ts_nats_is_time_div_1000 64 json_broker json_bind
              (NatsScanInitGlobal json_bind) state reset_chunk chunk 1
              Hcall Hrow)
    as (seq & msg & Hget & Hseq & Hts & _).
  exists seq, msg. split; [exact Hget|]. split; [exact Hseq | exact Hts].
Defined.

(** Counterexample to C9 as stated: the call [nats_scan('')] binds,
    and its bind data has the empty stream name. *)
Lemma empty_stream_name_is_bound :
  exists r, NatsScanBind empty_name_input = Returns r
            /\ stream_name (bind_data r) = "".
Proof. eexists. split; [vm_compute; reflexivity | reflexivity]. Qed.

(** Witness of C10: the call that gives [proto_file] and
    [proto_message] but no [proto_extract] binds, although the file
    could not be imported, with the five fixed columns and a varchar
    payload. *)
Lemma proto_options_without_proto_extract_witness :
  exists r,
    NatsScanBind proto_options_input = Returns r
    /\ proto_file (bind_data r) = "missing.proto"
    /\ proto_message (bind_data r) = "Nothing"
    /\ proto_descriptor (bind_data r) = None
    /\ names (schema r) = ["stream"; "subject"; "seq"; "ts_nats"; "payload"]
    /\ return_types (schema r) = [VARCHAR; VARCHAR; UBIGINT; TIMESTAMP; VARCHAR].
Proof.
  destruct (proto_options_without_proto_extract proto_options_input
              (Value_VARCHAR "EVENTS") [] eq_refl eq_refl)
    as (_ & r & Hr & _ & Hd & Hf & Hm & Hnames & Htypes & _).
  - vm_compute. intros [_ [H | H]]; discriminate.
  - exists r. split; [exact Hr|]. split; [exact Hf|]. split; [exact Hm|].
    split; [exact Hd|]. split; [exact Hnames | exact Htypes].
Defined.


(** The stream of three messages has no gap and monotone timestamps,
    and the broker of the stream with a gap reports no error. *)
Lemma three_broker_dense : dense three_broker "EVENTS" 1 3.
Proof.
  intros s Hs. assert (Hcases : s = 1 \/ s = 2 \/ s = 3) by lia.
  destruct Hcases as [-> | [-> | ->]]; eexists; vm_compute; reflexivity.
Defined.

Lemma three_broker_monotone : monotone_times three_broker "EVENTS" 1 3.
Proof.
  intros s s' msg msg' Hs Hs' Hget Hget'.
  assert (Hcases : s = 1 \/ s = 2 \/ s = 3) by lia.
  assert (Hcases' : s' = 1 \/ s' = 2 \/ s' = 3) by lia.
  destruct Hcases as [-> | [-> | ->]]; destruct Hcases' as [-> | [-> | ->]];
    try lia; vm_compute in Hget, Hget';
    injection Hget as <-; injection Hget' as <-; vm_compute; discriminate.
Defined.

Lemma gap_broker_no_error (s : Z) (e : natsStatus) :
  js_DirectGetMsg gap_broker "EVENTS" s <> DirectGet_ERR e.
Proof.
  unfold gap_broker, stream_broker. cbn [js_DirectGetMsg].
  destruct (_ !! s); discriminate.
Defined.

(** Witness: on the stream with a gap the answer 3 is a sequence with
    a message at or after the target 50 (though not the first one). *)
Lemma resolver_answer_is_at_or_after_witness :
  exists msg, js_DirectGetMsg gap_broker "EVENTS" 3 = DirectGet_OK msg
              /\ 50 <= natsMsg_GetTime msg.
Proof.
  apply (resolver_answer_is_at_or_after 64 gap_broker "EVENTS" 50 1 3 3).
  - vm_compute. reflexivity.
  - vm_compute. discriminate.
Defined.

(** Witness: on the three messages at 1000, 2000 and 3000 ns the
    search for 1500 ns returns, with the smallest qualifying
    sequence or with [UINT64_MAX]. *)
Lemma resolver_first_at_or_after_without_gaps_witness :
  exists r,
    ResolveTimestampToSequence 64 three_broker "EVENTS" 1500 1 3 = Returns r
    /\ ((r = UINT64_MAX /\ none_at_or_after three_broker "EVENTS" 1500 1 3)
        \/ first_at_or_after three_broker "EVENTS" 1500 1 3 r).
Proof.
  apply (resolver_first_at_or_after_without_gaps 64 three_broker "EVENTS" 1500 1 3).
  - lia.
  - lia.
  - lia.
  - vm_compute. reflexivity.
  - exact three_broker_dense.
  - exact three_broker_monotone.
Defined.

Lemma resolver_returns_within_64_probes_witness :
  exists r, ResolveTimestampToSequence 64 gap_broker "EVENTS" 50 1 3 = Returns r.
Proof.
  apply (resolver_returns_within_64_probes 64 gap_broker "EVENTS" 50 1 3).
  - lia.
  - lia.
  - vm_compute. reflexivity.
  - intros s e _. apply gap_broker_no_error.
Defined.

(** Witness: the fetch loop over the window [1, 3] of the stream with
    a gap returns within three turns. *)
Lemma fetch_loop_returns_witness :
  exists r,
    fetch_loop 3 gap_broker (time_window_bind 0 0)
      (set_end_seq 3 (NatsScanInitGlobal (time_window_bind 0 0))) 0 reset_chunk
    = Returns r.
Proof.
  apply (fetch_loop_returns gap_broker (time_window_bind 0 0) 3).
  - intros [d Hd]. discriminate.
  - vm_compute. discriminate.
  - vm_compute. reflexivity.
  - intros s e _. apply gap_broker_no_error.
  - vm_compute. reflexivity.
Defined.

(** Witness: the first call of the JSON query meets no null pointer. *)
Lemma NatsScanExecute_no_null_witness :
  NatsScanExecute 64 json_broker json_bind (NatsScanInitGlobal json_bind) reset_chunk
  <> Throws NullPointer.
Proof.
  exact (proj1 (NatsScanExecute_no_null 64 json_broker json_bind
                  (NatsScanInitGlobal json_bind) reset_chunk
                  (NatsScanInitGlobal_state_ok json_bind))).
Defined.

(** Witness of X6: the first call of the JSON query hands back two
    rows, fewer than the 2048 of a full chunk; the query is done, and
    three more calls give three empty chunks. *)
Lemma short_chunk_ends_query_witness :
  exists state chunk,
    NatsScanExecute 64 json_broker json_bind (NatsScanInitGlobal json_bind)
      reset_chunk = Returns (state, chunk)
    /\ cardinality chunk = 2%nat
    /\ done state = true
    /\ run_query 3 0 gap_broker json_bind state
       = Returns (replicate 3 reset_chunk, state).
Proof.
  assert (Hfacts : exists state chunk,
             NatsScanExecute 64 json_broker json_bind (NatsScanInitGlobal json_bind)
               reset_chunk = Returns (state, chunk)
             /\ cardinality chunk = 2%nat).
  { do 2 eexists. split; vm_compute; reflexivity. }
  destruct Hfacts as (state & chunk & Hcall & Hcard).
  exists state, chunk. split; [exact Hcall|]. split; [exact Hcard|].
  destruct (short_chunk_ends_query 64 json_broker json_bind
              (NatsScanInitGlobal json_bind) state reset_chunk chunk Hcall)
    as [_ Hshort].
  assert (Hlt : (cardinality chunk < STANDARD_VECTOR_SIZE)%nat)
    by (rewrite Hcard; cbn; lia).
  destruct (Hshort Hlt) as [Hdone Hcalls].
  split; [exact Hdone | apply Hcalls].
Defined.

(** Witness of X7: after the first call of the JSON query, which
    hands back two rows of eleven columns, the cell of row 2 in column
    0 and the cell of row 0 in column 11 are still unset. *)
Lemma NatsScanExecute_writes_within_chunk_witness :
  exists state chunk,
    NatsScanExecute 64 json_broker json_bind (NatsScanInitGlobal json_bind)
      reset_chunk = Returns (state, chunk)
    /\ cardinality chunk = 2%nat
    /\ GetValue 0 2 chunk = None
    /\ GetValue 11 0 chunk = None.
Proof.
  assert (Hfacts : exists state chunk,
             NatsScanExecute 64 json_broker json_bind (NatsScanInitGlobal json_bind)
               reset_chunk = Returns (state, chunk)
             /\ cardinality chunk = 2%nat).
  { do 2 eexists. split; vm_compute; reflexivity. }
  destruct Hfacts as (state & chunk & Hcall & Hcard).
  exists state, chunk. split; [exact Hcall|]. split; [exact Hcard|].
  split.
  - rewrite (NatsScanExecute_writes_within_chunk 64 json_broker json_bind
               (NatsScanInitGlobal json_bind) state reset_chunk chunk 0 2 Hcall).
    + reflexivity.
    + left. rewrite Hcard. lia.
  - rewrite (NatsScanExecute_writes_within_chunk 64 json_broker json_bind
               (NatsScanInitGlobal json_bind) state reset_chunk chunk 11 0 Hcall).
    + reflexivity.
    + right. cbn. lia.
Defined.

(** Witness of X8: with the filter [events.b], the only row of the
    call is the message of sequence 2, whose subject is [events.b]. *)
Lemma emitted_subject_contains_filter_witness :
  exists state chunk,
    NatsScanExecute 64 json_broker filtered_bind (NatsScanInitGlobal filtered_bind)
      reset_chunk = Returns (state, chunk)
    /\ cardinality chunk = 1%nat
    /\ GetValue 2 0 chunk = Some (Value_UBIGINT 2)
    /\ exists seq msg,
         js_DirectGetMsg json_broker "EVENTS" seq = DirectGet_OK msg
         /\ GetValue 1 0 chunk = Some (Value_VARCHAR (natsMsg_GetSubject msg))
         /\ GetValue 2 0 chunk = Some (Value_UBIGINT seq)
         /\ contains "events.b" (natsMsg_GetSubject msg).
Proof.
  assert (Hfacts : exists state chunk,
             NatsScanExecute 64 json_broker filtered_bind
               (NatsScanInitGlobal filtered_bind) reset_chunk
             = Returns (state, chunk)
             /\ cardinality chunk = 1%nat
             /\ GetValue 2 0 chunk = Some (Value_UBIGINT 2)).
  { do 2 eexists. split; [vm_compute; reflexivity|].
    split; vm_compute; reflexivity. }
  destruct Hfacts as (state & chunk & Hcall & Hcard & Hseq0).
  exists state, chunk. split; [exact Hcall|]. split; [exact Hcard|].
  split; [exact Hseq0|].
  assert (Hrow : (0 < cardinality chunk)%nat) by (rewrite Hcard; lia).
  destruct (emitted_subject_contains_filter 64 json_broker filtered_bind
              (NatsScanInitGlobal filtered_bind) state reset_chunk chunk 0
              Hcall Hrow)
    as (seq & msg & Hget & _ & Hsubj & Hseq & Hcont).
  exists seq, msg. split; [exact Hget|]. split; [exact Hsubj|].
  split; [exact Hseq | exact Hcont].
Defined.

(** Witness of X10: the path made of [location] and [zone]. *)
Lemma split_field_path_of_joined_witness :
  split_field_path "location.zone" = ["location"; "zone"].
Proof.
  apply (split_field_path_of_joined ["location"; "zone"]).
  - discriminate.
  - repeat constructor.
Defined.

(** Witness of X12, on the telemetry schema: in a message with [id = 7]
    and no location, [id] is read as 7 and [id.zone] is null, [id]
    being no message. *)
Lemma ExtractProtobufValue_by_component_witness :
  ExtractProtobufValue (PL := telemetry_lib) (TelemetryMsg 7 None) "id" Telemetry = Value_BIGINT 7
  /\ ExtractProtobufValue (PL := telemetry_lib) (TelemetryMsg 7 None) "id.zone" Telemetry = Value_NULL.
Proof.
  destruct (ExtractProtobufValue_by_component (PL := telemetry_lib) (TelemetryMsg 7 None) Telemetry
              "id" "zone" eq_refl) as [Hleaf Hnested].
  split; [exact (eq_trans Hleaf eq_refl) | exact (eq_trans Hnested eq_refl)].
Defined.

(** Witness of X13: [location.zone] is the field [zone] of the nested
    type. *)
Lemma GetFieldDescriptorForPath_by_component_witness :
  GetFieldDescriptorForPath (PL := telemetry_lib) Telemetry "location" = Some Telemetry_location
  /\ GetFieldDescriptorForPath (PL := telemetry_lib) Telemetry "location.zone" = Some Loc_zone.
Proof.
  destruct (GetFieldDescriptorForPath_by_component (PL := telemetry_lib) Telemetry "location" "zone"
              eq_refl) as [Hleaf Hnested].
  split; [exact (eq_trans Hleaf eq_refl) | exact (eq_trans Hnested eq_refl)].
Defined.

(** Witness of X15: the path [location] leads to a message-typed
    field; it reads as null even in a message whose location is set. *)
Lemma ExtractProtobufValue_null_witness :
  ExtractProtobufValue (PL := telemetry_lib) (TelemetryMsg 7 (Some "north")) "location" Telemetry
  = Value_NULL.
Proof.
  apply (ExtractProtobufValue_null (PL := telemetry_lib)). left. reflexivity.
Defined.

(** Witness of X16: the protobuf query, bound from its call; row 0 of
    its only chunk holds a [BIGINT] in the column of [id]. *)
Lemma rows_conform_to_schema_witness :
  exists chunk st_end,
    NatsScanBind proto_input = Returns proto_bind_result
    /\ run_query 1 64 proto_broker (bind_data proto_bind_result)
         (NatsScanInitGlobal (bind_data proto_bind_result))
       = Returns ([chunk], st_end)
    /\ cardinality chunk = 2%nat
    /\ return_types (schema proto_bind_result) !! 5%nat = Some BIGINT
    /\ exists v, GetValue 5 0 chunk = Some v /\ conforms v BIGINT = true.
Proof.
  assert (Hfacts : exists chunk st_end,
             run_query 1 64 proto_broker (bind_data proto_bind_result)
               (NatsScanInitGlobal (bind_data proto_bind_result))
             = Returns ([chunk], st_end)
             /\ cardinality chunk = 2%nat).
  { do 2 eexists. split; vm_compute; reflexivity. }
  destruct Hfacts as (chunk & st_end & Hrun & Hcard).
  assert (Hbind : NatsScanBind proto_input = Returns proto_bind_result)
    by (vm_compute; reflexivity).
  exists chunk, st_end. split; [exact Hbind|]. split; [exact Hrun|].
  split; [exact Hcard|]. split; [reflexivity|].
  apply (rows_conform_to_schema proto_input proto_bind_result 1 64 proto_broker
           [chunk] st_end chunk 0 5 BIGINT Hbind Hrun).
  - left. reflexivity.
  - rewrite Hcard. lia.
  - reflexivity.
Defined.

(** Witness of X17: the protobuf call gives three options; the
    schema file is the one given, the URL is the default. *)
Lemma bind_reads_options_by_name_witness :
  NatsScanBind proto_input = Returns proto_bind_result
  /\ proto_file (bind_data proto_bind_result) = "telemetry.proto"
  /\ nats_url (bind_data proto_bind_result) = "nats://localhost:4222"
  /\ proto_file (bind_data proto_bind_result)
     = l_proto_file (options_of (parameter_map (named_parameters proto_input)))
  /\ nats_url (bind_data proto_bind_result)
     = l_nats_url (options_of (parameter_map (named_parameters proto_input))).
Proof.
  assert (Hbind : NatsScanBind proto_input = Returns proto_bind_result)
    by (vm_compute; reflexivity).
  assert (Hnodup : NoDup (named_parameters proto_input).*1).
  { cbn. repeat (apply NoDup_cons_2;
                 [rewrite ?elem_of_cons, ?elem_of_nil; intuition discriminate|]).
    apply NoDup_nil_2. }
  destruct (bind_reads_options_by_name proto_input proto_bind_result Hnodup Hbind)
    as (_ & Hurl & _ & _ & _ & _ & _ & Hfile & _).
  split; [exact Hbind|]. split; [reflexivity|]. split; [reflexivity|].
  split; [exact Hfile | exact Hurl].
Defined.

(** Witness of X18: the protobuf call with its first two options
    exchanged. *)
Lemma bind_independent_of_parameter_order_witness :
  NatsScanBind
    {| inputs := [Value_VARCHAR "EVENTS"];
       named_parameters :=
         [("proto_file", Value_VARCHAR "telemetry.proto");
          ("proto_message", Value_VARCHAR "Telemetry");
          ("proto_extract", Value_LIST (map Value_VARCHAR ["id"; "location.zone"]))] |}
  = NatsScanBind
      {| inputs := [Value_VARCHAR "EVENTS"];
         named_parameters :=
           [("proto_message", Value_VARCHAR "Telemetry");
            ("proto_file", Value_VARCHAR "telemetry.proto");
            ("proto_extract",
             Value_LIST (map Value_VARCHAR ["id"; "location.zone"]))] |}.
Proof.
  apply bind_independent_of_parameter_order.
  - cbn. repeat (apply NoDup_cons_2;
                 [rewrite ?elem_of_cons, ?elem_of_nil; intuition discriminate|]).
    apply NoDup_nil_2.
  - apply perm_swap.
Defined.

(** Witness of X21: the query without bounds on the stream with a gap
    is done after one call, and has emitted the sequences 1 and 3. *)
Lemma finished_query_emits_window_witness :
  exists st1 chunks st_end,
    prepare_scan 64 gap_broker (time_window_bind 0 0)
      (NatsScanInitGlobal (time_window_bind 0 0)) = Returns (Ready st1)
    /\ current_seq st1 = 1 /\ effective_end_seq st1 = 3
    /\ run_query 1 64 gap_broker (time_window_bind 0 0)
         (NatsScanInitGlobal (time_window_bind 0 0)) = Returns (chunks, st_end)
    /\ emitted_seqs chunks = [Some (Value_UBIGINT 1); Some (Value_UBIGINT 3)]
    /\ emitted_seqs chunks
       = map (fun s => Some (Value_UBIGINT s))
           (List.filter (passes gap_broker (time_window_bind 0 0))
              (window (current_seq st1) (effective_end_seq st1))).
Proof.
  assert (Hfacts : exists st1 chunks st_end,
             prepare_scan 64 gap_broker (time_window_bind 0 0)
               (NatsScanInitGlobal (time_window_bind 0 0)) = Returns (Ready st1)
             /\ current_seq st1 = 1 /\ effective_end_seq st1 = 3
             /\ run_query 1 64 gap_broker (time_window_bind 0 0)
                  (NatsScanInitGlobal (time_window_bind 0 0))
                = Returns (chunks, st_end)
             /\ done st_end = true
             /\ emitted_seqs chunks
                = [Some (Value_UBIGINT 1); Some (Value_UBIGINT 3)]).
  { do 3 eexists. split; [vm_compute; reflexivity|].
    split; [reflexivity|]. split; [reflexivity|].
    split; [vm_compute; reflexivity|].
    split; [reflexivity|]. vm_compute. reflexivity. }
  destruct Hfacts as (st1 & chunks & st_end & Hprep & Hcur & Hend & Hrun & Hdone & Hseqs).
  exists st1, chunks, st_end.
  split; [exact Hprep|]. split; [exact Hcur|]. split; [exact Hend|].
  split; [exact Hrun|]. split; [exact Hseqs|].
  apply (finished_query_emits_window 64 1 gap_broker (time_window_bind 0 0)
           st1 st_end chunks Hprep).
  - rewrite Hend. reflexivity.
  - exact Hrun.
  - exact Hdone.
Defined.

(** Witness of X22: the same query, from its bind data and the stream
    information: the window is 1 to 3. *)
Lemma sequence_query_emits_window_witness :
  exists chunks st_end,
    run_query 1 64 gap_broker (time_window_bind 0 0)
      (NatsScanInitGlobal (time_window_bind 0 0)) = Returns (chunks, st_end)
    /\ emitted_seqs chunks = [Some (Value_UBIGINT 1); Some (Value_UBIGINT 3)]
    /\ emitted_seqs chunks
       = map (fun s => Some (Value_UBIGINT s))
           (List.filter (passes gap_broker (time_window_bind 0 0)) (window 1 3)).
Proof.
  assert (Hfacts : exists chunks st_end,
             run_query 1 64 gap_broker (time_window_bind 0 0)
               (NatsScanInitGlobal (time_window_bind 0 0))
             = Returns (chunks, st_end)
             /\ done st_end = true
             /\ emitted_seqs chunks
                = [Some (Value_UBIGINT 1); Some (Value_UBIGINT 3)]).
  { do 2 eexists. split; [vm_compute; reflexivity|].
    split; [reflexivity|]. vm_compute. reflexivity. }
  destruct Hfacts as (chunks & st_end & Hrun & Hdone & Hseqs).
  exists chunks, st_end. split; [exact Hrun|]. split; [exact Hseqs|].
  apply (sequence_query_emits_window 64 1 gap_broker (time_window_bind 0 0)
           {| FirstSeq := 1; LastSeq := 3 |} chunks st_end).
  - cbn. lia.
  - cbn. lia.
  - reflexivity.
  - reflexivity.
  - exact Hrun.
  - exact Hdone.
Defined.

(** Witness of X23: on the stream with a gap, three calls (the window
    has three sequences) return and leave the query done. *)
Lemma query_finishes_witness :
  exists chunks st_end,
    run_query 3 64 gap_broker (time_window_bind 0 0)
      (NatsScanInitGlobal (time_window_bind 0 0)) = Returns (chunks, st_end)
    /\ done st_end = true.
Proof.
  assert (Hfacts : exists st1,
             prepare_scan 64 gap_broker (time_window_bind 0 0)
               (NatsScanInitGlobal (time_window_bind 0 0)) = Returns (Ready st1)
             /\ current_seq st1 = 1 /\ effective_end_seq st1 = 3).
  { eexists. split; [vm_compute; reflexivity|]. split; reflexivity. }
  destruct Hfacts as (st1 & Hprep & Hcur & Hend).
  apply (query_finishes 64 3 gap_broker (time_window_bind 0 0) st1 Hprep).
  - cbn. lia.
  - rewrite Hend. reflexivity.
  - rewrite Hend, Hcur. reflexivity.
  - intros s e _. apply gap_broker_no_error.
  - rewrite Hend, Hcur. cbn. lia.
Defined.

Lemma three_broker_messages (s : Z) (msg : natsMsg) :
  js_DirectGetMsg three_broker "EVENTS" s = DirectGet_OK msg ->
  (s = 1 /\ natsMsg_GetTime msg = 1000)
  \/ (s = 2 /\ natsMsg_GetTime msg = 2000)
  \/ (s = 3 /\ natsMsg_GetTime msg = 3000).
Proof.
  unfold three_broker, stream_broker. cbn [js_DirectGetMsg].
  destruct (_ !! s) as [m|] eqn:Hl; [|discriminate]. intros [= <-].
  apply lookup_insert_Some in Hl. destruct Hl as [[<- <-] | [_ Hl]]; [tauto|].
  apply lookup_insert_Some in Hl. destruct Hl as [[<- <-] | [_ Hl]]; [tauto|].
  apply lookup_singleton_Some in Hl. destruct Hl as [<- <-]. tauto.
Defined.

Lemma three_broker_monotone_everywhere :
  monotone_times three_broker "EVENTS" 0 UINT64_MAX.
Proof.
  intros s s' msg msg' Hs Hs' Hget Hget'.
  apply three_broker_messages in Hget, Hget'.
  destruct Hget as [[-> ->] | [[-> ->] | [-> ->]]];
    destruct Hget' as [[-> ->] | [[-> ->] | [-> ->]]]; lia.
Defined.

(** Witness of X24: on the three messages at 1000, 2000 and 3000 ns,
    the query with the start time 1500 ns hands back the sequences 2
    and 3; its first row is not older than the start time. *)
Lemma rows_not_before_start_time_witness :
  exists chunk st_end,
    run_query 1 64 three_broker (time_window_bind 1500 0)
      (NatsScanInitGlobal (time_window_bind 1500 0)) = Returns ([chunk], st_end)
    /\ cardinality chunk = 2%nat
    /\ GetValue 2 0 chunk = Some (Value_UBIGINT 2)
    /\ exists seq msg,
         js_DirectGetMsg three_broker "EVENTS" seq = DirectGet_OK msg
         /\ GetValue 2 0 chunk = Some (Value_UBIGINT seq)
         /\ 1500 <= natsMsg_GetTime msg.
Proof.
  assert (Hfacts : exists st1 chunk st_end,
             prepare_scan 64 three_broker (time_window_bind 1500 0)
               (NatsScanInitGlobal (time_window_bind 1500 0)) = Returns (Ready st1)
             /\ effective_end_seq st1 = 3
             /\ run_query 1 64 three_broker (time_window_bind 1500 0)
                  (NatsScanInitGlobal (time_window_bind 1500 0))
                = Returns ([chunk], st_end)
             /\ cardinality chunk = 2%nat
             /\ GetValue 2 0 chunk = Some (Value_UBIGINT 2)).
  { do 3 eexists. split; [vm_compute; reflexivity|]. split; [reflexivity|].
    split; [vm_compute; reflexivity|]. split; vm_compute; reflexivity. }
  destruct Hfacts as (st1 & chunk & st_end & Hprep & Hend & Hrun & Hcard & Hseq0).
  exists chunk, st_end. split; [exact Hrun|]. split; [exact Hcard|].
  split; [exact Hseq0|].
  destruct (rows_not_before_start_time 64 1 three_broker (time_window_bind 1500 0)
              st1 st_end [chunk] chunk 0) as (seq & msg & Hget & Hc2 & _ & Hns & _).
  - cbn. lia.
  - exact three_broker_monotone_everywhere.
  - exact Hprep.
  - rewrite Hend. reflexivity.
  - exact Hrun.
  - left. reflexivity.
  - rewrite Hcard. lia.
  - exists seq, msg. split; [exact Hget|]. split; [exact Hc2 | exact Hns].
Defined.

(** Witness of X25: after the first call of the JSON query, a second
    call has the same outcome on a broker that serves the same
    messages but refuses every connection step. *)
Lemma connection_is_made_once_witness :
  exists state chunk,
    NatsScanExecute 64 json_broker json_bind (NatsScanInitGlobal json_bind)
      reset_chunk = Returns (state, chunk)
    /\ NatsScanExecute 64 unreachable_json_broker json_bind state reset_chunk
       = NatsScanExecute 64 json_broker json_bind state reset_chunk.
Proof.
  assert (Hfacts : exists state chunk,
             NatsScanExecute 64 json_broker json_bind (NatsScanInitGlobal json_bind)
               reset_chunk = Returns (state, chunk)).
  { do 2 eexists. vm_compute. reflexivity. }
  destruct Hfacts as (state & chunk & Hcall).
  exists state, chunk. split; [exact Hcall|].
  destruct (connection_is_made_once 64 json_broker json_bind
              (NatsScanInitGlobal json_bind) state reset_chunk chunk eq_refl Hcall)
    as [_ Hsame].
  apply Hsame. intros s. reflexivity.
Defined.

(** Witness of X26: on the stream with a gap the answer for the
    target 50 lies in the window 1 to 3, and on the empty window from
    1 to 0 the answer is [UINT64_MAX]. *)
Lemma resolver_answer_in_window_witness :
  ResolveTimestampToSequence 64 gap_broker "EVENTS" 50 1 3 = Returns 3
  /\ (3 = UINT64_MAX \/ 1 <= 3 <= 3)
  /\ ResolveTimestampToSequence 0 gap_broker "EVENTS" 50 1 0 = Returns UINT64_MAX.
Proof.
  assert (Hcall : ResolveTimestampToSequence 64 gap_broker "EVENTS" 50 1 3 = Returns 3)
    by (vm_compute; reflexivity).
  destruct (resolver_answer_in_window 64 gap_broker "EVENTS" 50 1 3) as [Hin _].
  destruct (resolver_answer_in_window 0 gap_broker "EVENTS" 50 1 0) as [_ Hempty].
  split; [exact Hcall|]. split.
  - apply Hin; [lia | reflexivity | exact Hcall].
  - apply Hempty. lia.
Defined.


(** Witness of X28: on the three messages at 1000, 2000 and 3000 ns,
    with the window from 1500 to 2500 ns, the window of sequences ends
    at 3, the first message at or after 2500 ns; the row of sequence 2
    is before the end time, the row of sequence 3 is that message. *)
Lemma end_time_window_includes_next_message_witness :
  exists st1 chunk st_end,
    prepare_scan 64 three_broker (time_window_bind 1500 2500)
      (NatsScanInitGlobal (time_window_bind 1500 2500)) = Returns (Ready st1)
    /\ effective_end_seq st1 = 3
    /\ run_query 1 64 three_broker (time_window_bind 1500 2500)
         (NatsScanInitGlobal (time_window_bind 1500 2500))
       = Returns ([chunk], st_end)
    /\ GetValue 2 1 chunk = Some (Value_UBIGINT 3)
    /\ ((none_at_or_after three_broker "EVENTS" 2500 1 3
         /\ effective_end_seq st1 = 3)
        \/ first_at_or_after three_broker "EVENTS" 2500 1 3 (effective_end_seq st1))
    /\ exists seq msg,
         js_DirectGetMsg three_broker "EVENTS" seq = DirectGet_OK msg
         /\ GetValue 2 1 chunk = Some (Value_UBIGINT seq)
         /\ (1 <= seq <= 3 ->
             natsMsg_GetTime msg < 2500 \/ seq = effective_end_seq st1).
Proof.
  assert (Hfacts : exists st1 chunk st_end,
             prepare_scan 64 three_broker (time_window_bind 1500 2500)
               (NatsScanInitGlobal (time_window_bind 1500 2500))
             = Returns (Ready st1)
             /\ effective_end_seq st1 = 3
             /\ run_query 1 64 three_broker (time_window_bind 1500 2500)
                  (NatsScanInitGlobal (time_window_bind 1500 2500))
                = Returns ([chunk], st_end)
             /\ cardinality chunk = 2%nat
             /\ GetValue 2 1 chunk = Some (Value_UBIGINT 3)).
  { do 3 eexists. split; [vm_compute; reflexivity|]. split; [reflexivity|].
    split; [vm_compute; reflexivity|]. split; vm_compute; reflexivity. }
  destruct Hfacts as (st1 & chunk & st_end & Hprep & Hend & Hrun & Hcard & Hseq1).
  exists st1, chunk, st_end.
  split; [exact Hprep|]. split; [exact Hend|]. split; [exact Hrun|].
  split; [exact Hseq1|].
  destruct (end_time_window_includes_next_message 64 1 three_broker
              (time_window_bind 1500 2500) {| FirstSeq := 1; LastSeq := 3 |}
              st1 st_end [chunk]) as [Hwindow Hrows].
  - lia.
  - cbn. lia.
  - reflexivity.
  - cbn. lia.
  - cbn. lia.
  - reflexivity.
  - exact three_broker_dense.
  - exact three_broker_monotone.
  - exact Hprep.
  - split; [exact Hwindow|].
    apply (Hrows ltac:(rewrite Hend; reflexivity) Hrun chunk 1%nat).
    + left. reflexivity.
    + rewrite Hcard. lia.
Defined.

Lemma three_ms_broker_messages (s : Z) (msg : natsMsg) :
  js_DirectGetMsg three_ms_broker "EVENTS" s = DirectGet_OK msg ->
  (s = 1 /\ natsMsg_GetTime msg = 1000000)
  \/ (s = 2 /\ natsMsg_GetTime msg = 2000000)
  \/ (s = 3 /\ natsMsg_GetTime msg = 3000000).
Proof.
  unfold three_ms_broker, stream_broker. cbn [js_DirectGetMsg].
  destruct (_ !! s) as [m|] eqn:Hl; [|discriminate]. intros [= <-].
  apply lookup_insert_Some in Hl. destruct Hl as [[<- <-] | [_ Hl]]; [tauto|].
  apply lookup_insert_Some in Hl. destruct Hl as [[<- <-] | [_ Hl]]; [tauto|].
  apply lookup_singleton_Some in Hl. destruct Hl as [<- <-]. tauto.
Defined.

Lemma three_ms_broker_monotone :
  monotone_times three_ms_broker "EVENTS" 0 UINT64_MAX.
Proof.
  intros s s' msg msg' Hs Hs' Hget Hget'.
  apply three_ms_broker_messages in Hget, Hget'.
  destruct Hget as [[-> ->] | [[-> ->] | [-> ->]]];
    destruct Hget' as [[-> ->] | [[-> ->] | [-> ->]]]; lia.
Defined.

(** Witness of X29: the call with the start time 1500 us on the
    messages at 1, 2 and 3 ms: the first row is the message at 2 ms,
    and its [ts_nats], 2000 us, is not before 1500 us. *)
Lemma rows_not_before_start_argument_witness :
  exists r st1 chunk st_end,
    NatsScanBind
      {| inputs := [Value_VARCHAR "EVENTS"];
         named_parameters := [("start_time", Value_TIMESTAMP 1500)] |}
    = Returns r
    /\ prepare_scan 64 three_ms_broker (bind_data r)
         (NatsScanInitGlobal (bind_data r)) = Returns (Ready st1)
    /\ run_query 1 64 three_ms_broker (bind_data r)
         (NatsScanInitGlobal (bind_data r)) = Returns ([chunk], st_end)
    /\ GetValue 3 0 chunk = Some (Value_TIMESTAMP 2000)
    /\ start_time (bind_data r) = 1500 * 1000
    /\ exists ts_nats,
         GetValue 3 0 chunk = Some (Value_TIMESTAMP ts_nats) /\ 1500 <= ts_nats.
Proof.
  assert (Hfacts : exists r st1 chunk st_end,
             NatsScanBind
               {| inputs := [Value_VARCHAR "EVENTS"];
                  named_parameters := [("start_time", Value_TIMESTAMP 1500)] |}
             = Returns r
             /\ stream_name (bind_data r) = "EVENTS"
             /\ prepare_scan 64 three_ms_broker (bind_data r)
                  (NatsScanInitGlobal (bind_data r)) = Returns (Ready st1)
             /\ effective_end_seq st1 = 3
             /\ run_query 1 64 three_ms_broker (bind_data r)
                  (NatsScanInitGlobal (bind_data r)) = Returns ([chunk], st_end)
             /\ cardinality chunk = 2%nat
             /\ GetValue 3 0 chunk = Some (Value_TIMESTAMP 2000)).
  { do 4 eexists. split; [vm_compute; reflexivity|]. split; [reflexivity|].
    split; [vm_compute; reflexivity|]. split; [reflexivity|].
    split; [vm_compute; reflexivity|]. split; vm_compute; reflexivity. }
  destruct Hfacts as (r & st1 & chunk & st_end & Hbind & Hname & Hprep & Hend & Hrun
                      & Hcard & Hts).
  exists r, st1, chunk, st_end.
  split; [exact Hbind|]. split; [exact Hprep|]. split; [exact Hrun|].
  split; [exact Hts|].
  apply (rows_not_before_start_argument
           {| inputs := [Value_VARCHAR "EVENTS"];
              named_parameters := [("start_time", Value_TIMESTAMP 1500)] |}
           r 1500 64 1 three_ms_broker st1 st_end [chunk] chunk 0).
  - cbn. apply NoDup_cons_2; [rewrite elem_of_nil; tauto | apply NoDup_nil_2].
  - left. reflexivity.
  - lia.
  - lia.
  - exact Hbind.
  - rewrite Hname. exact three_ms_broker_monotone.
  - exact Hprep.
  - rewrite Hend. reflexivity.
  - exact Hrun.
  - left. reflexivity.
  - rewrite Hcard. lia.
Defined.

(** Witness of X30: the path [location.nope] of the telemetry schema;
    bind reports that [nope] is no field of [Loc], the type that
    [location] leads to. *)
Lemma bind_path_errors_are_accurate_witness :
  NatsScanBind bad_path_input = Throws (FieldNotFound "nope" "Loc" "location.nope")
  /\ exists root : Descriptor,
       FindMessageTypeByName tt "Telemetry" = Some root
       /\ path_error root (FieldNotFound "nope" "Loc" "location.nope").
Proof.
  assert (Hbind : NatsScanBind bad_path_input
                  = Throws (FieldNotFound "nope" "Loc" "location.nope"))
    by (vm_compute; reflexivity).
  split; [exact Hbind|].
  destruct (bind_path_errors_are_accurate bad_path_input _ Hbind)
    as (file_desc & root & _ & Hroot & Herr & _).
  - left. eauto.
  - exists root. split; [|exact Herr]. destruct file_desc. exact Hroot.
Defined.

End Checks.
